(** * TradingAlgo: the risk-managed paper-trading core

    A shallow embedding of [strategy-engine/paper_exchange.py] and
    [strategy-engine/risk_manager.py], together with the [/execute] endpoint
    of [strategy-engine/engine.py], and the properties of the account ledger,
    the position sizer and the risk gate.

    Numbers are modelled as the code has them: a Python [float] is an IEEE-754
    binary64 value ([PrimFloat.float], every operation correctly rounded to
    nearest-even), a Python [int] is an unbounded integer ([Z]).  The prices
    the engine reads from the market frame are [numpy.float64] scalars: the
    same binary64 values with the same arithmetic, but their [round()] is
    numpy's, and whatever is computed from them is a [numpy.float64] again;
    a number therefore carries its type ([Num.num]).  Exceptions raised by
    the built-ins ([int()] of a NaN or an infinity, the conversion of a huge
    [int] to [float], a float division by zero) are results of the error
    type [Py.result]. *)

From Stdlib Require Import ZArith Bool List String Lia.
From Stdlib Require Import Floats.
Import ListNotations.

#[local] Set Warnings "-inexact-float".
#[local] Open Scope Z_scope.

(** ** Python built-ins used by the code *)

Module Py.

Inductive exn : Set :=
| ZeroDivisionError
| OverflowError
| ValueError.

Inductive result (A : Type) : Type :=
| Ok (a : A)
| Raise (e : exn).
Arguments Ok {A} a.
Arguments Raise {A} e.

Definition bind {A B : Type} (c : result A) (k : A -> result B) : result B :=
  match c with
  | Ok a => k a
  | Raise e => Raise e
  end.

Definition returns {A : Type} (c : result A) : bool :=
  match c with
  | Ok _ => true
  | Raise _ => false
  end.

(** [float(n)] for an [int] [n], as done implicitly by [2.0 * quantity]:
    the nearest binary64 (ties to even); [OverflowError] when that is not
    finite. *)
Definition float_of_int (n : Z) : result float :=
  match binary_normalize prec emax n 0 false with
  | S754_infinity _ => Raise OverflowError
  | sf => Ok (SF2Prim sf)
  end.

(** The integer part of a finite float with mantissa [m] and exponent [e],
    rounded towards zero. *)
Definition trunc_mantissa (m : positive) (e : Z) : Z :=
  match e with
  | Zneg p => Z.pos m / 2 ^ Z.pos p
  | _ => Z.pos m * 2 ^ e
  end.

(** [int(x)] for a [float] [x]: truncation towards zero; [ValueError] on a
    NaN, [OverflowError] on an infinity. *)
Definition int_of_float (x : float) : result Z :=
  match Prim2SF x with
  | S754_nan => Raise ValueError
  | S754_infinity _ => Raise OverflowError
  | S754_zero _ => Ok 0
  | S754_finite s m e => Ok (cond_Zopp s (trunc_mantissa m e))
  end.

(** [x / y] on floats: Python raises [ZeroDivisionError] on a zero divisor
    (of either sign) instead of producing an infinity or a NaN. *)
Definition truediv (x y : float) : result float :=
  if PrimFloat.eqb y 0%float then Raise ZeroDivisionError
  else Ok (PrimFloat.div x y).

(** [a / b] on two [int]s ([wins / total]): the correctly rounded quotient. *)
Definition int_truediv (a b : Z) : result float :=
  match a, b with
  | _, Z0 => Raise ZeroDivisionError
  | Z0, _ => Ok 0%float
  | _, _ =>
      match SFdiv prec emax
              (S754_finite (a <? 0) (Z.to_pos (Z.abs a)) 0)
              (S754_finite (b <? 0) (Z.to_pos (Z.abs b)) 0) with
      | S754_infinity _ => Raise OverflowError
      | sf => Ok (SF2Prim sf)
      end
  end.

(** Round-half-even of the rational [num / den], [den > 0]. *)
Definition round_half_even (num den : Z) : Z :=
  let q := num / den in
  let r := num mod den in
  match 2 * r ?= den with
  | Lt => q
  | Gt => q + 1
  | Eq => if Z.even q then q else q + 1
  end.

(** [round(x, ndigits)] for a float [x] and [ndigits >= 0]: the exact binary
    value of [x] is rounded half-even to [ndigits] decimals and the decimal
    obtained is converted back to the nearest binary64; zeros, infinities
    and NaN round to themselves, and the sign of [x] is kept. *)
Definition round (x : float) (ndigits : N) : float :=
  match Prim2SF x with
  | S754_finite s m e =>
      let p := 10 ^ Z.of_N ndigits in
      let n := match e with
               | Zneg k => round_half_even (Z.pos m * p) (2 ^ Z.pos k)
               | _ => Z.pos m * 2 ^ e * p
               end in
      match n with
      | Z.pos n' =>
          SF2Prim (SFdiv prec emax (S754_finite s n' 0)
                                   (S754_finite false (Z.to_pos p) 0))
      | _ => SF2Prim (S754_zero s)
      end
  | _ => x
  end.

(** [x <= n] for a float [x] and an [int] [n]: Python compares the two
    exactly, without converting [n]; a NaN compares false. *)
Definition float_le_int (x : float) (n : Z) : bool :=
  match Prim2SF x with
  | S754_nan => false
  | S754_infinity s => s
  | S754_zero _ => 0 <=? n
  | S754_finite s m e =>
      match e with
      | Zneg p => cond_Zopp s (Z.pos m) <=? n * 2 ^ Z.pos p
      | _ => cond_Zopp s (Z.pos m * 2 ^ e) <=? n
      end
  end.

(** [max(1, k)] on [int]s. *)
Definition max (a b : Z) : Z := if a <? b then b else a.

(** The exact floor of a float, for comparison with [int_of_float]. *)
Definition floor_of_float (x : float) : result Z :=
  match Prim2SF x with
  | S754_nan => Raise ValueError
  | S754_infinity _ => Raise OverflowError
  | S754_zero _ => Ok 0
  | S754_finite s m e =>
      Ok (match e with
          | Zneg p => cond_Zopp s (Z.pos m) / 2 ^ Z.pos p
          | _ => cond_Zopp s (Z.pos m) * 2 ^ e
          end)
  end.

End Py.

Import Py.

Declare Scope py_scope.
Notation "x <- c ;; k" := (Py.bind c (fun x => k))
  (at level 61, c at next level, right associativity) : py_scope.
#[local] Open Scope py_scope.

(** ** numpy scalars *)

Module Np.

(** [numpy.rint]: the nearest integer, ties to even, with the sign kept; a
    float without a fractional part, an infinity and a NaN are returned as
    they are. *)
Definition rint (x : float) : float :=
  match Prim2SF x with
  | S754_finite s m (Zneg k) =>
      match round_half_even (Z.pos m) (2 ^ Z.pos k) with
      | Z.pos n => SF2Prim (binary_round prec emax s n 0)
      | _ => SF2Prim (S754_zero s)
      end
  | _ => x
  end.

(** The float [10.0 ** decimals] numpy scales by; exact up to [1e22]. *)
Definition power_of_ten (decimals : N) : float :=
  SF2Prim (binary_normalize prec emax (10 ^ Z.of_N decimals) 0 false).

(** [round(x, decimals)] for a [numpy.float64] [x] and [decimals >= 0]:
    numpy multiplies by [10.0 ** decimals], rounds to the nearest integer
    and divides again, each step in float arithmetic. *)
Definition round (x : float) (decimals : N) : float :=
  let f := power_of_ten decimals in
  (rint (x * f) / f)%float.

End Np.

(** ** Numbers and their types *)

(** The type of a float object: the built-in [float], or [numpy.float64]. *)
Inductive kind : Set := PyFloat | NpFloat64.

Record num : Set := mk_num {
  val :> float;
  kind_of : kind
}.

(** A built-in [float]; an [int] operand of a float operation converts to
    one and leaves the type of the result to the other operand. *)
Definition py (x : float) : num := mk_num x PyFloat.

(** A [numpy.float64]. *)
Definition np (x : float) : num := mk_num x NpFloat64.

Module Num.

(** The type of the result of an arithmetic operation: a [numpy.float64]
    as soon as one operand is one. *)
Definition join (a b : kind) : kind :=
  match a, b with
  | PyFloat, PyFloat => PyFloat
  | _, _ => NpFloat64
  end.

Definition add (a b : num) : num :=
  mk_num (val a + val b) (join (kind_of a) (kind_of b)).

Definition sub (a b : num) : num :=
  mk_num (val a - val b) (join (kind_of a) (kind_of b)).

Definition mul (a b : num) : num :=
  mk_num (val a * val b) (join (kind_of a) (kind_of b)).

Definition opp (a : num) : num := mk_num (- val a) (kind_of a).

Definition abs (a : num) : num := mk_num (PrimFloat.abs (val a)) (kind_of a).

(** [round(a, ndigits)]: the method of the type of [a]. *)
Definition round (a : num) (ndigits : N) : num :=
  match kind_of a with
  | PyFloat => mk_num (Py.round (val a) ndigits) PyFloat
  | NpFloat64 => mk_num (Np.round (val a) ndigits) NpFloat64
  end.

End Num.

Declare Scope num_scope.
Delimit Scope num_scope with num.
Bind Scope num_scope with num.
Notation "a + b" := (Num.add a b) : num_scope.
Notation "a - b" := (Num.sub a b) : num_scope.
Notation "a * b" := (Num.mul a b) : num_scope.
Notation "- a" := (Num.opp a) : num_scope.

(** ** Ambient inputs of one execution

    [execute_order] draws from [random] and reads the clock.  The draws are
    made explicit: which element [random.choice] picks from its three-element
    list, the value [random.uniform(1.5, 3.0)] returns, and the formatted
    [datetime.now()]. *)

Inductive pick3 : Set := First | Second | Third.

Definition random_choice {A : Type} (l : A * A * A) (i : pick3) : A :=
  let '(a, b, c) := l in
  match i with
  | First => a
  | Second => b
  | Third => c
  end.

Record draws : Type := {
  slippage_pick : pick3;
  outcome_pick : pick3;
  rr_draw : float;
  now : string
}.

(** [random.uniform(1.5, 3.0)] lies between its two bounds. *)
Definition rr_in_range (d : draws) : bool :=
  (PrimFloat.leb 1.5 (rr_draw d) && PrimFloat.leb (rr_draw d) 3.0)%bool.

(** ** paper_exchange.py *)

Module PaperExchange.

(** The dict built at the end of [execute_order]. *)
Record trade_record : Type := {
  t_time : string;
  t_symbol : string;
  t_action : string;
  t_price : num;
  t_pnl : num;
  t_result : string;
  t_reasoning : string
}.

(** The attributes of a [PaperExchange] object. *)
Record t : Type := {
  balance : num;
  pnl : num;
  history : list trade_record
}.

Definition init : t :=
  {| balance := py 100000.0; pnl := py 0.0; history := [] |}.

Definition reset (self : t) : t * bool :=
  ({| balance := py 100000.0; pnl := py 0.0; history := [] |}, true).

(** The locals of [execute_order] before the ledger is touched; [quantity]
    is already converted to a float, as the first arithmetic on it does. *)
Definition fill_price_of (d : draws) (action : string) (price : num) : num :=
  let slippage := py (random_choice (0, 0.25, 0.5)%float (slippage_pick d)) in
  if String.eqb action "BUY" then (price + slippage)%num
  else (price - slippage)%num.

Definition profit_of (d : draws) (fill_price stop : num) (quantity : float)
  : num * string :=
  let outcome := random_choice ("WIN", "LOSS", "WIN")%string (outcome_pick d) in
  if String.eqb outcome "WIN" then
    let rr := py (rr_draw d) in
    let risk_amt := (Num.abs (fill_price - stop) * py quantity * py 20)%num in
    ((risk_amt * rr)%num, "WIN"%string)
  else
    let loss := (Num.abs (fill_price - stop) * py quantity * py 20)%num in
    ((- loss)%num, "LOSS"%string).

Definition execute_order (d : draws) (self : t)
    (symbol action : string) (quantity : Z) (price stop : num)
    (reasoning : string) : result (t * trade_record) :=
  let fill_price := fill_price_of d action price in
  q <- float_of_int quantity ;;
  let commission := py (2.0 * q) in
  let '(profit, status) := profit_of d fill_price stop q in
  let balance' := (balance self + (profit - commission))%num in
  let pnl' := (pnl self + (profit - commission))%num in
  let trade_record :=
    {| t_time := now d;
       t_symbol := symbol;
       t_action := action;
       t_price := Num.round fill_price 2;
       t_pnl := Num.round (profit - commission) 2;
       t_result := status;
       t_reasoning := reasoning |} in
  Ok ({| balance := balance'; pnl := pnl';
         history := history self ++ [trade_record] |},
      trade_record).

(** The dict returned by [get_stats].  [win_rate] is the [int] 0 when there
    is no trade and a float otherwise ([wins / total] cannot raise once
    [total > 0]: the quotient is at most 1). *)
Inductive number : Type :=
| Int (n : Z)
| Float (x : float).

Record stats : Type := {
  st_balance : num;
  st_pnl : num;
  st_trades_count : Z;
  st_win_rate : number;
  st_history : list trade_record
}.

Definition win_rate_of (wins total : Z) : number :=
  if 0 <? total then
    match int_truediv wins total with
    | Ok r => Float (Py.round (r * 100)%float 1)
    | Raise _ => Int 0
    end
  else Int 0.

(** [l[-10:]] *)
Definition last10 {A : Type} (l : list A) : list A :=
  skipn (List.length l - 10)%nat l.

Definition get_stats (self : t) : stats :=
  let wins :=
    Z.of_nat (List.length
      (filter (fun t => String.eqb (t_result t) "WIN") (history self))) in
  let total := Z.of_nat (List.length (history self)) in
  {| st_balance := Num.round (balance self) 2;
     st_pnl := Num.round (pnl self) 2;
     st_trades_count := total;
     st_win_rate := win_rate_of wins total;
     st_history := last10 (history self) |}.

End PaperExchange.

(** ** risk_manager.py *)

Module RiskManager.

Import PaperExchange.

(** The attributes set once by [__init__] and never assigned again. *)
Definition max_daily_loss : Z := 1000.
Definition max_trades_daily : Z := 5.
Definition risk_per_trade_pct : float := 0.005.

(** The attributes of a [RiskManager] object that change. *)
Record t : Type := {
  exchange : PaperExchange.t;
  trades_today : Z
}.

Definition init : t :=
  {| exchange := PaperExchange.init; trades_today := 0 |}.

Definition can_trade (self : t) : bool * string :=
  let state := get_stats (exchange self) in
  if float_le_int (st_pnl state) (- max_daily_loss)
  then (false, "Daily Loss Limit Hit"%string)
  else if max_trades_daily <=? trades_today self
  then (false, "Max Trades Reached"%string)
  else (true, "OK"%string).

(** The dict returned by [calculate_position_size]. *)
Record sizing : Type := {
  s_type : string;
  s_symbol : string;
  s_contracts : Z
}.

(** The per-point dollar values; Python [int]s, used only as factors of a
    float product, where they convert exactly. *)
Definition tick_val_mini (instrument : string) : float :=
  if String.eqb instrument "NQ" then 20%float else 50%float.

Definition tick_val_micro (instrument : string) : float :=
  if String.eqb instrument "NQ" then 2%float else 5%float.

(** [abs(entry_price - stop_price)], replaced by 10 when it is zero.  The
    sizing reads the two prices for their values only: it rounds neither,
    and its results, a string and an [int], have no float type to inherit.
    (With a [numpy.float64] divisor the division is numpy's, which raises
    nothing; the divisor is never zero, so that [ZeroDivisionError] is out
    of reach in both cases.) *)
Definition point_diff_of (entry_price stop_price : float) : float :=
  let point_diff := abs (entry_price - stop_price)%float in
  if PrimFloat.eqb point_diff 0%float then 10%float else point_diff.

Definition risk_amount_of (self : t) : float :=
  let state := get_stats (exchange self) in
  (st_balance state * risk_per_trade_pct)%float.

Definition calculate_position_size (self : t)
    (entry_price stop_price : float) (instrument : string) : result sizing :=
  let risk_amount := risk_amount_of self in
  let point_diff := point_diff_of entry_price stop_price in
  let risk_per_mini := (point_diff * tick_val_mini instrument)%float in
  if PrimFloat.leb risk_per_mini risk_amount then
    q <- truediv risk_amount risk_per_mini ;;
    n <- int_of_float q ;;
    Ok {| s_type := "MINI"; s_symbol := instrument;
          s_contracts := Py.max 1 n |}
  else
    q <- truediv risk_amount (point_diff * tick_val_micro instrument)%float ;;
    n <- int_of_float q ;;
    Ok {| s_type := "MICRO"; s_symbol := String.append "M" instrument;
          s_contracts := Py.max 1 n |}.

Definition execute_paper_trade (d : draws) (self : t)
    (symbol action : string) (price stop : num) (reasoning : string)
  : result (t * (trade_record * sizing)) :=
  sizing <- calculate_position_size self price stop "NQ" ;;
  r <- execute_order d (exchange self) (s_symbol sizing) action
         (s_contracts sizing) price stop reasoning ;;
  let '(exchange', trade) := r in
  Ok ({| exchange := exchange'; trades_today := trades_today self + 1 |},
      (trade, sizing)).

(** The dict returned by [get_status]. *)
Record status : Type := {
  g_balance : num;
  g_daily_pl : num;
  g_daily_limit : Z;
  g_trades_today : Z;
  g_max_trades : Z;
  g_status : string;
  g_win_rate : number;
  g_trades_count : Z;
  g_history : list trade_record
}.

Definition get_status (self : t) : status :=
  let stats := get_stats (exchange self) in
  {| g_balance := st_balance stats;
     g_daily_pl := st_pnl stats;
     g_daily_limit := max_daily_loss;
     g_trades_today := trades_today self;
     g_max_trades := max_trades_daily;
     g_status := if fst (can_trade self) then "TRADING ACTIVE"
                 else "TRADING HALTED";
     g_win_rate := st_win_rate stats;
     g_trades_count := st_trades_count stats;
     g_history := st_history stats |}.

Definition reset_account (self : t) : t :=
  let '(exchange', _) := PaperExchange.reset (exchange self) in
  {| exchange := exchange'; trades_today := 0 |}.

End RiskManager.

(** ** engine.py: the [/execute], [/account-status] and [/reset] endpoints

    The market feed is outside the core: the last close read by the endpoint
    is an input, [None] standing for an empty frame.  Read from the frame
    ([df['Close'].iloc[-1]]), the price is a [numpy.float64]. *)

Module Engine.

Import PaperExchange RiskManager.

Definition SYMBOL : string := "NQ=F".

Record TradeReq : Type := {
  req_symbol : string;
  req_action : string;
  req_user : string;
  req_reasoning : string
}.

(** The interpolated values of the [details] f-string, in order. *)
Record details : Type := {
  d_action : string;
  d_contracts : Z;
  d_type : string;
  d_price : num
}.

Inductive response : Type :=
| REJECTED (reason : string)
| ERROR (reason : string)
| FILLED (det : details) (result : string)
| RESET.

Definition execute_trade (d : draws) (last_close : option float)
    (risk : RiskManager.t) (req : TradeReq)
  : result (RiskManager.t * response) :=
  let '(allowed, reason) := can_trade risk in
  if negb allowed then Ok (risk, REJECTED reason)
  else
    match last_close with
    | None => Ok (risk, ERROR "Data Offline")
    | Some close =>
        let price := np close in
        let stop := if String.eqb (req_action req) "BUY"
                    then (price - py 20)%num else (price + py 20)%num in
        r <- execute_paper_trade d risk SYMBOL (req_action req) price stop
               (req_reasoning req) ;;
        let '(risk', (trade, sizing)) := r in
        Ok (risk',
            FILLED {| d_action := req_action req;
                      d_contracts := s_contracts sizing;
                      d_type := s_type sizing;
                      d_price := Num.round price 2 |}
                   (t_result trade))
    end.

Definition account_status (risk : RiskManager.t) : status :=
  get_status risk.

Definition reset_account (risk : RiskManager.t) : RiskManager.t * response :=
  (RiskManager.reset_account risk, RESET).

End Engine.

(** ** Sequences of calls on one account

    A [call] is one method call on the risk manager or, through its [exchange]
    attribute, on the paper exchange.  [step] is the state of the object after
    the call.  A call that raises leaves the object as it was: in
    [execute_order] every operation that can raise comes before the first
    assignment to [self.balance]. *)

Import PaperExchange RiskManager.

Inductive call : Type :=
| CanTrade
| CalculatePositionSize (entry_price stop_price : float) (instrument : string)
| ExecutePaperTrade (d : draws) (symbol action : string) (price stop : num)
    (reasoning : string)
| GetStatus
| ResetAccount
| ExchangeExecuteOrder (d : draws) (symbol action : string) (quantity : Z)
    (price stop : num) (reasoning : string)
| ExchangeGetStats
| ExchangeReset.

Definition step (c : call) (rm : RiskManager.t) : RiskManager.t :=
  match c with
  | ExecutePaperTrade d symbol action price stop reasoning =>
      match execute_paper_trade d rm symbol action price stop reasoning with
      | Ok (rm', _) => rm'
      | Raise _ => rm
      end
  | ResetAccount => reset_account rm
  | ExchangeExecuteOrder d symbol action quantity price stop reasoning =>
      match execute_order d (exchange rm) symbol action quantity price stop
              reasoning with
      | Ok (ex', _) => {| exchange := ex'; trades_today := trades_today rm |}
      | Raise _ => rm
      end
  | ExchangeReset =>
      {| exchange := fst (PaperExchange.reset (exchange rm));
         trades_today := trades_today rm |}
  | CanTrade | CalculatePositionSize _ _ _ | GetStatus | ExchangeGetStats => rm
  end.

(** Whether the call returns normally. *)
Definition completes (c : call) (rm : RiskManager.t) : bool :=
  match c with
  | CalculatePositionSize entry_price stop_price instrument =>
      returns (calculate_position_size rm entry_price stop_price instrument)
  | ExecutePaperTrade d symbol action price stop reasoning =>
      returns (execute_paper_trade d rm symbol action price stop reasoning)
  | ExchangeExecuteOrder d symbol action quantity price stop reasoning =>
      returns (execute_order d (exchange rm) symbol action quantity price stop
                 reasoning)
  | _ => true
  end.

(** The calls that are methods of the risk manager itself. *)
Definition risk_manager_call (c : call) : bool :=
  match c with
  | ExchangeExecuteOrder _ _ _ _ _ _ _ | ExchangeGetStats | ExchangeReset => false
  | _ => true
  end.

Definition run (cs : list call) (rm : RiskManager.t) : RiskManager.t :=
  fold_left (fun s c => step c s) cs rm.

Definition all_complete (cs : list call) (rm : RiskManager.t) : bool :=
  snd (fold_left (fun '(s, ok) c => (step c s, ok && completes c s)%bool)
         cs (rm, true)).

(** [profit - commission] of an order, as [execute_order] computes it. *)
Definition net_pnl_of (d : draws) (action : string) (quantity : Z)
    (price stop : num) : result num :=
  q <- float_of_int quantity ;;
  let '(profit, _) := profit_of d (fill_price_of d action price) stop q in
  Ok (profit - py (2.0 * q))%num.

(** The amount the call [c] books on the account [rm]: [profit - commission]
    of the order it executes, if it executes one. *)
Definition booked (c : call) (rm : RiskManager.t) : option num :=
  match c with
  | ExecutePaperTrade d symbol action price stop reasoning =>
      match calculate_position_size rm price stop "NQ" with
      | Ok sizing =>
          match net_pnl_of d action (s_contracts sizing) price stop with
          | Ok net => Some net
          | Raise _ => None
          end
      | Raise _ => None
      end
  | ExchangeExecuteOrder d symbol action quantity price stop reasoning =>
      match net_pnl_of d action quantity price stop with
      | Ok net => Some net
      | Raise _ => None
      end
  | _ => None
  end.

(** The amounts booked by the calls [cs] since the last reset, oldest first,
    after the amounts [since] booked before them. *)
Fixpoint amounts (cs : list call) (rm : RiskManager.t) (since : list num)
  : list num :=
  match cs with
  | [] => since
  | c :: cs' =>
      amounts cs' (step c rm)
        (match c with
         | ResetAccount | ExchangeReset => []
         | _ =>
             match booked c rm with
             | Some net => since ++ [net]
             | None => since
             end
         end)
  end.

(** ** The properties as the specification words them

    Each definition below transcribes a sentence of the specification, to be
    compared with what the code computes. *)

Module Claimed.

(** "balance == initial_balance + cumulative_pnl" *)
Definition ledger_consistent (ex : PaperExchange.t) : bool :=
  PrimFloat.eqb (balance ex) (100000.0 + pnl ex)%float.

(** "[can_trade()] returns (false, Daily Loss Limit Hit) once
    cumulative_pnl <= -1000; (false, Max Trades Reached) once trades_today
    reaches 5", read on the cumulative pnl the ledger holds. *)
Definition can_trade (rm : RiskManager.t) : bool * string :=
  if float_le_int (pnl (exchange rm)) (-1000)
  then (false, "Daily Loss Limit Hit"%string)
  else if 5 <=? trades_today rm
  then (false, "Max Trades Reached"%string)
  else (true, "OK"%string).

(** "risk_budget = current account balance x 0.5%";
    "point_distance = |entry - stop|, 10 if zero";
    "STANDARD tier if risk_budget >= point_distance x standard value, with
    max(1, floor(risk_budget / risk_per_standard_contract)) contracts, else
    MICRO tier with the symbol prefixed". *)
Definition position_size (balance entry stop : float) (instrument : string)
  : result sizing :=
  let risk_budget := (balance * 0.005)%float in
  let point_distance :=
    if PrimFloat.eqb (abs (entry - stop)) 0 then 10%float
    else abs (entry - stop)%float in
  let risk_per_standard := (point_distance * tick_val_mini instrument)%float in
  if PrimFloat.leb risk_per_standard risk_budget then
    n <- floor_of_float (risk_budget / risk_per_standard)%float ;;
    Ok {| s_type := "MINI"; s_symbol := instrument;
          s_contracts := Z.max 1 n |}
  else
    n <- floor_of_float
           (risk_budget / (point_distance * tick_val_micro instrument))%float ;;
    Ok {| s_type := "MICRO"; s_symbol := String.append "M" instrument;
          s_contracts := Z.max 1 n |}.

(** "Net P&L recorded on the Trade = profit - commission", with
    "commission = per-contract rate x quantity" and the profit of a WIN or
    of a LOSS. *)
Inductive outcome : Set := WIN | LOSS.

Definition commission (quantity : float) : float := (2.0 * quantity)%float.

Definition profit (o : outcome) (fill_price stop quantity reward_multiple : float)
  : float :=
  match o with
  | WIN => (abs (fill_price - stop) * quantity * 20 * reward_multiple)%float
  | LOSS => (- (abs (fill_price - stop) * quantity * 20))%float
  end.

Definition net_pnl (o : outcome) (fill_price stop quantity reward_multiple : float)
  : float :=
  (profit o fill_price stop quantity reward_multiple - commission quantity)%float.

Definition outcome_label (o : outcome) : string :=
  match o with
  | WIN => "WIN"
  | LOSS => "LOSS"
  end.

End Claimed.

(** The outcome drawn by [random.choice(["WIN", "LOSS", "WIN"])]. *)
Definition outcome_of (d : draws) : Claimed.outcome :=
  random_choice (Claimed.WIN, Claimed.LOSS, Claimed.WIN) (outcome_pick d).

Definition slippage_of (d : draws) : float :=
  random_choice (0, 0.25, 0.5)%float (slippage_pick d).

(** Concrete draws and requests used in the examples. *)
Definition draw (s o : pick3) (rr : float) : draws :=
  {| slippage_pick := s; outcome_pick := o; rr_draw := rr;
     now := "2026-01-05 10:15" |}.

(** ** Auxiliary notions used to state the properties *)

(** The state [rm] with its cumulative pnl replaced by [p]. *)
Definition with_pnl (p : num) (rm : RiskManager.t) : RiskManager.t :=
  {| exchange := {| balance := balance (exchange rm); pnl := p;
                    history := history (exchange rm) |};
     trades_today := trades_today rm |}.

(** The state [rm] with its balance replaced by [b]. *)
Definition with_balance (b : num) (rm : RiskManager.t) : RiskManager.t :=
  {| exchange := {| balance := b; pnl := pnl (exchange rm);
                    history := history (exchange rm) |};
     trades_today := trades_today rm |}.

(** [start + x1 + ... + xn], added left to right in float arithmetic. *)
Definition ledger_sum (start : num) (xs : list num) : num :=
  fold_left Num.add xs start.

(** The float [calculate_position_size] hands to [int()]. *)
Definition sizing_quotient (rm : RiskManager.t) (entry_price stop_price : float)
    (instrument : string) : float :=
  let risk_amount := risk_amount_of rm in
  let point_diff := point_diff_of entry_price stop_price in
  let risk_per_mini := (point_diff * tick_val_mini instrument)%float in
  if PrimFloat.leb risk_per_mini risk_amount
  then (risk_amount / risk_per_mini)%float
  else (risk_amount / (point_diff * tick_val_micro instrument))%float.

(** [trades_today == len(trade_history)] *)
Definition counts_history (rm : RiskManager.t) : Prop :=
  trades_today rm = Z.of_nat (List.length (history (exchange rm))).

Definition is_execute_paper_trade (c : call) : bool :=
  match c with
  | ExecutePaperTrade _ _ _ _ _ _ => true
  | _ => false
  end.

Definition is_reset (c : call) : bool :=
  match c with
  | ResetAccount | ExchangeReset => true
  | _ => false
  end.

(** Two winning paper trades at 20000 with a stop 20 points below, the
    prices given as built-in floats. *)
Definition two_wins : list call :=
  [ ExecutePaperTrade (draw Second First 2.694) "NQ=F" "BUY"
      (py 20000) (py 19980) "Manual";
    ExecutePaperTrade (draw Third First 1.88) "NQ=F" "BUY"
      (py 20000) (py 19980) "Manual" ].

(** Two losing paper trades at 20000, stopped 25 and 24.7998 points below,
    the prices given as built-in floats. *)
Definition two_losses : list call :=
  [ ExecutePaperTrade (draw First Second 2.0) "NQ=F" "BUY"
      (py 20000) (py 19975) "Manual";
    ExecutePaperTrade (draw First Second 2.0) "NQ=F" "BUY"
      (py 20000) (py 19975.2002) "Manual" ].

(** The ledger [ex] holds the float sums of the net amounts [xs], and its
    history records each of them rounded to two decimals, by the [round()]
    of its type. *)
Definition accumulates (ex : PaperExchange.t) (xs : list num) : Prop :=
  balance ex = ledger_sum (py 100000.0) xs
  /\ pnl ex = ledger_sum (py 0.0) xs
  /\ map (fun x => Num.round x 2) xs = map t_pnl (history ex).

(** The value [m * 2^e] is at least 1000: stated on the mantissa when the
    exponent is at most 3 (1000 is 125 * 2^3), and by a mantissa of 53 bits
    when it is above. *)
Definition at_least_1000 (m e : Z) : Prop :=
  (e <= 3 /\ 125 * 2 ^ (3 - e) <= m) \/ (3 < e /\ 2 ^ 52 <= m).

(** The value [m * 2^e] is at least [c * 2^k]: stated on the mantissa when
    the exponent is at most [k], and by a mantissa of 53 bits when it is
    above. *)
Definition at_least (c k m e : Z) : Prop :=
  (e <= k /\ c * 2 ^ (k - e) <= m) \/ (k < e /\ 2 ^ 52 <= m).

(** An infinity below zero, or a negative float of magnitude at least
    [c * 2^k]. *)
Definition below_neg (c k : Z) (x : spec_float) : Prop :=
  match x with
  | S754_infinity s => s = true
  | S754_finite s m e => s = true /\ at_least c k (Z.pos m) e
  | _ => False
  end.


(** ** Requests served by the engine

    The three endpoints that touch the account, as one worker serves them one
    after the other (their bodies contain no [await]).  A request whose
    handler raises leaves the account as it was. *)

Inductive request : Type :=
| PostExecute (d : draws) (last_close : option float) (req : Engine.TradeReq)
| GetAccountStatus
| PostReset.

Definition serve (r : request) (risk : RiskManager.t) : RiskManager.t :=
  match r with
  | PostExecute d last_close req =>
      match Engine.execute_trade d last_close risk req with
      | Ok (risk', _) => risk'
      | Raise _ => risk
      end
  | GetAccountStatus => risk
  | PostReset => fst (Engine.reset_account risk)
  end.

Definition serve_all (rs : list request) (risk : RiskManager.t) : RiskManager.t :=
  fold_left (fun s r => serve r s) rs risk.

Definition is_post_reset (r : request) : bool :=
  match r with
  | PostReset => true
  | _ => false
  end.

(** A trade on "NQ" or "MNQ" that is a "WIN" or a "LOSS". *)
Definition well_labelled (t : trade_record) : Prop :=
  (t_symbol t = "NQ"%string \/ t_symbol t = "MNQ"%string)
  /\ (t_result t = "WIN"%string \/ t_result t = "LOSS"%string).

(** ** engine.py: the session window and the reasoning line of [/analysis] *)

Module Analysis.

(** A naive [datetime.time]; two of them compare as the tuples of their
    fields. *)
Record time : Type := {
  hour : Z;
  minute : Z;
  second : Z;
  microsecond : Z
}.

(** [datetime.time(h, m)] *)
Definition time_of (h m : Z) : time :=
  {| hour := h; minute := m; second := 0; microsecond := 0 |}.

Definition time_compare (a b : time) : comparison :=
  match hour a ?= hour b with
  | Eq =>
      match minute a ?= minute b with
      | Eq =>
          match second a ?= second b with
          | Eq => microsecond a ?= microsecond b
          | c => c
          end
      | c => c
      end
  | c => c
  end.

Definition time_le (a b : time) : bool :=
  match time_compare a b with
  | Gt => false
  | _ => true
  end.

Definition check_silver_bullet (now : time) : string :=
  if (time_le (time_of 10 0) now && time_le now (time_of 11 0))%bool
  then "AM SILVER BULLET"
  else if (time_le (time_of 14 0) now && time_le now (time_of 15 0))%bool
  then "PM SILVER BULLET"
  else "OFF HOURS".

(** [sub in s] on strings. *)
Fixpoint contains (sub s : string) : bool :=
  (String.prefix sub s
   || match s with
      | EmptyString => false
      | String _ s' => contains sub s'
      end)%bool.

(** The dict [get_range] returns for the 09:30-10:30 range; its values are
    computed from the frame. *)
Record dr_range : Type := {
  h : float;
  l : float;
  mid : float
}.

(** The bias [perform_analysis] derives from the last price and the range;
    [sessions['RDR']] is a non-empty dict or [None]. *)
Definition m7_bias_of (price : float) (RDR : option dr_range) : string :=
  match RDR with
  | Some r =>
      if PrimFloat.ltb (h r) price then "BULLISH (KM7)"
      else if PrimFloat.ltb price (l r) then "BEARISH (KM7)"
      else "NEUTRAL"
  | None => "NEUTRAL"
  end.

Definition reasons_of (m7_bias sb_status : string) : list string :=
  (if contains "BULL" m7_bias then ["Price > RDR High"%string] else [])
  ++ (if contains "BEAR" m7_bias then ["Price < RDR Low"%string] else [])
  ++ (if contains "BULLET" sb_status
      then [String.append sb_status " Active"] else []).

(** The [price] of the answer: the [int] 0 without a feed, the last close
    rounded to cents otherwise. *)
Inductive shown_price : Type :=
| IntPrice (n : Z)
| FloatPrice (p : num).

(** The dict [perform_analysis] returns, its nested dicts flattened; the
    [symbol] is the constant [SYMBOL] in every answer. *)
Record analysis : Type := {
  a_price : shown_price;
  a_bias : string;
  a_mmxm : string;
  a_context_array : string;
  a_reasoning : string;
  a_RDR : option dr_range;
  a_silver_bullet : string
}.

(** [feed] is what the handler reads from the market frame: [None] when the
    frame is empty, otherwise its last close, a [numpy.float64], and the
    range [calculate_m7_sessions] computes from it; [now] is the clock of
    [check_silver_bullet]. *)
Definition perform_analysis (feed : option (float * option dr_range))
    (now : time) : analysis :=
  match feed with
  | None =>
      {| a_price := IntPrice 0;
         a_bias := "DATA_OFFLINE";
         a_mmxm := "N/A";
         a_context_array := "N/A";
         a_reasoning := "Market Data Unavailable";
         a_RDR := None;
         a_silver_bullet := "N/A" |}
  | Some (close, RDR) =>
      let price := Num.round (np close) 2 in
      let sb_status := check_silver_bullet now in
      let m7_bias := m7_bias_of price RDR in
      {| a_price := FloatPrice price;
         a_bias := m7_bias;
         a_mmxm := "Consolidation";
         a_context_array := "Scanning...";
         a_reasoning := String.concat " + " (reasons_of m7_bias sb_status);
         a_RDR := RDR;
         a_silver_bullet := sb_status |}
  end.

(** Microseconds elapsed since midnight. *)
Definition microsecond_of_day (t : time) : Z :=
  ((hour t * 60 + minute t) * 60 + second t) * 1000000 + microsecond t.

(** The fields of a [datetime.time] are within their ranges. *)
Definition valid_time (t : time) : Prop :=
  0 <= hour t < 24 /\ 0 <= minute t < 60 /\ 0 <= second t < 60
  /\ 0 <= microsecond t < 1000000.

End Analysis.

(** ** gateway.py: the session cookie *)

Module Gateway.

(** [s.split(" ")]: the pieces of [s] between single spaces, empty pieces
    included. *)
Fixpoint split_space (s : string) : list string :=
  match s with
  | EmptyString => [EmptyString]
  | String c s' =>
      if Ascii.eqb c Ascii.Space then EmptyString :: split_space s'
      else
        match split_space s' with
        | piece :: pieces => String c piece :: pieces
        | [] => [String c EmptyString]
        end
  end.

(** The cookie value [login_action] sets: [f"Bearer {token}"]. *)
Definition bearer_cookie (token : string) : string :=
  String.append "Bearer " token.

(** What a call produces: a value, or the [IndexError] of a list index out of
    range, which [get_current_user_data] does not catch. *)
Inductive produced (A : Type) : Type :=
| Returns (a : A)
| RaisesIndexError.
Arguments Returns {A} a.
Arguments RaisesIndexError {A}.

Definition has_space (s : string) : bool := Analysis.contains " " s.

Section CurrentUser.

(** [jwt.decode(token, JWT_SECRET, algorithms=[ALGORITHM])] is the library's:
    [None] stands for the [JWTError] it raises. *)
Variable payload : Type.
Variable jwt_decode : string -> option payload.

(** [cookie] is [request.cookies.get("access_token")]. *)
Definition get_current_user_data (cookie : option string)
  : produced (option payload) :=
  match cookie with
  | None => Returns None
  | Some token =>
      if String.eqb token "" then Returns None
      else if String.prefix "Bearer " token then
        match nth_error (split_space token) 1 with
        | Some token' => Returns (jwt_decode token')
        | None => RaisesIndexError
        end
      else Returns (jwt_decode token)
  end.

End CurrentUser.

End Gateway.

(** ** Bounds on what is displayed *)

(** The value [m * 2^e] is at most the integer [B], for an exponent [e <= 0]. *)
Definition at_most (B m e : Z) : Prop := e <= 0 /\ m <= B * 2 ^ (- e).

(** A float that is a zero, or positive, finite and at most [B]. *)
Definition nonneg_at_most (B : Z) (x : spec_float) : Prop :=
  match x with
  | S754_zero _ => True
  | S754_finite s m e => s = false /\ at_most B (Z.pos m) e
  | _ => False
  end.

(** The test of [get_stats] for a win. *)
Definition is_win (t : trade_record) : bool := String.eqb (t_result t) "WIN".

(** ** Signs *)

(** A float that is not above zero: negative, a zero or a NaN. *)
Definition not_positive (x : spec_float) : Prop :=
  match x with
  | S754_finite s _ _ | S754_infinity s => s = true
  | _ => True
  end.

(** A float that is not below zero: positive, a zero or a NaN. *)
Definition not_negative (x : spec_float) : Prop :=
  match x with
  | S754_finite s _ _ | S754_infinity s => s = false
  | _ => True
  end.

(** A number that is not below zero: positive or a zero, not a NaN. *)
Definition nonneg_number (x : spec_float) : Prop :=
  match x with
  | S754_finite s _ _ | S754_infinity s => s = false
  | S754_zero _ => True
  | S754_nan => False
  end.

(** The sign of a rounded value. *)
Definition signed (s : bool) (x : spec_float) : Prop :=
  match x with
  | S754_finite s' _ _ | S754_infinity s' | S754_zero s' => s' = s
  | S754_nan => False
  end.

(** A trade whose P&L is not above zero when its result is "LOSS": Python's
    [pnl > 0] is false. *)
Definition loss_is_no_gain (t : trade_record) : Prop :=
  t_result t = "LOSS"%string -> PrimFloat.ltb 0 (t_pnl t) = false.

(** * Properties *)

(** ** Facts about binary64 rounding *)

(** Arithmetic goals about exponents, once the constants of the format are
    exposed. *)
Ltac unfold_format := unfold fexp, SpecFloat.emin, prec, emax in *.


Lemma digits2_pos_size (p : positive) : digits2_pos p = Pos.size p.
Proof. induction p; simpl; congruence. Qed.

Lemma Zdigits2_log2 (m : Z) : 0 < m -> Zdigits2 m = Z.log2 m + 1.
Proof.
  destruct m as [|p|p]; try lia. intros _. simpl Zdigits2.
  rewrite digits2_pos_size.
  destruct p; simpl; lia.
Qed.

Lemma Zdigits2_pos (m : Z) : 0 < m -> 0 < Zdigits2 m.
Proof. intros H. rewrite Zdigits2_log2 by assumption. pose proof (Z.log2_nonneg m). lia. Qed.

Lemma Zdigits2_le (m n : Z) : 0 < m -> m <= n -> Zdigits2 m <= Zdigits2 n.
Proof.
  intros Hm Hn. rewrite !Zdigits2_log2 by lia.
  pose proof (Z.log2_le_mono m n Hn). lia.
Qed.

Lemma pow2_le_of_digits (m : Z) : 0 < m -> 2 ^ (Zdigits2 m - 1) <= m.
Proof.
  intros H. rewrite Zdigits2_log2 by assumption.
  replace (Z.log2 m + 1 - 1) with (Z.log2 m) by lia.
  apply Z.log2_spec; assumption.
Qed.

Lemma shr_1_m (r : shr_record) : 0 <= shr_m r -> shr_m (shr_1 r) = shr_m r / 2.
Proof.
  destruct r as [m b s]. simpl shr_m at 1 3. intros Hm.
  destruct m as [|[p|p|]|p]; try lia; cbn [shr_1 shr_m].
  - reflexivity.
  - apply Z.div_unique with (r := 1); lia.
  - apply Z.div_unique with (r := 0); lia.
  - reflexivity.
Qed.

Lemma pow2_xI (p : positive) : 2 ^ Z.pos p~1 = 2 * (2 ^ Z.pos p * 2 ^ Z.pos p).
Proof.
  rewrite Pos2Z.inj_xI, <- Z.pow_add_r, <- Z.pow_succ_r by lia.
  f_equal. lia.
Qed.

Lemma pow2_xO (p : positive) : 2 ^ Z.pos p~0 = 2 ^ Z.pos p * 2 ^ Z.pos p.
Proof. rewrite Pos2Z.inj_xO, <- Z.pow_add_r by lia. f_equal. lia. Qed.

Lemma iter_shr_1_m (p : positive) :
  forall r, 0 <= shr_m r -> shr_m (iter_pos shr_1 p r) = shr_m r / 2 ^ Z.pos p.
Proof.
  induction p as [p IH|p IH|]; intros r Hr; cbn [iter_pos].
  - assert (H1 : 0 <= shr_m (shr_1 r)).
    { rewrite shr_1_m by assumption. apply Z.div_pos; lia. }
    assert (H2 : 0 <= shr_m (iter_pos shr_1 p (shr_1 r))).
    { rewrite IH by assumption. apply Z.div_pos; lia. }
    rewrite IH, IH, shr_1_m by assumption.
    rewrite pow2_xI, !Z.div_div by lia. reflexivity.
  - assert (H2 : 0 <= shr_m (iter_pos shr_1 p r)).
    { rewrite IH by assumption. apply Z.div_pos; lia. }
    rewrite IH, IH by assumption.
    rewrite pow2_xO, Z.div_div by lia. reflexivity.
  - rewrite shr_1_m by assumption. reflexivity.
Qed.

Lemma shr_record_of_loc_m (m : Z) (l : location) : shr_m (shr_record_of_loc m l) = m.
Proof. destruct l as [|[| |]]; reflexivity. Qed.

(** The mantissa and exponent left by the truncation step of a rounding. *)
Lemma shr_fexp_spec (m e : Z) (l : location) :
  0 < m ->
  let k := fexp prec emax (Zdigits2 m + e) - e in
  let '(r, e') := shr_fexp prec emax m e l in
  (k <= 0 /\ shr_m r = m /\ e' = e) \/
  (0 < k /\ shr_m r = m / 2 ^ k /\ e' = e + k).
Proof.
  intros Hm k. unfold shr_fexp. fold k.
  destruct k as [|p|p] eqn:Hk; cbn [shr].
  - left. rewrite shr_record_of_loc_m. lia.
  - right. rewrite iter_shr_1_m by (rewrite shr_record_of_loc_m; lia).
    rewrite shr_record_of_loc_m. lia.
  - left. rewrite shr_record_of_loc_m. lia.
Qed.

Lemma round_nearest_even_bounds (m : Z) (l : location) :
  m <= round_nearest_even m l <= m + 1.
Proof.
  destruct l as [|[| |]]; cbn [round_nearest_even]; try lia.
  destruct (Z.even m); lia.
Qed.

(** A number whose leading bit is above the smallest subnormal keeps a
    non-zero mantissa through truncation. *)
Lemma shr_fexp_nonzero (m e : Z) (l : location) :
  0 < m -> emin < Zdigits2 m + e ->
  let '(r, e') := shr_fexp prec emax m e l in
  0 < shr_m r /\ emin < Zdigits2 (shr_m r) + e'.
Proof.
  intros Hm Hd.
  pose proof (shr_fexp_spec m e l Hm) as H. cbv zeta in H.
  destruct (shr_fexp prec emax m e l) as [r e'].
  destruct H as [(Hk & -> & ->)|(Hk & Hr & ->)]; [split; assumption|].
  set (k := fexp prec emax (Zdigits2 m + e) - e) in *.
  assert (Hkd : k <= Zdigits2 m - 1).
  { unfold k in *; unfold_format; lia. }
  assert (Hpos : 0 < shr_m r).
  { rewrite Hr. apply Z.div_str_pos. split; [apply Z.pow_pos_nonneg; lia|].
    etransitivity; [|apply pow2_le_of_digits; assumption].
    apply Z.pow_le_mono_r; lia. }
  split; [assumption|].
  pose proof (Zdigits2_pos _ Hpos).
  unfold k in *; unfold_format; lia.
Qed.

Lemma binary_round_aux_nonzero (s s' : bool) (m e : Z) (l : location) :
  0 < m -> emin < Zdigits2 m + e ->
  binary_round_aux prec emax s m e l <> S754_zero s'.
Proof.
  intros Hm Hd. unfold binary_round_aux.
  pose proof (shr_fexp_nonzero m e l Hm Hd) as H1.
  destruct (shr_fexp prec emax m e l) as [r1 e1]. destruct H1 as [Hr1 Hd1].
  set (m1 := round_nearest_even (shr_m r1) (loc_of_shr_record r1)).
  pose proof (round_nearest_even_bounds (shr_m r1) (loc_of_shr_record r1)) as Hb.
  fold m1 in Hb.
  assert (Hm1 : 0 < m1) by lia.
  assert (Hd2 : emin < Zdigits2 m1 + e1).
  { pose proof (Zdigits2_le (shr_m r1) m1 Hr1 (proj1 Hb)). lia. }
  pose proof (shr_fexp_nonzero m1 e1 loc_Exact Hm1 Hd2) as H2.
  destruct (shr_fexp prec emax m1 e1 loc_Exact) as [r2 e2]. destruct H2 as [Hr2 _].
  destruct (shr_m r2) as [|p|p]; try lia.
  destruct (e2 <=? emax - prec); discriminate.
Qed.

Lemma valid_digits (s : bool) (m : positive) (e : Z) :
  valid_binary (S754_finite s m e) = true ->
  emin <= e /\ e <= emax - prec /\ Zdigits2 (Z.pos m) <= prec /\ 0 < Zdigits2 (Z.pos m).
Proof.
  cbn [valid_binary]. unfold bounded, canonical_mantissa.
  rewrite andb_true_iff, Z.eqb_eq, Z.leb_le.
  change (Z.pos (digits2_pos m)) with (Zdigits2 (Z.pos m)).
  pose proof (Zdigits2_pos (Z.pos m) eq_refl).
  unfold fexp, SpecFloat.emin, prec, emax. lia.
Qed.

Lemma Zdigits2_mul_ge (m n : Z) :
  0 < m -> 0 < n -> Zdigits2 m + Zdigits2 n - 1 <= Zdigits2 (m * n).
Proof.
  intros Hm Hn. rewrite !Zdigits2_log2 by lia.
  pose proof (Z.log2_mul_below m n Hm Hn). lia.
Qed.

Lemma SFeqb_zero_r (x : spec_float) :
  SFeqb x (S754_zero false) = true -> exists s, x = S754_zero s.
Proof.
  destruct x as [s|s| |s m e]; cbn; try discriminate.
  - eauto.
  - destruct s; discriminate.
  - destruct s; discriminate.
Qed.

(** Multiplying a non-zero float by a constant of magnitude at least one
    never yields a zero. *)
Lemma mul_nonzero (x c : float) (mc : positive) (ec : Z) :
  Prim2SF c = S754_finite false mc ec ->
  0 <= Zdigits2 (Z.pos mc) + ec - 1 ->
  PrimFloat.eqb x 0 = false ->
  PrimFloat.eqb (x * c) 0 = false.
Proof.
  intros Hc Hmag Hx.
  rewrite eqb_spec in *. rewrite mul_spec, Hc.
  change (Prim2SF 0) with (S754_zero false) in *.
  pose proof (Prim2SF_valid x) as Hv.
  destruct (Prim2SF x) as [s|s| |s m e]; try reflexivity.
  - cbn in Hx. discriminate.
  - destruct s; reflexivity.
  - apply valid_digits in Hv.
    clear Hx. destruct (SFeqb (SF64mul _ _) _) eqn:E; [|reflexivity].
    apply SFeqb_zero_r in E. destruct E as [s' E].
    exfalso. revert E. unfold SF64mul, SFmul.
    apply binary_round_aux_nonzero; [lia|].
    rewrite Pos2Z.inj_mul.
    pose proof (Zdigits2_mul_ge (Z.pos m) (Z.pos mc) eq_refl eq_refl).
    unfold SpecFloat.emin, prec, emax in *. lia.
Qed.

Lemma tick_val_mini_nonzero (x : float) (instrument : string) :
  PrimFloat.eqb x 0 = false ->
  PrimFloat.eqb (x * tick_val_mini instrument) 0 = false.
Proof.
  unfold tick_val_mini. destruct (String.eqb instrument "NQ");
    eapply mul_nonzero; try reflexivity; vm_compute; discriminate.
Qed.

Lemma tick_val_micro_nonzero (x : float) (instrument : string) :
  PrimFloat.eqb x 0 = false ->
  PrimFloat.eqb (x * tick_val_micro instrument) 0 = false.
Proof.
  unfold tick_val_micro. destruct (String.eqb instrument "NQ");
    eapply mul_nonzero; try reflexivity; vm_compute; discriminate.
Qed.

Lemma point_diff_nonzero (entry_price stop_price : float) :
  PrimFloat.eqb (point_diff_of entry_price stop_price) 0 = false.
Proof.
  unfold point_diff_of.
  destruct (PrimFloat.eqb (abs (entry_price - stop_price)) 0) eqn:E;
    [reflexivity|assumption].
Qed.

(** Two equal finite floats are at distance zero. *)
Lemma sub_self_zero (x y : float) :
  PrimFloat.eqb x y = true -> is_finite x = true ->
  PrimFloat.eqb (abs (x - y)) 0 = true.
Proof.
  unfold is_finite, is_nan, is_infinity.
  rewrite !eqb_spec, !abs_spec, sub_spec.
  change (Prim2SF 0) with (S754_zero false).
  change (Prim2SF infinity) with (S754_infinity false).
  destruct (Prim2SF x) as [s|s| |s m e], (Prim2SF y) as [s'|s'| |s' m' e'].
  16: {
    intros Heq _.
    assert (H : s = s' /\ e = e' /\ m = m').
    { unfold SFeqb, SFcompare in Heq.
      destruct s, s'; try discriminate;
        destruct (Z.compare e e') eqn:Ee; try discriminate;
        apply Z.compare_eq in Ee;
        destruct (Pos.compare_cont Eq m m') eqn:Em; try discriminate;
        apply Pos.compare_eq in Em; auto. }
    destruct H as (<- & <- & <-).
    unfold SF64sub, SFsub. rewrite Z.min_id.
    unfold shl_align. rewrite Z.sub_diag. reflexivity. }
  all: cbn; try discriminate; try (destruct s; discriminate);
    try (destruct s'; discriminate).
  destruct s, s'; reflexivity.
Qed.



(** *** Validity and bounds of a rounded result *)

Lemma Zdigits2_nonneg (m : Z) : 0 <= m -> 0 <= Zdigits2 m.
Proof.
  intros H. destruct (Z.eq_dec m 0) as [->|Hn]; [reflexivity|].
  pose proof (Zdigits2_pos m). lia.
Qed.

Lemma Zdigits2_le0 (m n : Z) : 0 <= m -> m <= n -> Zdigits2 m <= Zdigits2 n.
Proof.
  intros Hm Hn. destruct (Z.eq_dec m 0) as [->|Hz].
  - apply Zdigits2_nonneg. lia.
  - apply Zdigits2_le; lia.
Qed.

Lemma lt_pow2_digits (m : Z) : 0 <= m -> m < 2 ^ Zdigits2 m.
Proof.
  intros H. destruct (Z.eq_dec m 0) as [->|Hn]; [reflexivity|].
  rewrite Zdigits2_log2 by lia. apply Z.log2_spec. lia.
Qed.

Lemma Zdigits2_le_of_lt_pow2 (m k : Z) : 0 <= k -> 0 <= m -> m < 2 ^ k -> Zdigits2 m <= k.
Proof.
  intros Hk Hm H. destruct (Z.eq_dec m 0) as [->|Hn]; [exact Hk|].
  rewrite Zdigits2_log2 by lia.
  assert (Z.log2 m < k) by (apply Z.log2_lt_pow2; lia). lia.
Qed.

Lemma Zdigits2_ge_of_pow2_le (m k : Z) : 0 <= k -> 2 ^ k <= m -> k + 1 <= Zdigits2 m.
Proof.
  intros Hk H.
  assert (0 < m) by (pose proof (Z.pow_pos_nonneg 2 k); lia).
  rewrite Zdigits2_log2 by lia.
  assert (k <= Z.log2 m) by (apply Z.log2_le_pow2; lia). lia.
Qed.

Lemma Zdigits2_div_pow2 (m k : Z) :
  0 <= m -> 0 <= k -> 0 < m / 2 ^ k -> Zdigits2 (m / 2 ^ k) = Zdigits2 m - k.
Proof.
  intros Hm Hk Hq.
  assert (H2k : 0 < 2 ^ k) by (apply Z.pow_pos_nonneg; lia).
  assert (Hm0 : 0 < m).
  { destruct (Z.eq_dec m 0) as [->|]; [rewrite Z.div_0_l in Hq; lia|lia]. }
  rewrite !Zdigits2_log2 by lia.
  rewrite <- Z.shiftr_div_pow2 by lia.
  rewrite Z.log2_shiftr by lia.
  assert (k <= Z.log2 m).
  { apply Z.log2_le_pow2; [lia|].
    destruct (Z.lt_ge_cases m (2 ^ k)) as [Hlt|]; [|assumption].
    rewrite Z.div_small in Hq by lia. lia. }
  lia.
Qed.

Lemma shr_fexp_spec0 (m e : Z) (l : location) :
  0 <= m ->
  let k := fexp prec emax (Zdigits2 m + e) - e in
  let '(r, e') := shr_fexp prec emax m e l in
  (k <= 0 /\ shr_m r = m /\ e' = e) \/
  (0 < k /\ shr_m r = m / 2 ^ k /\ e' = e + k).
Proof.
  intros Hm k. unfold shr_fexp. fold k.
  destruct k as [|p|p] eqn:Hk; cbn [shr].
  - left. rewrite shr_record_of_loc_m. lia.
  - right. rewrite iter_shr_1_m by (rewrite shr_record_of_loc_m; lia).
    rewrite shr_record_of_loc_m. lia.
  - left. rewrite shr_record_of_loc_m. lia.
Qed.

(** Truncation keeps, or establishes, the exponent a mantissa of that size
    must have. *)
Lemma shr_fexp_canonical (m e : Z) (l : location) :
  0 <= m -> e <= fexp prec emax (Zdigits2 m + e) ->
  let '(r, e') := shr_fexp prec emax m e l in
  0 <= shr_m r
  /\ e' <= fexp prec emax (Zdigits2 (shr_m r) + e')
  /\ (0 < shr_m r -> e' = fexp prec emax (Zdigits2 (shr_m r) + e')).
Proof.
  intros Hm He.
  pose proof (shr_fexp_spec0 m e l Hm) as H. cbv zeta in H.
  destruct (shr_fexp prec emax m e l) as [r e'].
  destruct H as [(Hk & -> & ->)|(Hk & Hr & ->)].
  - split; [assumption|]. split; [assumption|]. intros _. lia.
  - set (k := fexp prec emax (Zdigits2 m + e) - e) in *.
    assert (H2k : 0 < 2 ^ k) by (apply Z.pow_pos_nonneg; lia).
    assert (Hr0 : 0 <= shr_m r) by (rewrite Hr; apply Z.div_pos; lia).
    split; [assumption|].
    destruct (Z.eq_dec (shr_m r) 0) as [Hz|Hnz].
    + split; [|lia]. rewrite Hz. cbn [Zdigits2].
      assert (Hlt : m < 2 ^ k).
      { destruct (Z.lt_ge_cases m (2 ^ k)) as [|Hge]; [assumption|].
        assert (1 <= m / 2 ^ k) by (apply Z.div_le_lower_bound; lia). lia. }
      pose proof (Zdigits2_le_of_lt_pow2 m k ltac:(lia) Hm Hlt).
      unfold k in *; unfold_format; lia.
    + assert (Hd : Zdigits2 (shr_m r) = Zdigits2 m - k).
      { rewrite Hr. apply Zdigits2_div_pow2; lia. }
      rewrite Hd. replace (Zdigits2 m - k + (e + k)) with (Zdigits2 m + e) by lia.
      unfold k. split; [lia|]. intros _. lia.
Qed.

Lemma fexp_le (a b : Z) : a <= b -> fexp prec emax a <= fexp prec emax b.
Proof. unfold fexp. lia. Qed.

(** The result of a rounding is a valid binary64 whenever the exponent given
    is not above the one the mantissa calls for. *)
Lemma binary_round_aux_valid (s : bool) (m e : Z) (l : location) :
  0 <= m -> e <= fexp prec emax (Zdigits2 m + e) ->
  valid_binary (binary_round_aux prec emax s m e l) = true.
Proof.
  intros Hm He. unfold binary_round_aux.
  pose proof (shr_fexp_canonical m e l Hm He) as H1.
  destruct (shr_fexp prec emax m e l) as [r1 e1]. destruct H1 as (Hr1 & Hc1 & _).
  set (m1 := round_nearest_even (shr_m r1) (loc_of_shr_record r1)).
  pose proof (round_nearest_even_bounds (shr_m r1) (loc_of_shr_record r1)) as Hb.
  fold m1 in Hb.
  assert (Hm1 : 0 <= m1) by lia.
  assert (Hc1' : e1 <= fexp prec emax (Zdigits2 m1 + e1)).
  { etransitivity; [exact Hc1|]. apply fexp_le.
    pose proof (Zdigits2_le0 (shr_m r1) m1 Hr1 (proj1 Hb)). lia. }
  pose proof (shr_fexp_canonical m1 e1 loc_Exact Hm1 Hc1') as H2.
  destruct (shr_fexp prec emax m1 e1 loc_Exact) as [r2 e2].
  destruct H2 as (Hr2 & _ & Hc2).
  destruct (shr_m r2) as [|p|p] eqn:Ep; try reflexivity.
  destruct (e2 <=? emax - prec) eqn:Ee; [|reflexivity].
  cbn [valid_binary]. unfold bounded, canonical_mantissa.
  rewrite Ee, andb_true_r. apply Z.eqb_eq.
  symmetry. apply Hc2. lia.
Qed.

(** The quotient and exponent a division hands to the rounding. *)
Lemma SFdiv_core_spec (m1 e1 m2 e2 : Z) :
  0 < m1 -> 0 < m2 ->
  let e' := Z.min (fexp prec emax (Zdigits2 m1 + e1 - (Zdigits2 m2 + e2))) (e1 - e2) in
  let s := e1 - e2 - e' in
  exists l,
    SFdiv_core_binary prec emax m1 e1 m2 e2 = (m1 * 2 ^ s / m2, e', l)
    /\ 0 <= s.
Proof.
  intros H1 H2 e' s. unfold SFdiv_core_binary. fold e'. fold s.
  assert (Hs : 0 <= s) by (unfold s, e'; lia).
  assert (Hm : match s with
               | Z.pos _ => Z.shiftl m1 s
               | 0 => m1
               | Z.neg _ => 0
               end = m1 * 2 ^ s).
  { destruct s as [|p|p] eqn:Es; try lia.
    rewrite Z.shiftl_mul_pow2 by lia. reflexivity. }
  rewrite Hm.
  pose proof (Z.div_eucl_eq (m1 * 2 ^ s) m2 ltac:(lia)) as Hd.
  unfold Z.div. destruct (Z.div_eucl (m1 * 2 ^ s) m2) as [q r].
  eexists. split; [reflexivity|assumption].
Qed.

Lemma SFdiv_core_exponent (m1 e1 m2 e2 : Z) :
  0 < m1 -> 0 < m2 ->
  let e' := Z.min (fexp prec emax (Zdigits2 m1 + e1 - (Zdigits2 m2 + e2))) (e1 - e2) in
  let q := m1 * 2 ^ (e1 - e2 - e') / m2 in
  0 <= q /\ e' <= fexp prec emax (Zdigits2 q + e').
Proof.
  intros H1 H2 e' q.
  set (s := e1 - e2 - e') in *.
  set (D := Zdigits2 m1 + e1 - (Zdigits2 m2 + e2)) in *.
  assert (Hs : 0 <= s) by (unfold s, e'; lia).
  assert (HeD : e' <= fexp prec emax D) by apply Z.le_min_l.
  assert (Es : s = e1 - e2 - e') by reflexivity.
  assert (ED : D = Zdigits2 m1 + e1 - (Zdigits2 m2 + e2)) by reflexivity.
  assert (Eq : q = m1 * 2 ^ s / m2) by reflexivity.
  clearbody q s D e'.
  assert (H2s : 0 < 2 ^ s) by (apply Z.pow_pos_nonneg; lia).
  assert (Hq : 0 <= q) by (rewrite Eq; apply Z.div_pos; nia).
  split; [assumption|].
  pose proof (Zdigits2_pos m1 H1) as Hd1.
  pose proof (Zdigits2_pos m2 H2) as Hd2.
  pose proof (pow2_le_of_digits m1 H1) as Hlo1.
  pose proof (lt_pow2_digits m2 ltac:(lia)) as Hhi2.
  destruct (Z.le_gt_cases (Zdigits2 m2 + 1) (Zdigits2 m1 + s)) as [Hbig|Hsmall].
  - (* the quotient has at least d1 + s - d2 digits *)
    assert (Hpow : 2 ^ (Zdigits2 m1 + s - Zdigits2 m2 - 1) <= q).
    { rewrite Eq. apply Z.div_le_lower_bound; [lia|].
      assert (E : 2 ^ (Zdigits2 m1 - 1) * 2 ^ s
                  = 2 ^ (Zdigits2 m1 + s - Zdigits2 m2 - 1) * 2 ^ Zdigits2 m2).
      { rewrite <- !Z.pow_add_r by lia. f_equal. lia. }
      assert (0 < 2 ^ (Zdigits2 m1 + s - Zdigits2 m2 - 1))
        by (apply Z.pow_pos_nonneg; lia).
      nia. }
    pose proof (Zdigits2_ge_of_pow2_le q (Zdigits2 m1 + s - Zdigits2 m2 - 1)
                  ltac:(lia) Hpow) as Hdq.
    etransitivity; [exact HeD|]. apply fexp_le. lia.
  - (* few digits: the exponent is the smallest one *)
    pose proof (Zdigits2_nonneg q Hq) as Hdq.
    assert (He' : D <= e') by lia.
    unfold_format; lia.
Qed.

Lemma SFdiv_finite_valid (s1 s2 : bool) (m1 m2 : positive) (e1 e2 : Z) :
  valid_binary (SFdiv prec emax (S754_finite s1 m1 e1) (S754_finite s2 m2 e2)) = true.
Proof.
  cbn [SFdiv].
  destruct (SFdiv_core_spec (Z.pos m1) e1 (Z.pos m2) e2 eq_refl eq_refl)
    as (l & -> & _).
  destruct (SFdiv_core_exponent (Z.pos m1) e1 (Z.pos m2) e2 eq_refl eq_refl)
    as (Hq & He).
  apply binary_round_aux_valid; assumption.
Qed.

(** *** Rounding to cents never moves a loss of 1000 or more above -1000 *)

Lemma shr_fexp_at_least_1000 (m e : Z) (l : location) :
  0 < m -> e <= fexp prec emax (Zdigits2 m + e) -> at_least_1000 m e ->
  let '(r, e') := shr_fexp prec emax m e l in at_least_1000 (shr_m r) e'.
Proof.
  intros Hm He HP.
  pose proof (shr_fexp_spec0 m e l ltac:(lia)) as H. cbv zeta in H.
  destruct (shr_fexp prec emax m e l) as [r e'].
  destruct H as [(Hk & -> & ->)|(Hk & Hr & ->)]; [assumption|].
  set (k := fexp prec emax (Zdigits2 m + e) - e) in *.
  assert (Ek : e + k = fexp prec emax (Zdigits2 m + e)) by (unfold k; lia).
  clearbody k.
  assert (H2k : 0 < 2 ^ k) by (apply Z.pow_pos_nonneg; lia).
  rewrite Hr. unfold at_least_1000.
  destruct (Z.le_gt_cases (e + k) 3) as [Hle|Hgt].
  - left. split; [assumption|].
    destruct HP as [[_ HP]|[HP _]]; [|lia].
    apply Z.div_le_lower_bound; [assumption|].
    replace (3 - e) with (3 - (e + k) + k) in HP by lia.
    rewrite Z.pow_add_r in HP by lia. lia.
  - right. split; [assumption|].
    assert (Ekd : k = Zdigits2 m - 53 - 0).
    { unfold fexp, SpecFloat.emin, prec, emax in Ek. lia. }
    apply Z.div_le_lower_bound; [assumption|].
    pose proof (pow2_le_of_digits m Hm) as Hlo.
    replace (Zdigits2 m - 1) with (52 + k) in Hlo by lia.
    rewrite Z.pow_add_r in Hlo by lia. lia.
Qed.

Lemma at_least_1000_mono (m n e : Z) :
  m <= n -> at_least_1000 m e -> at_least_1000 n e.
Proof. unfold at_least_1000. lia. Qed.

Lemma at_least_1000_pos (m e : Z) : at_least_1000 m e -> 0 < m.
Proof.
  intros [[He H]|[_ H]].
  - assert (0 < 2 ^ (3 - e)) by (apply Z.pow_pos_nonneg; lia). lia.
  - assert (0 < 2 ^ 52) by reflexivity. lia.
Qed.

(** Rounding a negative number of magnitude at least 1000 gives a float that
    is at most -1000. *)
Lemma binary_round_aux_le_neg1000 (m e : Z) (l : location) :
  e <= fexp prec emax (Zdigits2 m + e) -> at_least_1000 m e ->
  match binary_round_aux prec emax true m e l with
  | S754_infinity s => s = true
  | S754_finite s m' e' => s = true /\ at_least_1000 (Z.pos m') e'
  | _ => False
  end.
Proof.
  intros He HP. pose proof (at_least_1000_pos m e HP) as Hm.
  unfold binary_round_aux.
  pose proof (shr_fexp_at_least_1000 m e l Hm He HP) as H1.
  pose proof (shr_fexp_canonical m e l ltac:(lia) He) as C1.
  destruct (shr_fexp prec emax m e l) as [r1 e1]. destruct C1 as (_ & C1 & _).
  set (m1 := round_nearest_even (shr_m r1) (loc_of_shr_record r1)).
  pose proof (round_nearest_even_bounds (shr_m r1) (loc_of_shr_record r1)) as Hb.
  fold m1 in Hb.
  pose proof (at_least_1000_pos _ _ H1) as Hr1.
  assert (HP1 : at_least_1000 m1 e1) by (eapply at_least_1000_mono; [|exact H1]; lia).
  assert (C1' : e1 <= fexp prec emax (Zdigits2 m1 + e1)).
  { etransitivity; [exact C1|]. apply fexp_le.
    pose proof (Zdigits2_le (shr_m r1) m1 Hr1 (proj1 Hb)). lia. }
  pose proof (shr_fexp_at_least_1000 m1 e1 loc_Exact ltac:(lia) C1' HP1) as H2.
  destruct (shr_fexp prec emax m1 e1 loc_Exact) as [r2 e2].
  pose proof (at_least_1000_pos _ _ H2) as Hr2.
  destruct (shr_m r2) as [|p|p]; try lia.
  destruct (e2 <=? emax - prec); [split; [reflexivity|assumption]|reflexivity].
Qed.

Lemma round_half_even_ge (num den : Z) : num / den <= round_half_even num den.
Proof.
  unfold round_half_even. destruct (2 * (num mod den) ?= den); try lia.
  destruct (Z.even _); lia.
Qed.

Lemma round_cents_le_neg1000 (x : float) :
  float_le_int x (-1000) = true -> float_le_int (Py.round x 2) (-1000) = true.
Proof.
  unfold float_le_int at 1, Py.round.
  destruct (Prim2SF x) as [s|s| |s m e] eqn:Ex; try discriminate.
  - intros ->. unfold float_le_int. rewrite Ex. reflexivity.
  - intros H.
    assert (Hs : s = true).
    { destruct s; [reflexivity|]. cbn [cond_Zopp] in H.
      destruct e as [|p|p]; apply Z.leb_le in H.
      - lia.
      - pose proof (Z.pow_pos_nonneg 2 (Z.pos p)). lia.
      - pose proof (Z.pow_pos_nonneg 2 (Z.pos p)). lia. }
    subst s. cbn [cond_Zopp] in H.
    change (10 ^ Z.of_N 2) with 100.
    set (n := match e with
              | Z.neg k => round_half_even (Z.pos m * 100) (2 ^ Z.pos k)
              | _ => Z.pos m * 2 ^ e * 100
              end).
    assert (Hn : 100000 <= n).
    { unfold n. destruct e as [|p|p]; apply Z.leb_le in H.
      - lia.
      - lia.
      - assert (0 < 2 ^ Z.pos p) by (apply Z.pow_pos_nonneg; lia).
        etransitivity; [|apply round_half_even_ge].
        apply Z.div_le_lower_bound; lia. }
    clearbody n. destruct n as [|n'|n']; try lia.
    change (Z.to_pos 100) with 100%positive.
    unfold float_le_int.
    rewrite Prim2SF_SF2Prim by apply SFdiv_finite_valid.
    cbn [SFdiv].
    destruct (SFdiv_core_spec (Z.pos n') 0 100 0 eq_refl eq_refl) as (l & -> & Hs).
    destruct (SFdiv_core_exponent (Z.pos n') 0 100 0 eq_refl eq_refl) as (Hq & He).
    cbv zeta in *.
    set (e' := Z.min (fexp prec emax (Zdigits2 (Z.pos n') + 0 - (Zdigits2 100 + 0)))
                 (0 - 0)) in *.
    assert (He0 : e' <= 0) by apply Z.le_min_r.
    clearbody e'.
    set (q := Z.pos n' * 2 ^ (0 - 0 - e') / 100) in *.
    assert (HP : at_least_1000 q e').
    { left. split; [lia|]. unfold q. apply Z.div_le_lower_bound; [lia|].
      replace (0 - 0 - e') with (- e') by lia.
      replace (3 - e') with (3 + - e') by lia.
      rewrite Z.pow_add_r by lia.
      assert (0 < 2 ^ (- e')) by (apply Z.pow_pos_nonneg; lia).
      change (2 ^ 3) with 8. nia. }
    pose proof (binary_round_aux_le_neg1000 q e' l He HP) as HR.
    cbn [xorb].
    destruct (binary_round_aux prec emax true q e' l) as [s|s| |s m' e''];
      try contradiction; [exact HR|].
    destruct HR as [-> HR]. cbn [cond_Zopp].
    destruct HR as [[He3 HR]|[He3 HR]].
    + destruct e'' as [|p|p]; apply Z.leb_le.
      * change (2 ^ (3 - 0)) with 8 in HR. lia.
      * assert (Z.pos p <= 3) by lia.
        assert (E : 2 ^ (3 - Z.pos p) * 2 ^ Z.pos p = 8).
        { rewrite <- Z.pow_add_r by lia.
          replace (3 - Z.pos p + Z.pos p) with 3 by lia. reflexivity. }
        assert (0 < 2 ^ Z.pos p) by (apply Z.pow_pos_nonneg; lia).
        nia.
      * replace (3 - Z.neg p) with (3 + Z.pos p) in HR by lia.
        rewrite Z.pow_add_r in HR by lia. change (2 ^ 3) with 8 in HR. lia.
    + destruct e'' as [|p|p]; lia.
Qed.

(** *** Finite floats *)

Lemma is_finite_prim2sf (x : float) :
  is_finite x = match Prim2SF x with
                | S754_zero _ | S754_finite _ _ _ => true
                | _ => false
                end.
Proof.
  unfold is_finite, is_nan, is_infinity. rewrite !eqb_spec, abs_spec.
  change (Prim2SF infinity) with (S754_infinity false).
  destruct (Prim2SF x) as [s|s| |s m e]; try reflexivity.
  - destruct s; reflexivity.
  - unfold SFeqb, SFabs, SFcompare.
    rewrite Z.compare_refl, Pos.compare_cont_refl. destruct s; reflexivity.
Qed.

Lemma int_of_float_returns (x : float) :
  returns (int_of_float x) = is_finite x.
Proof.
  rewrite is_finite_prim2sf. unfold int_of_float.
  destruct (Prim2SF x); reflexivity.
Qed.


(** *** Products and quotients that stay finite *)

Lemma Zdigits2_succ_le (m : Z) : 0 <= m -> Zdigits2 (m + 1) <= Zdigits2 m + 1.
Proof.
  intros Hm. pose proof (lt_pow2_digits m Hm) as H.
  pose proof (Zdigits2_nonneg m Hm) as Hd.
  apply Zdigits2_le_of_lt_pow2; [lia|lia|].
  rewrite Z.pow_add_r, Z.pow_1_r by lia. lia.
Qed.

Lemma shr_fexp_magnitude (m e : Z) (l : location) :
  0 <= m -> e <= emax - prec -> Zdigits2 m + e <= emax ->
  let '(r, e') := shr_fexp prec emax m e l in
  0 <= shr_m r /\ e' <= emax - prec
  /\ Zdigits2 (shr_m r) + e' <= Z.max (Zdigits2 m + e) emin.
Proof.
  intros Hm He Hd.
  pose proof (shr_fexp_spec0 m e l Hm) as H. cbv zeta in H.
  destruct (shr_fexp prec emax m e l) as [r e'].
  destruct H as [(Hk & -> & ->)|(Hk & Hr & ->)]; [lia|].
  set (k := fexp prec emax (Zdigits2 m + e) - e) in *.
  assert (Ek : e + k = fexp prec emax (Zdigits2 m + e)) by (unfold k; lia).
  clearbody k.
  assert (H2k : 0 < 2 ^ k) by (apply Z.pow_pos_nonneg; lia).
  assert (Hr0 : 0 <= shr_m r) by (rewrite Hr; apply Z.div_pos; lia).
  pose proof (Zdigits2_nonneg m Hm) as Hdm.
  split; [assumption|]. split.
  - unfold_format; lia.
  - destruct (Z.eq_dec (shr_m r) 0) as [Hz|Hnz].
    + rewrite Hz. cbn [Zdigits2].
      assert (Hlt : m < 2 ^ k).
      { destruct (Z.lt_ge_cases m (2 ^ k)) as [|Hge]; [assumption|].
        assert (1 <= m / 2 ^ k) by (apply Z.div_le_lower_bound; lia). lia. }
      pose proof (Zdigits2_le_of_lt_pow2 m k ltac:(lia) Hm Hlt).
      unfold_format; lia.
    + rewrite Hr, Zdigits2_div_pow2 by lia. lia.
Qed.

(** A rounding whose input lies below [2^(emax-1)] does not overflow. *)
Lemma binary_round_aux_finite (s : bool) (m e : Z) (l : location) :
  0 <= m -> e <= emax - prec -> Zdigits2 m + e <= emax - 1 ->
  match binary_round_aux prec emax s m e l with
  | S754_zero _ | S754_finite _ _ _ => True
  | _ => False
  end.
Proof.
  intros Hm He Hd. unfold binary_round_aux.
  pose proof (shr_fexp_magnitude m e l Hm He ltac:(lia)) as H1.
  destruct (shr_fexp prec emax m e l) as [r1 e1]. destruct H1 as (Hr1 & He1 & Hd1).
  set (m1 := round_nearest_even (shr_m r1) (loc_of_shr_record r1)).
  pose proof (round_nearest_even_bounds (shr_m r1) (loc_of_shr_record r1)) as Hb.
  fold m1 in Hb.
  assert (Hdm1 : Zdigits2 m1 <= Zdigits2 (shr_m r1) + 1).
  { etransitivity; [|apply Zdigits2_succ_le; assumption].
    apply Zdigits2_le0; lia. }
  assert (Hd1' : Zdigits2 m1 + e1 <= emax).
  { unfold SpecFloat.emin, prec, emax in *. lia. }
  pose proof (shr_fexp_magnitude m1 e1 loc_Exact ltac:(lia) He1 Hd1') as H2.
  destruct (shr_fexp prec emax m1 e1 loc_Exact) as [r2 e2].
  destruct H2 as (Hr2 & He2 & _).
  destruct (shr_m r2) as [|p|p]; try exact I; [|lia].
  apply Z.leb_le in He2. rewrite He2. exact I.
Qed.

Lemma Zdigits2_mul_le (m n : Z) :
  0 < m -> 0 < n -> Zdigits2 (m * n) <= Zdigits2 m + Zdigits2 n.
Proof.
  intros Hm Hn. rewrite !Zdigits2_log2 by lia.
  pose proof (Z.log2_mul_above m n ltac:(lia) ltac:(lia)). lia.
Qed.

(** Multiplying a finite float by a constant below one half gives a finite
    float. *)
Lemma mul_small_finite (x c : float) (mc : positive) (ec : Z) :
  Prim2SF c = S754_finite false mc ec ->
  ec <= 0 -> Zdigits2 (Z.pos mc) + ec <= -1 ->
  is_finite x = true -> is_finite (x * c) = true.
Proof.
  intros Hc Hec Hmag. rewrite !is_finite_prim2sf, mul_spec, Hc.
  pose proof (Prim2SF_valid x) as Hv.
  destruct (Prim2SF x) as [s|s| |s m e]; try discriminate; [reflexivity|].
  intros _. apply valid_digits in Hv.
  unfold SF64mul, SFmul.
  pose proof (Zdigits2_mul_le (Z.pos m) (Z.pos mc) eq_refl eq_refl) as Hd.
  pose proof (binary_round_aux_finite (xorb s false) (Z.pos (m * mc)) (e + ec)
                loc_Exact ltac:(lia)) as H.
  rewrite Pos2Z.inj_mul in H.
  unfold SpecFloat.emin, prec, emax in *.
  specialize (H ltac:(lia) ltac:(lia)).
  rewrite Pos2Z.inj_mul.
  destruct (binary_round_aux _ _ _ _ _ _); try contradiction; reflexivity.
Qed.

(** Dividing a finite float by a constant of magnitude at least two gives a
    finite float. *)
Lemma div_large_finite (x c : float) (mc : positive) (ec : Z) :
  Prim2SF c = S754_finite false mc ec ->
  2 <= Zdigits2 (Z.pos mc) + ec ->
  is_finite x = true -> is_finite (x / c) = true.
Proof.
  intros Hc Hmag. rewrite !is_finite_prim2sf, div_spec, Hc.
  pose proof (Prim2SF_valid x) as Hv.
  destruct (Prim2SF x) as [s|s| |s m e]; try discriminate; [reflexivity|].
  intros _. apply valid_digits in Hv.
  unfold SF64div. cbn [SFdiv].
  destruct (SFdiv_core_spec (Z.pos m) e (Z.pos mc) ec eq_refl eq_refl)
    as (l & -> & Hs).
  cbv zeta in Hs.
  set (e' := Z.min (fexp prec emax (Zdigits2 (Z.pos m) + e - (Zdigits2 (Z.pos mc) + ec)))
               (e - ec)) in *.
  assert (He' : e' <= fexp prec emax (Zdigits2 (Z.pos m) + e - (Zdigits2 (Z.pos mc) + ec)))
    by apply Z.le_min_l.
  clearbody e'.
  set (sh := e - ec - e') in *.
  set (q := Z.pos m * 2 ^ sh / Z.pos mc).
  assert (H2s : 0 < 2 ^ sh) by (apply Z.pow_pos_nonneg; lia).
  assert (Hq : 0 <= q) by (apply Z.div_pos; lia).
  pose proof (Zdigits2_pos (Z.pos mc) eq_refl) as Hdc.
  assert (Hdq : Zdigits2 q <= Z.max 0 (Zdigits2 (Z.pos m) + sh - Zdigits2 (Z.pos mc) + 1)).
  { pose proof (lt_pow2_digits (Z.pos m) ltac:(lia)) as Hhi.
    pose proof (pow2_le_of_digits (Z.pos mc) eq_refl) as Hlo.
    assert (Hqm : q * Z.pos mc <= Z.pos m * 2 ^ sh).
    { unfold q. rewrite Z.mul_comm. apply Z.mul_div_le. lia. }
    destruct (Z.le_gt_cases 0 (Zdigits2 (Z.pos m) + sh - Zdigits2 (Z.pos mc) + 1))
      as [Hnn|Hneg].
    - rewrite Z.max_r by lia.
      apply Zdigits2_le_of_lt_pow2; [lia|assumption|].
      assert (E : 2 ^ (Zdigits2 (Z.pos m) + sh - Zdigits2 (Z.pos mc) + 1)
                  * 2 ^ (Zdigits2 (Z.pos mc) - 1)
                  = 2 ^ Zdigits2 (Z.pos m) * 2 ^ sh).
      { rewrite <- !Z.pow_add_r by lia. f_equal. lia. }
      assert (0 < 2 ^ (Zdigits2 (Z.pos mc) - 1)) by (apply Z.pow_pos_nonneg; lia).
      nia.
    - rewrite Z.max_l by lia.
      assert (Hq0 : q = 0); [|rewrite Hq0; cbn [Zdigits2]; lia].
      assert (E : 2 ^ (Zdigits2 (Z.pos m) + sh) * 2 ^ (- (Zdigits2 (Z.pos m) + sh - Zdigits2 (Z.pos mc) + 1))
                  = 2 ^ (Zdigits2 (Z.pos mc) - 1)).
      { rewrite <- !Z.pow_add_r by lia. f_equal. lia. }
      assert (1 < 2 ^ (- (Zdigits2 (Z.pos m) + sh - Zdigits2 (Z.pos mc) + 1))).
      { apply Z.pow_gt_1; lia. }
      assert (E2 : 2 ^ (Zdigits2 (Z.pos m) + sh) = 2 ^ Zdigits2 (Z.pos m) * 2 ^ sh).
      { rewrite <- Z.pow_add_r by lia. reflexivity. }
      nia. }
  pose proof (Zdigits2_nonneg q Hq) as Hdq0.
  pose proof (binary_round_aux_finite (xorb s false) q e' l Hq) as H.
  unfold fexp, SpecFloat.emin, prec, emax in *.
  specialize (H ltac:(lia) ltac:(lia)).
  fold q.
  destruct (binary_round_aux _ _ _ _ _ _); try contradiction; reflexivity.
Qed.

(** *** Rounding to cents keeps a finite float finite *)

Lemma shr_1_double (m : Z) :
  0 <= m ->
  shr_1 {| shr_m := 2 * m; shr_r := false; shr_s := false |}
  = {| shr_m := m; shr_r := false; shr_s := false |}.
Proof. destruct m as [|p|p]; try lia; reflexivity. Qed.

Lemma iter_shr_1_exact (p : positive) :
  forall m, 0 <= m ->
    iter_pos shr_1 p {| shr_m := m * 2 ^ Z.pos p; shr_r := false; shr_s := false |}
    = {| shr_m := m; shr_r := false; shr_s := false |}.
Proof.
  induction p as [p IH|p IH|]; intros m Hm; cbn [iter_pos].
  - rewrite pow2_xI.
    replace (m * (2 * (2 ^ Z.pos p * 2 ^ Z.pos p)))
      with (2 * (m * 2 ^ Z.pos p * 2 ^ Z.pos p)) by ring.
    assert (0 < 2 ^ Z.pos p) by (apply Z.pow_pos_nonneg; lia).
    rewrite shr_1_double by nia. rewrite IH by nia. apply IH, Hm.
  - rewrite pow2_xO, Z.mul_assoc.
    assert (0 < 2 ^ Z.pos p) by (apply Z.pow_pos_nonneg; lia).
    rewrite IH by nia. apply IH, Hm.
  - rewrite Z.pow_1_r, Z.mul_comm. apply shr_1_double, Hm.
Qed.

Lemma Zdigits2_mul_pow2 (m j : Z) :
  0 < m -> 0 <= j -> Zdigits2 (m * 2 ^ j) = Zdigits2 m + j.
Proof.
  intros Hm Hj.
  assert (0 < 2 ^ j) by (apply Z.pow_pos_nonneg; lia).
  rewrite !Zdigits2_log2 by nia. rewrite Z.log2_mul_pow2 by lia. lia.
Qed.

(** A float scaled up by a power of two rounds back to itself. *)
Lemma binary_round_aux_exact (s : bool) (m : positive) (e e0 : Z) :
  valid_binary (S754_finite s m e) = true -> e0 <= e ->
  binary_round_aux prec emax s (Z.pos m * 2 ^ (e - e0)) e0 loc_Exact
  = S754_finite s m e.
Proof.
  intros Hv He0.
  assert (Hcan : fexp prec emax (Zdigits2 (Z.pos m) + e) = e
                 /\ (e <=? emax - prec) = true).
  { cbn [valid_binary] in Hv. unfold bounded, canonical_mantissa in Hv.
    apply andb_true_iff in Hv. destruct Hv as [Hc Hb].
    apply Z.eqb_eq in Hc. split; assumption. }
  destruct Hcan as [Hcan Hb].
  assert (Hstage2 : shr_fexp prec emax (Z.pos m) e loc_Exact
                    = ({| shr_m := Z.pos m; shr_r := false; shr_s := false |}, e)).
  { unfold shr_fexp. rewrite Hcan, Z.sub_diag. reflexivity. }
  assert (Hstage1 : shr_fexp prec emax (Z.pos m * 2 ^ (e - e0)) e0 loc_Exact
                    = ({| shr_m := Z.pos m; shr_r := false; shr_s := false |}, e)).
  { unfold shr_fexp. rewrite Zdigits2_mul_pow2 by lia.
    replace (Zdigits2 (Z.pos m) + (e - e0) + e0) with (Zdigits2 (Z.pos m) + e) by lia.
    rewrite Hcan. cbn [shr_record_of_loc].
    destruct (e - e0) as [|p|p] eqn:Ek; try lia; cbn [shr].
    - rewrite Z.pow_0_r, Z.mul_1_r. f_equal. lia.
    - rewrite iter_shr_1_exact by lia. f_equal. lia. }
  unfold binary_round_aux. rewrite Hstage1.
  cbn [shr_m loc_of_shr_record round_nearest_even]. rewrite Hstage2.
  cbn [shr_m]. rewrite Hb. reflexivity.
Qed.

Lemma SFdiv_core_exact (m1 e1 m2 e2 : Z) :
  0 < m1 -> 0 < m2 ->
  let e' := Z.min (fexp prec emax (Zdigits2 m1 + e1 - (Zdigits2 m2 + e2))) (e1 - e2) in
  (m1 * 2 ^ (e1 - e2 - e')) mod m2 = 0 ->
  SFdiv_core_binary prec emax m1 e1 m2 e2
  = (m1 * 2 ^ (e1 - e2 - e') / m2, e', loc_Exact).
Proof.
  intros H1 H2 e' Hmod. unfold SFdiv_core_binary. fold e'.
  set (s := e1 - e2 - e') in *.
  assert (Hs : 0 <= s) by (unfold s, e'; lia).
  assert (Hm : match s with
               | Z.pos _ => Z.shiftl m1 s
               | 0 => m1
               | Z.neg _ => 0
               end = m1 * 2 ^ s).
  { destruct s as [|p|p] eqn:Es; try lia.
    rewrite Z.shiftl_mul_pow2 by lia. reflexivity. }
  rewrite Hm. revert Hmod. unfold Z.modulo, Z.div.
  destruct (Z.div_eucl (m1 * 2 ^ s) m2) as [q r]. intros ->.
  unfold new_location, new_location_even, new_location_odd.
  destruct (Z.even m2); reflexivity.
Qed.

(** A float that is an integer is its own rounding to cents. *)
Lemma round_cents_integer (x : float) (s : bool) (m : positive) (e : Z) :
  Prim2SF x = S754_finite s m e -> 0 <= e -> Py.round x 2 = x.
Proof.
  intros Ex He. unfold Py.round. rewrite Ex.
  change (10 ^ Z.of_N 2) with 100. change (Z.to_pos 100) with 100%positive.
  pose proof (Prim2SF_valid x) as Hv. rewrite Ex in Hv.
  assert (H2e : 0 < 2 ^ e) by (apply Z.pow_pos_nonneg; lia).
  assert (En : match e with
               | Z.neg k => round_half_even (Z.pos m * 100) (2 ^ Z.pos k)
               | _ => Z.pos m * 2 ^ e * 100
               end = Z.pos m * 2 ^ e * 100) by (destruct e; try lia; reflexivity).
  rewrite En.
  destruct (Z.pos m * 2 ^ e * 100) as [|n|n] eqn:E; try nia.
  cbn [SFdiv].
  set (e' := Z.min (fexp prec emax (Zdigits2 (Z.pos n) + 0 - (Zdigits2 100 + 0))) (0 - 0)).
  assert (He' : e' <= 0) by apply Z.le_min_r.
  assert (Hq : Z.pos n * 2 ^ (0 - 0 - e') = (Z.pos m * 2 ^ (e - e')) * 100).
  { rewrite <- E. replace (e - e') with (e + (0 - 0 - e')) by lia.
    rewrite Z.pow_add_r by lia. ring. }
  rewrite (SFdiv_core_exact (Z.pos n) 0 100 0 eq_refl eq_refl);
    fold e'; [|rewrite Hq; apply Z.mod_mul; lia].
  rewrite Hq, Z.div_mul by lia.
  rewrite xorb_false_r, binary_round_aux_exact by (assumption || lia).
  rewrite <- Ex. apply SF2Prim_Prim2SF.
Qed.

Lemma round_cents_finite (x : float) :
  is_finite x = true -> is_finite (Py.round x 2) = true.
Proof.
  intros Hx. pose proof Hx as Hx'. rewrite is_finite_prim2sf in Hx'.
  destruct (Prim2SF x) as [s|s| |s m e] eqn:Ex; try discriminate.
  - unfold Py.round. rewrite Ex. exact Hx.
  - destruct (Z.le_gt_cases 0 e) as [He|He].
    + rewrite (round_cents_integer x s m e Ex He). exact Hx.
    + unfold Py.round. rewrite Ex.
      change (10 ^ Z.of_N 2) with 100. change (Z.to_pos 100) with 100%positive.
      pose proof (Prim2SF_valid x) as Hv. rewrite Ex in Hv.
      apply valid_digits in Hv.
      destruct e as [|k|k]; try lia.
      set (n := round_half_even (Z.pos m * 100) (2 ^ Z.pos k)).
      assert (Hn : n <= Z.pos m * 100 + 1).
      { unfold n, round_half_even.
        assert (0 < 2 ^ Z.pos k) by (apply Z.pow_pos_nonneg; lia).
        assert (Z.pos m * 100 / 2 ^ Z.pos k <= Z.pos m * 100).
        { apply Z.div_le_upper_bound; nia. }
        destruct (_ ?= _); [destruct (Z.even _)| |]; lia. }
      clearbody n.
      destruct n as [|n'|n']; [destruct s; reflexivity| |destruct s; reflexivity].
      rewrite is_finite_prim2sf, Prim2SF_SF2Prim by apply SFdiv_finite_valid.
      cbn [SFdiv].
      destruct (SFdiv_core_spec (Z.pos n') 0 100 0 eq_refl eq_refl) as (l & -> & Hs).
      cbv zeta in Hs.
      set (e' := Z.min (fexp prec emax (Zdigits2 (Z.pos n') + 0 - (Zdigits2 100 + 0)))
                   (0 - 0)) in *.
      assert (He0 : e' <= 0) by apply Z.le_min_r.
      assert (Hlo : - 1074 <= e').
      { unfold e', fexp, SpecFloat.emin, prec, emax. lia. }
      clearbody e'.
      set (q := Z.pos n' * 2 ^ (0 - 0 - e') / 100).
      assert (H2s : 0 < 2 ^ (0 - 0 - e')) by (apply Z.pow_pos_nonneg; lia).
      assert (Hq0 : 0 <= q) by (apply Z.div_pos; lia).
      assert (Hm53 : Z.pos m < 2 ^ 53).
      { pose proof (lt_pow2_digits (Z.pos m) ltac:(lia)) as Hlt.
        eapply Z.lt_le_trans; [exact Hlt|].
        apply Z.pow_le_mono_r; unfold prec in *; lia. }
      assert (Hq : q < 2 ^ (54 + (0 - 0 - e'))).
      { unfold q. apply Z.div_lt_upper_bound; [lia|].
        rewrite Z.pow_add_r by lia.
        assert (2 ^ 53 = 9007199254740992) by reflexivity.
        assert (2 ^ 54 = 18014398509481984) by reflexivity. nia. }
      pose proof (Zdigits2_le_of_lt_pow2 q (54 + (0 - 0 - e')) ltac:(lia) Hq0 Hq)
        as Hdq.
      pose proof (binary_round_aux_finite (xorb s false) q e' l Hq0) as H.
      unfold SpecFloat.emin, prec, emax in *.
      specialize (H ltac:(lia) ltac:(lia)).
      destruct (binary_round_aux _ _ _ _ _ _); try contradiction; reflexivity.
Qed.

(** *** The contract count always converts to a float *)

Lemma py_max_eq (a b : Z) : Py.max a b = Z.max a b.
Proof. unfold Py.max. destruct (Z.ltb_spec a b); lia. Qed.

Lemma iter_xO_pow2 (p j : positive) :
  Z.pos (Pos.iter xO p j) = Z.pos p * 2 ^ Z.pos j.
Proof.
  change (Pos.iter xO p j) with (shift_pos j p).
  rewrite shift_pos_correct, Z.mul_comm. reflexivity.
Qed.

Lemma binary_round_small (n : positive) :
  Zdigits2 (Z.pos n) <= prec ->
  match binary_round prec emax false n 0 with
  | S754_zero _ | S754_finite _ _ _ => True
  | _ => False
  end.
Proof.
  intros Hd. unfold binary_round, shl_align.
  pose proof (Zdigits2_pos (Z.pos n) eq_refl) as Hp.
  change (Z.pos (digits2_pos n)) with (Zdigits2 (Z.pos n)).
  rewrite Z.add_0_r, Z.sub_0_r.
  destruct (fexp prec emax (Zdigits2 (Z.pos n))) as [|j|j] eqn:Ef.
  - apply binary_round_aux_finite; unfold prec, emax in *; lia.
  - unfold_format; lia.
  - apply binary_round_aux_finite; [lia| |].
    + unfold_format; lia.
    + rewrite iter_xO_pow2, Zdigits2_mul_pow2 by lia.
      unfold_format; lia.
Qed.

Lemma float_of_int_truncated (x : float) (n : Z) :
  int_of_float x = Ok n -> returns (float_of_int (Py.max 1 n)) = true.
Proof.
  unfold int_of_float. rewrite py_max_eq.
  pose proof (Prim2SF_valid x) as Hv.
  destruct (Prim2SF x) as [s|s| |s m e]; try discriminate.
  - intros H. injection H as <-. reflexivity.
  - intros H. injection H as <-.
    destruct (Z.le_gt_cases (cond_Zopp s (trunc_mantissa m e)) 1) as [Hle|Hgt].
    + rewrite Z.max_l by lia. reflexivity.
    + rewrite Z.max_r by lia.
      assert (Hs : s = false).
      { destruct s; [|reflexivity]. cbn [cond_Zopp] in Hgt.
        assert (0 <= trunc_mantissa m e); [|lia].
        unfold trunc_mantissa. destruct e as [|p|p]; try lia.
        apply Z.div_pos; [lia|]. apply Z.pow_pos_nonneg; lia. }
      subst s. cbn [cond_Zopp] in *.
      pose proof (valid_digits _ _ _ Hv) as Hd.
      unfold float_of_int.
      destruct (trunc_mantissa m e) as [|t|t] eqn:Et; try lia.
      cbn [binary_normalize].
      destruct e as [|p|p]; cbn [trunc_mantissa] in Et.
      * assert (E : t = m) by lia. subst t.
        pose proof (binary_round_small m ltac:(lia)) as H.
        destruct (binary_round prec emax false m 0); try contradiction; reflexivity.
      * unfold binary_round, shl_align.
        change (Z.pos (digits2_pos t)) with (Zdigits2 (Z.pos t)).
        rewrite <- Et, Zdigits2_mul_pow2, Z.add_0_r, Z.sub_0_r by lia.
        assert (Hcan : fexp prec emax (Zdigits2 (Z.pos m) + Z.pos p) = Z.pos p).
        { cbn [valid_binary] in Hv. unfold bounded, canonical_mantissa in Hv.
          apply andb_true_iff in Hv. destruct Hv as [Hc _].
          apply Z.eqb_eq in Hc. exact Hc. }
        rewrite Hcan, <- Et.
        replace (2 ^ Z.pos p) with (2 ^ (Z.pos p - 0)) by (f_equal; lia).
        rewrite binary_round_aux_exact by (assumption || lia). reflexivity.
      * assert (Hlt : Z.pos t <= Z.pos m).
        { rewrite <- Et. apply Z.div_le_upper_bound.
          - apply Z.pow_pos_nonneg; lia.
          - pose proof (Z.pow_pos_nonneg 2 (Z.pos p)). nia. }
        pose proof (Zdigits2_le (Z.pos t) (Z.pos m) eq_refl Hlt) as Hdt.
        pose proof (binary_round_small t ltac:(lia)) as H.
        destruct (binary_round prec emax false t 0); try contradiction; reflexivity.
Qed.

(** *** Rounding never moves a value above an integer it does not exceed *)

Lemma shr_fexp_exact_rne (m e : Z) :
  0 <= m ->
  (fexp prec emax (Zdigits2 m + e) - e <= 0
   \/ m mod 2 ^ (fexp prec emax (Zdigits2 m + e) - e) = 0) ->
  let '(r, e') := shr_fexp prec emax m e loc_Exact in
  round_nearest_even (shr_m r) (loc_of_shr_record r) = shr_m r.
Proof.
  intros Hm H. unfold shr_fexp.
  destruct (fexp prec emax (Zdigits2 m + e) - e) as [|p|p]; cbn [shr].
  - reflexivity.
  - destruct H as [H|H]; [lia|].
    apply Z.div_exact in H; [|lia].
    cbn [shr_record_of_loc]. rewrite H, Z.mul_comm.
    rewrite iter_shr_1_exact
      by (apply Z.div_pos; [lia|apply Z.pow_pos_nonneg; lia]).
    reflexivity.
  - reflexivity.
Qed.

Lemma at_most_digits (B m e : Z) :
  0 < B < 2 ^ prec -> 0 <= m -> at_most B m e -> Zdigits2 m + e <= prec.
Proof.
  intros HB Hm [He H].
  assert (Zdigits2 m <= prec - e); [|lia].
  apply Zdigits2_le_of_lt_pow2; [unfold prec; lia|lia|].
  replace (prec - e) with (prec + - e) by lia.
  rewrite Z.pow_add_r by (unfold prec; lia).
  assert (0 < 2 ^ (- e)) by (apply Z.pow_pos_nonneg; lia). nia.
Qed.

Lemma at_most_shift (B m e k : Z) :
  0 < k -> e + k <= 0 -> m < B * 2 ^ (- e) ->
  m / 2 ^ k + 1 <= B * 2 ^ (- (e + k)).
Proof.
  intros Hk He H.
  assert (H2k : 0 < 2 ^ k) by (apply Z.pow_pos_nonneg; lia).
  replace (- e) with (- (e + k) + k) in H by lia.
  rewrite Z.pow_add_r, Z.mul_assoc in H by lia.
  assert (m / 2 ^ k < B * 2 ^ (- (e + k))); [|lia].
  apply Z.div_lt_upper_bound; lia.
Qed.

(** After the first shift and the rounding to nearest, the bound still
    holds: exactly when the input is exact, and by the gap to the bound
    otherwise. *)
Lemma shr_fexp_at_most (B m e : Z) (l : location) :
  0 < B < 2 ^ prec -> 0 <= m ->
  (l = loc_Exact /\ at_most B m e) \/ at_most B (m + 1) e ->
  let '(r, e') := shr_fexp prec emax m e l in
  at_most B (round_nearest_even (shr_m r) (loc_of_shr_record r)) e'.
Proof.
  intros HB Hm H.
  assert (Hw : at_most B m e).
  { destruct H as [[_ H]|[He H]]; [assumption|split; lia]. }
  pose proof (at_most_digits B m e HB Hm Hw) as Hd.
  pose proof (shr_fexp_spec0 m e l Hm) as S. cbv zeta in S.
  pose proof (shr_fexp_exact_rne m e Hm) as X.
  set (k := fexp prec emax (Zdigits2 m + e) - e) in *.
  assert (Ek : 0 < k -> e + k <= 0).
  { unfold k. unfold_format. lia. }
  clearbody k.
  destruct H as [[-> H]|H].
  - destruct (shr_fexp prec emax m e loc_Exact) as [r e'].
    destruct S as [(Hk & Hr & ->)|(Hk & Hr & ->)].
    + rewrite X by (left; assumption). rewrite Hr. assumption.
    + specialize (Ek Hk). destruct Hw as [He Hw].
      assert (H2k : 0 < 2 ^ k) by (apply Z.pow_pos_nonneg; lia).
      destruct (Z.eq_dec (m mod 2 ^ k) 0) as [E0|E0].
      * rewrite X by (right; assumption). rewrite Hr.
        split; [assumption|].
        replace (- e) with (- (e + k) + k) in Hw by lia.
        rewrite Z.pow_add_r, Z.mul_assoc in Hw by lia.
        apply Z.div_le_upper_bound; lia.
      * split; [assumption|].
        pose proof (round_nearest_even_bounds (shr_m r) (loc_of_shr_record r)) as Hb.
        etransitivity; [apply Hb|]. rewrite Hr.
        apply at_most_shift; try assumption.
        assert (m <> B * 2 ^ (- e)); [|lia].
        intros ->. apply E0.
        replace (- e) with (- (e + k) + k) by lia.
        rewrite Z.pow_add_r, Z.mul_assoc by lia. apply Z.mod_mul. lia.
  - destruct (shr_fexp prec emax m e l) as [r e'].
    pose proof (round_nearest_even_bounds (shr_m r) (loc_of_shr_record r)) as Hb.
    destruct S as [(Hk & Hr & ->)|(Hk & Hr & ->)].
    + destruct H as [He H]. split; [assumption|].
      etransitivity; [apply Hb|]. rewrite Hr. exact H.
    + specialize (Ek Hk). destruct H as [He H]. split; [assumption|].
      etransitivity; [apply Hb|]. rewrite Hr. apply at_most_shift; lia.
Qed.

(** Rounding a non-negative value that is at most [B < 2^53] gives a zero or
    a positive finite float that is at most [B]. *)
Lemma binary_round_aux_at_most (B m e : Z) (l : location) :
  0 < B < 2 ^ prec -> 0 <= m ->
  (l = loc_Exact /\ at_most B m e) \/ at_most B (m + 1) e ->
  nonneg_at_most B (binary_round_aux prec emax false m e l).
Proof.
  intros HB Hm H. unfold nonneg_at_most, binary_round_aux.
  pose proof (shr_fexp_at_most B m e l HB Hm H) as H1.
  pose proof (shr_fexp_spec0 m e l Hm) as S1. cbv zeta in S1.
  destruct (shr_fexp prec emax m e l) as [r1 e1].

  set (m1 := round_nearest_even (shr_m r1) (loc_of_shr_record r1)) in *.
  assert (Hm1 : 0 <= m1).
  { pose proof (round_nearest_even_bounds (shr_m r1) (loc_of_shr_record r1)) as Hb.
    fold m1 in Hb.
    assert (0 <= shr_m r1); [|lia].
    destruct S1 as [(_ & -> & _)|(Hk & -> & _)]; [assumption|].
    apply Z.div_pos; [assumption|apply Z.pow_pos_nonneg; lia]. }
  clearbody m1.
  pose proof (at_most_digits B m1 e1 HB Hm1 H1) as Hd.
  pose proof (shr_fexp_spec0 m1 e1 loc_Exact Hm1) as S2. cbv zeta in S2.
  set (k := fexp prec emax (Zdigits2 m1 + e1) - e1) in *.
  assert (Ek : 0 < k -> e1 + k <= 0).
  { unfold k. unfold_format. lia. }
  clearbody k.
  destruct (shr_fexp prec emax m1 e1 loc_Exact) as [r2 e2].
  assert (H2 : at_most B (shr_m r2) e2 /\ 0 <= shr_m r2).
  { destruct S2 as [(Hk & -> & ->)|(Hk & -> & ->)]; [split; assumption|].
    specialize (Ek Hk). destruct H1 as [He1 H1].
    assert (H2k : 0 < 2 ^ k) by (apply Z.pow_pos_nonneg; lia).
    split; [split; [assumption|]|apply Z.div_pos; lia].
    replace (- e1) with (- (e1 + k) + k) in H1 by lia.
    rewrite Z.pow_add_r, Z.mul_assoc in H1 by lia.
    apply Z.div_le_upper_bound; lia. }
  destruct H2 as [H2 Hr2].
  destruct (shr_m r2) as [|p|p]; [exact I| |lia].
  assert (Hb : (e2 <=? emax - prec) = true).
  { apply Z.leb_le. destruct H2. unfold_format. lia. }
  rewrite Hb. split; [reflexivity|assumption].
Qed.

Lemma round_half_even_le (num den B : Z) :
  0 < den -> num <= B * den -> round_half_even num den <= B.
Proof.
  intros Hd H. unfold round_half_even.
  pose proof (Z.div_mod num den ltac:(lia)) as E.
  pose proof (Z.mod_pos_bound num den Hd) as Hr.
  assert (Hq : num / den <= B) by (apply Z.div_le_upper_bound; lia).
  destruct (Z.compare_spec (2 * (num mod den)) den); [| lia |];
    try (destruct (Z.even _); [lia|]);
    (assert (num / den <> B); [intros Hq'; rewrite Hq' in E; nia|lia]).
Qed.

Lemma round_half_even_nonneg (num den : Z) :
  0 < den -> 0 <= num -> 0 <= round_half_even num den.
Proof.
  intros Hd Hn. pose proof (round_half_even_ge num den).
  pose proof (Z.div_pos num den Hn Hd). lia.
Qed.

(** The quotient of two positive integers [a <= B * b] is a zero or a positive
    finite float that is at most [B]. *)
Lemma SFdiv_at_most (B : Z) (a b : positive) :
  0 < B < 2 ^ prec -> Z.pos a <= B * Z.pos b ->
  nonneg_at_most B
    (SFdiv prec emax (S754_finite false a 0) (S754_finite false b 0)).
Proof.
  intros HB Hab. cbn [SFdiv xorb].
  destruct (SFdiv_core_spec (Z.pos a) 0 (Z.pos b) 0 eq_refl eq_refl) as (l & E & Hs).
  pose proof (SFdiv_core_exact (Z.pos a) 0 (Z.pos b) 0 eq_refl eq_refl) as X.
  destruct (SFdiv_core_exponent (Z.pos a) 0 (Z.pos b) 0 eq_refl eq_refl) as (Hq & _).
  cbv zeta in *.
  set (e' := Z.min (fexp prec emax (Zdigits2 (Z.pos a) + 0 - (Zdigits2 (Z.pos b) + 0)))
               (0 - 0)) in *.
  assert (He0 : e' <= 0) by apply Z.le_min_r.
  clearbody e'.
  replace (0 - 0 - e') with (- e') in * by lia.
  assert (H2 : 0 < 2 ^ (- e')) by (apply Z.pow_pos_nonneg; lia).
  destruct (Z.eq_dec (Z.pos a) (B * Z.pos b)) as [Heq|Hne].
  - rewrite X.
    + apply binary_round_aux_at_most; try assumption.
      left. split; [reflexivity|]. split; [assumption|].
      apply Z.div_le_upper_bound; [lia|]. nia.
    + rewrite Heq.
      replace (B * Z.pos b * 2 ^ (- e')) with (B * 2 ^ (- e') * Z.pos b) by ring.
      apply Z.mod_mul. lia.
  - rewrite E.
    apply binary_round_aux_at_most; try assumption.
    right. split; [assumption|].
    assert (Z.pos a * 2 ^ (- e') / Z.pos b < B * 2 ^ (- e')); [|lia].
    apply Z.div_lt_upper_bound; [lia|]. nia.
Qed.

Lemma at_most_le_int (B : Z) (x : float) :
  nonneg_at_most B (Prim2SF x) -> 0 <= B ->
  float_le_int x B = true /\ PrimFloat.leb 0 x = true.
Proof.
  unfold nonneg_at_most. intros H HB. rewrite leb_spec. unfold float_le_int.
  destruct (Prim2SF x) as [s|s| |s m e]; try contradiction.
  - split; [apply Z.leb_le; assumption|reflexivity].
  - destruct H as [-> [He H]]. split; [|reflexivity].
    cbn [cond_Zopp]. destruct e as [|p|p]; apply Z.leb_le.
    + change (2 ^ (- 0)) with 1 in H. lia.
    + lia.
    + exact H.
Qed.

(** [round(x, ndigits)] of a value between 0 and [B] is between 0 and [B]. *)
Lemma round_at_most (B : Z) (x : float) (ndigits : N) :
  0 < B < 2 ^ prec -> nonneg_at_most B (Prim2SF x) ->
  nonneg_at_most B (Prim2SF (Py.round x ndigits)).
Proof.
  intros HB H. unfold Py.round.
  destruct (Prim2SF x) as [s|s| |s m e] eqn:Ex; try contradiction.
  - rewrite Ex. exact I.
  - destruct H as [-> [He H]].
    set (p := 10 ^ Z.of_N ndigits).
    assert (Hp : 0 < p) by (apply Z.pow_pos_nonneg; lia).
    set (n := match e with
              | Z.neg k => round_half_even (Z.pos m * p) (2 ^ Z.pos k)
              | _ => Z.pos m * 2 ^ e * p
              end).
    assert (Hn : 0 <= n <= B * p).
    { unfold n. destruct e as [|k|k]; try lia.
      - change (2 ^ (- 0)) with 1 in H. change (2 ^ 0) with 1. nia.
      - assert (0 < 2 ^ Z.pos k) by (apply Z.pow_pos_nonneg; lia).
        change (- Z.neg k) with (Z.pos k) in H.
        split; [apply round_half_even_nonneg; lia|].
        apply round_half_even_le; [assumption|]. nia. }
    clearbody n. destruct n as [|n'|n']; try lia.
    + rewrite Prim2SF_SF2Prim by reflexivity. exact I.
    + rewrite Prim2SF_SF2Prim by apply SFdiv_finite_valid.
      apply SFdiv_at_most; [assumption|].
      rewrite Z2Pos.id by assumption. lia.
Qed.

(** The product with 100 of a value between 0 and 1 is between 0 and 100. *)
Lemma mul_100_at_most (r : float) :
  nonneg_at_most 1 (Prim2SF r) -> nonneg_at_most 100 (Prim2SF (r * 100)).
Proof.
  intros H. rewrite mul_spec.
  destruct (Prim2SF r) as [s|s| |s m e]; try contradiction.
  - destruct s; exact I.
  - destruct H as [-> [He H]].
    change (Prim2SF 100) with (S754_finite false 7036874417766400 (-46)).
    cbn [SFmul xorb].
    apply binary_round_aux_at_most; [unfold prec; lia|lia|].
    left. split; [reflexivity|]. split; [lia|].
    replace (- (e + -46)) with (46 + - e) by lia.
    rewrite Z.pow_add_r by lia.
    assert (0 < 2 ^ (- e)) by (apply Z.pow_pos_nonneg; lia).
    change (2 ^ 46) with 70368744177664.
    rewrite Pos2Z.inj_mul. nia.
Qed.

(** [t / t] is exactly 1.0. *)
Lemma int_truediv_self (t : positive) : int_truediv (Z.pos t) (Z.pos t) = Ok 1%float.
Proof.
  unfold int_truediv.
  change (Z.pos t <? 0) with false. change (Z.to_pos (Z.abs (Z.pos t))) with t.
  cbn [SFdiv xorb].
  rewrite (SFdiv_core_exact (Z.pos t) 0 (Z.pos t) 0 eq_refl eq_refl).
  - replace (Zdigits2 (Z.pos t) + 0 - (Zdigits2 (Z.pos t) + 0)) with 0 by lia.
    change (Z.min (fexp prec emax 0) (0 - 0)) with (-53).
    change (0 - 0 - -53) with 53.
    rewrite Z.mul_comm, Z.div_mul by lia.
    change (2 ^ 53) with (Z.pos 4503599627370496 * 2 ^ (-52 - -53)).
    rewrite binary_round_aux_exact by (reflexivity || lia).
    reflexivity.
  - rewrite Z.mul_comm. apply Z.mod_mul. lia.
Qed.

(** The win rate of [wins] out of [total > 0] trades is a float between 0 and
    100. *)
Lemma win_rate_of_percentage (wins total : Z) :
  0 <= wins <= total -> 0 < total ->
  exists x, win_rate_of wins total = Float x
            /\ nonneg_at_most 100 (Prim2SF x).
Proof.
  intros Hw Ht. unfold win_rate_of.
  replace (0 <? total) with true by (symmetry; apply Z.ltb_lt; assumption).
  destruct total as [|b|b]; try lia.
  destruct wins as [|a|a]; try lia.
  - eexists. split; [reflexivity|]. vm_compute. exact I.
  - unfold int_truediv.
    change (Z.pos a <? 0) with false. change (Z.pos b <? 0) with false.
    change (Z.to_pos (Z.abs (Z.pos a))) with a.
    change (Z.to_pos (Z.abs (Z.pos b))) with b.
    pose proof (SFdiv_at_most 1 a b ltac:(unfold prec; lia) ltac:(lia)) as H.
    pose proof (SFdiv_finite_valid false false a b 0 0) as Hv.
    destruct (SFdiv prec emax (S754_finite false a 0) (S754_finite false b 0))
      as [s|s| |s m e] eqn:E; try contradiction.
    + eexists. split; [reflexivity|].
      apply round_at_most; [unfold prec; lia|].
      apply mul_100_at_most. rewrite Prim2SF_SF2Prim by assumption. exact I.
    + eexists. split; [reflexivity|].
      apply round_at_most; [unfold prec; lia|].
      apply mul_100_at_most. rewrite Prim2SF_SF2Prim by assumption. exact H.
Qed.

Lemma filter_length_le (A : Type) (f : A -> bool) (l : list A) :
  (List.length (filter f l) <= List.length l)%nat.
Proof.
  induction l as [|a l IH]; [apply le_n|].
  cbn [filter]. destruct (f a); cbn [List.length]; lia.
Qed.

Lemma filter_all (A : Type) (f : A -> bool) (l : list A) :
  forallb f l = true -> filter f l = l.
Proof.
  induction l as [|a l IH]; [reflexivity|]. cbn [forallb filter].
  destruct (f a); [|discriminate]. intros H. f_equal. apply IH. exact H.
Qed.

Lemma filter_none (A : Type) (f : A -> bool) (l : list A) :
  existsb f l = false -> filter f l = [].
Proof.
  induction l as [|a l IH]; [reflexivity|]. cbn [existsb filter].
  destruct (f a); [discriminate|]. exact IH.
Qed.

(** *** Rounding keeps the sign *)

Lemma shr_fexp_nonneg (m e : Z) (l : location) :
  0 <= m -> let '(r, _) := shr_fexp prec emax m e l in 0 <= shr_m r.
Proof.
  intros Hm. pose proof (shr_fexp_spec0 m e l Hm) as S. cbv zeta in S.
  destruct (shr_fexp prec emax m e l) as [r e'].
  destruct S as [(_ & -> & _)|(Hk & -> & _)]; [assumption|].
  apply Z.div_pos; [assumption|apply Z.pow_pos_nonneg; lia].
Qed.

Lemma binary_round_aux_signed (s : bool) (m e : Z) (l : location) :
  0 <= m -> signed s (binary_round_aux prec emax s m e l).
Proof.
  intros Hm. unfold binary_round_aux.
  pose proof (shr_fexp_nonneg m e l Hm) as H1.
  destruct (shr_fexp prec emax m e l) as [r1 e1].
  pose proof (round_nearest_even_bounds (shr_m r1) (loc_of_shr_record r1)) as Hb.
  pose proof (shr_fexp_nonneg (round_nearest_even (shr_m r1) (loc_of_shr_record r1))
                e1 loc_Exact ltac:(lia)) as H2.
  destruct (shr_fexp prec emax _ e1 loc_Exact) as [r2 e2].
  destruct (shr_m r2) as [|p|p]; [reflexivity| |lia].
  destruct (e2 <=? emax - prec); reflexivity.
Qed.

Lemma binary_round_signed (s : bool) (m : positive) (e : Z) :
  signed s (binary_round prec emax s m e).
Proof.
  unfold binary_round.
  destruct (shl_align m e _) as [mz ez].
  apply binary_round_aux_signed. lia.
Qed.

Lemma shl_align_canonical (m : positive) (e : Z) :
  let '(mz, ez) := shl_align m e (fexp prec emax (Z.pos (digits2_pos m) + e)) in
  ez <= fexp prec emax (Zdigits2 (Z.pos mz) + ez).
Proof.
  unfold shl_align.
  change (Z.pos (digits2_pos m)) with (Zdigits2 (Z.pos m)).
  set (e' := fexp prec emax (Zdigits2 (Z.pos m) + e)).
  destruct (e' - e) as [|d|d] eqn:Ed.
  - fold e'. lia.
  - fold e'. lia.
  - rewrite iter_xO_pow2, Zdigits2_mul_pow2 by lia.
    replace (Zdigits2 (Z.pos m) + Z.pos d + e') with (Zdigits2 (Z.pos m) + e) by lia.
    fold e'. lia.
Qed.

Lemma binary_round_valid (s : bool) (m : positive) (e : Z) :
  valid_binary (binary_round prec emax s m e) = true.
Proof.
  unfold binary_round. pose proof (shl_align_canonical m e) as H.
  destruct (shl_align m e _) as [mz ez].
  apply binary_round_aux_valid; [lia|exact H].
Qed.

(** [float(n)] of a non-negative [int] is not below zero. *)
Lemma float_of_int_nonneg (n : Z) (q : float) :
  0 <= n -> float_of_int n = Ok q -> nonneg_number (Prim2SF q).
Proof.
  intros Hn. unfold float_of_int.
  destruct n as [|p|p]; [| |lia].
  - intros H. injection H as <-. exact I.
  - cbn [binary_normalize].
    pose proof (binary_round_signed false p 0) as Hs.
    pose proof (binary_round_valid false p 0) as Hv.
    assert (K : nonneg_number
                  (Prim2SF (SF2Prim (binary_round prec emax false p 0)))).
    { rewrite Prim2SF_SF2Prim by assumption.
      destruct (binary_round prec emax false p 0); try contradiction;
        [exact I|exact Hs|exact Hs]. }
    destruct (binary_round prec emax false p 0) as [s|s| |s m e];
      try discriminate; intros H; injection H as <-; exact K.
Qed.

Lemma SFmul_not_negative (a b : spec_float) :
  not_negative a -> nonneg_number b -> not_negative (SFmul prec emax a b).
Proof.
  destruct a as [sa|sa| |sa ma ea], b as [sb|sb| |sb mb eb]; cbn [SFmul];
    intros Ha Hb; try exact I; try contradiction;
    cbn [not_negative nonneg_number] in *; subst; try reflexivity.
  pose proof (binary_round_aux_signed (xorb false false)
                (Z.pos (ma * mb)) (ea + eb) loc_Exact ltac:(lia)) as H.
  destruct (binary_round_aux _ _ _ _ _ _); try exact I; exact H.
Qed.

Lemma SFmul_nonneg_number (a b : spec_float) :
  a = S754_finite false 4503599627370496 (-51) -> nonneg_number b ->
  nonneg_number (SFmul prec emax a b).
Proof.
  intros ->. destruct b as [sb|sb| |sb mb eb]; cbn [SFmul];
    intros Hb; try contradiction; cbn [nonneg_number] in *; subst;
    try reflexivity; try exact I.
  pose proof (binary_round_aux_signed (xorb false false)
                (Z.pos (4503599627370496 * mb)) (-51 + eb) loc_Exact ltac:(lia)) as H.
  destruct (binary_round_aux _ _ _ _ _ _); try contradiction; try exact I; exact H.
Qed.

Lemma SFopp_not_positive (a : spec_float) :
  not_negative a -> not_positive (SFopp a).
Proof.
  destruct a; cbn; intros H; try exact I; subst; reflexivity.
Qed.

Lemma SFsub_not_positive (a b : spec_float) :
  not_positive a -> nonneg_number b -> not_positive (SFsub prec emax a b).
Proof.
  destruct a as [sa|sa| |sa ma ea], b as [sb|sb| |sb mb eb]; cbn [SFsub];
    intros Ha Hb; try exact I; try contradiction;
    cbn [not_positive nonneg_number] in *; subst; try reflexivity;
    try (destruct sa, sb; exact I).
  cbn [cond_Zopp].
  set (ez := Z.min ea eb). clearbody ez.
  set (x := fst (shl_align ma ea ez)).
  set (y := fst (shl_align mb eb ez)).
  destruct (- Z.pos x - Z.pos y) as [|p|p] eqn:E; try lia.
  cbn [binary_normalize].
  pose proof (binary_round_signed true p ez) as H.
  destruct (binary_round _ _ _ _ _); try exact I; exact H.
Qed.

(** [round(x, ndigits)] of a float that is not above zero is not above zero. *)
Lemma round_not_positive (x : float) (ndigits : N) :
  not_positive (Prim2SF x) -> not_positive (Prim2SF (Py.round x ndigits)).
Proof.
  intros H. unfold Py.round.
  destruct (Prim2SF x) as [s|s| |s m e] eqn:Ex; try (rewrite Ex; exact H).
  cbn [not_positive] in H. subst s.
  destruct (match e with
            | Z.neg k => round_half_even (Z.pos m * 10 ^ Z.of_N ndigits) (2 ^ Z.pos k)
            | _ => Z.pos m * 2 ^ e * 10 ^ Z.of_N ndigits
            end) as [|n'|n'];
    try (rewrite Prim2SF_SF2Prim by reflexivity; exact I).
  rewrite Prim2SF_SF2Prim by apply SFdiv_finite_valid.
  cbn [SFdiv].
  destruct (SFdiv_core_spec (Z.pos n') 0
              (Z.pos (Z.to_pos (10 ^ Z.of_N ndigits))) 0 eq_refl eq_refl)
    as (l' & E' & _).
  destruct (SFdiv_core_exponent (Z.pos n') 0
              (Z.pos (Z.to_pos (10 ^ Z.of_N ndigits))) 0 eq_refl eq_refl)
    as (Hq & _).
  cbv zeta in *. rewrite E'.
  match goal with
  | |- not_positive (binary_round_aux _ _ _ ?q ?e ?l) =>
      pose proof (binary_round_aux_signed (xorb true false) q e l Hq) as Hs;
      destruct (binary_round_aux prec emax (xorb true false) q e l);
      try exact I; exact Hs
  end.
Qed.

Lemma not_positive_ltb (x : float) :
  not_positive (Prim2SF x) -> PrimFloat.ltb 0 x = false.
Proof.
  rewrite ltb_spec. change (Prim2SF 0) with (S754_zero false).
  destruct (Prim2SF x) as [s|s| |s m e]; cbn; intros H; subst; reflexivity.
Qed.

(** The net P&L of a LOSS on a quantity that is not below zero. *)
Lemma net_pnl_loss_not_positive (fill_price stop q rr : float) :
  nonneg_number (Prim2SF q) ->
  not_positive (Prim2SF (Claimed.net_pnl Claimed.LOSS fill_price stop q rr)).
Proof.
  intros Hq. unfold Claimed.net_pnl, Claimed.profit, Claimed.commission.
  rewrite sub_spec. apply SFsub_not_positive.
  - rewrite opp_spec. apply SFopp_not_positive.
    rewrite mul_spec. apply SFmul_not_negative; [|vm_compute; reflexivity].
    rewrite mul_spec. apply SFmul_not_negative; [|exact Hq].
    rewrite abs_spec. destruct (Prim2SF (fill_price - stop)); cbn; auto.
  - rewrite mul_spec. apply SFmul_nonneg_number; [reflexivity|exact Hq].
Qed.

(** *** numpy's rounding *)

Lemma shr_fexp_at_least (c k m e : Z) (l : location) :
  0 <= k -> 0 < m -> e <= fexp prec emax (Zdigits2 m + e) -> at_least c k m e ->
  let '(r, e') := shr_fexp prec emax m e l in at_least c k (shr_m r) e'.
Proof.
  intros Hk0 Hm He HP.
  pose proof (shr_fexp_spec0 m e l ltac:(lia)) as H. cbv zeta in H.
  destruct (shr_fexp prec emax m e l) as [r e'].
  destruct H as [(Hk & -> & ->)|(Hk & Hr & ->)]; [assumption|].
  set (j := fexp prec emax (Zdigits2 m + e) - e) in *.
  assert (Ej : e + j = fexp prec emax (Zdigits2 m + e)) by (unfold j; lia).
  clearbody j.
  assert (H2j : 0 < 2 ^ j) by (apply Z.pow_pos_nonneg; lia).
  rewrite Hr. unfold at_least.
  destruct (Z.le_gt_cases (e + j) k) as [Hle|Hgt].
  - left. split; [assumption|].
    destruct HP as [[_ HP]|[HP _]]; [|lia].
    apply Z.div_le_lower_bound; [assumption|].
    replace (k - e) with (k - (e + j) + j) in HP by lia.
    rewrite Z.pow_add_r in HP by lia. lia.
  - right. split; [assumption|].
    assert (Ejd : j = Zdigits2 m - 53 - 0).
    { unfold fexp, SpecFloat.emin, prec, emax in Ej. lia. }
    apply Z.div_le_lower_bound; [assumption|].
    pose proof (pow2_le_of_digits m Hm) as Hlo.
    replace (Zdigits2 m - 1) with (52 + j) in Hlo by lia.
    rewrite Z.pow_add_r in Hlo by lia. lia.
Qed.

Lemma at_least_mono (c k m n e : Z) :
  m <= n -> at_least c k m e -> at_least c k n e.
Proof. unfold at_least. lia. Qed.

Lemma at_least_pos (c k m e : Z) : 0 < c -> at_least c k m e -> 0 < m.
Proof.
  intros Hc [[He H]|[_ H]].
  - assert (0 < 2 ^ (k - e)) by (apply Z.pow_pos_nonneg; lia). nia.
  - assert (0 < 2 ^ 52) by reflexivity. lia.
Qed.

(** Rounding a negative number of magnitude at least [c * 2^k] gives a float
    of magnitude at least [c * 2^k]. *)
Lemma binary_round_aux_at_least (c k m e : Z) (l : location) :
  0 < c -> 0 <= k ->
  e <= fexp prec emax (Zdigits2 m + e) -> at_least c k m e ->
  below_neg c k (binary_round_aux prec emax true m e l).
Proof.
  intros Hc Hk He HP. pose proof (at_least_pos c k m e Hc HP) as Hm.
  unfold below_neg, binary_round_aux.
  pose proof (shr_fexp_at_least c k m e l Hk Hm He HP) as H1.
  pose proof (shr_fexp_canonical m e l ltac:(lia) He) as C1.
  destruct (shr_fexp prec emax m e l) as [r1 e1]. destruct C1 as (_ & C1 & _).
  set (m1 := round_nearest_even (shr_m r1) (loc_of_shr_record r1)).
  pose proof (round_nearest_even_bounds (shr_m r1) (loc_of_shr_record r1)) as Hb.
  fold m1 in Hb.
  pose proof (at_least_pos _ _ _ _ Hc H1) as Hr1.
  assert (HP1 : at_least c k m1 e1) by (eapply at_least_mono; [|exact H1]; lia).
  assert (C1' : e1 <= fexp prec emax (Zdigits2 m1 + e1)).
  { etransitivity; [exact C1|]. apply fexp_le.
    pose proof (Zdigits2_le (shr_m r1) m1 Hr1 (proj1 Hb)). lia. }
  pose proof (shr_fexp_at_least c k m1 e1 loc_Exact Hk ltac:(lia) C1' HP1) as H2.
  destruct (shr_fexp prec emax m1 e1 loc_Exact) as [r2 e2].
  pose proof (at_least_pos _ _ _ _ Hc H2) as Hr2.
  destruct (shr_m r2) as [|p|p]; try lia.
  destruct (e2 <=? emax - prec); [split; [reflexivity|assumption]|reflexivity].
Qed.

(** A float that is an infinity below zero or negative of magnitude at least
    [c * 2^k] is at most [- c * 2^k]. *)
Lemma at_least_le_int (c k : Z) (x : spec_float) :
  0 < c <= 2 ^ 53 -> 0 <= k ->
  below_neg c k x ->
  match x with
  | S754_nan => false
  | S754_infinity s => s
  | S754_zero _ => 0 <=? - (c * 2 ^ k)
  | S754_finite s m e =>
      match e with
      | Zneg p => cond_Zopp s (Z.pos m) <=? - (c * 2 ^ k) * 2 ^ Z.pos p
      | _ => cond_Zopp s (Z.pos m * 2 ^ e) <=? - (c * 2 ^ k)
      end
  end = true.
Proof.
  intros Hc Hk. unfold below_neg.
  assert (H2k : 0 < 2 ^ k) by (apply Z.pow_pos_nonneg; lia).
  destruct x as [s|s| |s m e]; try contradiction; [intros ->; reflexivity|].
  intros [-> [[He H]|[He H]]]; cbn [cond_Zopp].
  - destruct e as [|p|p]; apply Z.leb_le.
    + rewrite Z.sub_0_r in H. rewrite Z.pow_0_r, Z.mul_1_r. lia.
    + assert (E : 2 ^ (k - Z.pos p) * 2 ^ Z.pos p = 2 ^ k).
      { rewrite <- Z.pow_add_r by lia. f_equal. lia. }
      assert (0 < 2 ^ Z.pos p) by (apply Z.pow_pos_nonneg; lia).
      assert (0 < 2 ^ (k - Z.pos p)) by (apply Z.pow_pos_nonneg; lia).
      nia.
    + replace (k - Z.neg p) with (k + Z.pos p) in H by lia.
      rewrite Z.pow_add_r in H by lia. lia.
  - destruct e as [|p|p]; try lia. apply Z.leb_le.
    assert (E : 2 ^ Z.pos p = 2 ^ k * 2 ^ (Z.pos p - k)).
    { rewrite <- Z.pow_add_r by lia. f_equal. lia. }
    assert (2 <= 2 ^ (Z.pos p - k)).
    { change 2 with (2 ^ 1) at 1. apply Z.pow_le_mono_r; lia. }
    rewrite E.
    assert (c * 2 ^ k <= Z.pos m * 2 * 2 ^ k) by nia.
    assert (Z.pos m * 2 * 2 ^ k <= Z.pos m * 2 ^ (Z.pos p - k) * 2 ^ k) by nia.
    lia.
Qed.

Lemma fexp_ge (x : Z) : x - prec <= fexp prec emax x.
Proof. unfold_format. lia. Qed.

Lemma power_of_ten_2 : Np.power_of_ten 2 = 100%float.
Proof. vm_compute. reflexivity. Qed.

Lemma Prim2SF_100 : Prim2SF 100 = S754_finite false 7036874417766400 (-46).
Proof. reflexivity. Qed.

(** A float that is at most -1000 is an infinity below zero or negative of
    magnitude at least 125 * 2^3. *)
Lemma le_neg1000_below (x : float) :
  float_le_int x (-1000) = true -> below_neg 125 3 (Prim2SF x).
Proof.
  unfold float_le_int. pose proof (Prim2SF_valid x) as Hv.
  destruct (Prim2SF x) as [s|s| |s m e]; try discriminate; cbn [below_neg].
  - intros ->. reflexivity.
  - intros H.
    assert (Hs : s = true).
    { destruct s; [reflexivity|]. cbn [cond_Zopp] in H.
      destruct e as [|p|p]; apply Z.leb_le in H.
      - lia.
      - pose proof (Z.pow_pos_nonneg 2 (Z.pos p)). lia.
      - pose proof (Z.pow_pos_nonneg 2 (Z.pos p)). lia. }
    subst s. split; [reflexivity|]. cbn [cond_Zopp] in H.
    pose proof (valid_digits _ _ _ Hv) as (Hemin & _ & Hd & _).
    assert (Hcan : e = fexp prec emax (Zdigits2 (Z.pos m) + e)).
    { cbn [valid_binary] in Hv. unfold bounded, canonical_mantissa in Hv.
      apply andb_true_iff in Hv. destruct Hv as [Hc _].
      apply Z.eqb_eq in Hc. symmetry. exact Hc. }
    unfold at_least.
    destruct e as [|p|p]; apply Z.leb_le in H.
    + left. split; [lia|]. change (2 ^ (3 - 0)) with 8. lia.
    + destruct (Z.le_gt_cases (Z.pos p) 3) as [Hle|Hgt].
      * left. split; [assumption|].
        assert (E : 2 ^ (3 - Z.pos p) * 2 ^ Z.pos p = 8).
        { rewrite <- Z.pow_add_r by lia.
          replace (3 - Z.pos p + Z.pos p) with 3 by lia. reflexivity. }
        assert (0 < 2 ^ Z.pos p) by (apply Z.pow_pos_nonneg; lia).
        assert (0 < 2 ^ (3 - Z.pos p)) by (apply Z.pow_pos_nonneg; lia).
        nia.
      * right. split; [assumption|].
        pose proof (pow2_le_of_digits (Z.pos m) eq_refl) as Hlo.
        assert (Zdigits2 (Z.pos m) = 53).
        { unfold_format. lia. }
        replace (Zdigits2 (Z.pos m) - 1) with 52 in Hlo by lia. exact Hlo.
    + left. split; [lia|].
      replace (3 - Z.neg p) with (3 + Z.pos p) by lia.
      rewrite Z.pow_add_r by lia. change (2 ^ 3) with 8. lia.
Qed.

(** The product with 100 of a float at most -1000 is at most -100000. *)
Lemma mul_100_below (x : float) :
  below_neg 125 3 (Prim2SF x) -> below_neg 3125 5 (Prim2SF (x * 100)).
Proof.
  rewrite mul_spec, Prim2SF_100.
  destruct (Prim2SF x) as [s|s| |s m e]; cbn [below_neg]; try contradiction.
  - intros ->. reflexivity.
  - intros [-> H]. cbn [SFmul xorb].
    apply binary_round_aux_at_least; try lia.
    + etransitivity; [|apply fexp_ge].
      pose proof (Zdigits2_mul_ge (Z.pos m) 7036874417766400 eq_refl eq_refl).
      pose proof (Zdigits2_pos (Z.pos m) eq_refl).
      change (Zdigits2 7036874417766400) with 53 in *. unfold prec.
      rewrite Pos2Z.inj_mul. lia.
    + rewrite Pos2Z.inj_mul. unfold at_least in *.
      change (Z.pos 7036874417766400) with (100 * 2 ^ 46).
      destruct H as [[He H]|[He H]].
      * left. split; [lia|].
        replace (5 - (e + -46)) with (3 - e + 48) by lia.
        rewrite Z.pow_add_r by lia.
        assert (0 < 2 ^ (3 - e)) by (apply Z.pow_pos_nonneg; lia).
        change (2 ^ 48) with (4 * 2 ^ 46). change (2 ^ 46) with 70368744177664.
        nia.
      * destruct (Z.le_gt_cases (e + -46) 5) as [Hle|Hgt].
        -- left. split; [assumption|].
           assert (2 ^ (5 - (e + -46)) <= 2 ^ 47)
             by (apply Z.pow_le_mono_r; lia).
           change (2 ^ 47) with 140737488355328 in *.
           change (2 ^ 52) with 4503599627370496 in *.
           change (2 ^ 46) with 70368744177664. nia.
        -- right. split; [assumption|].
           change (2 ^ 52) with 4503599627370496 in *.
           change (2 ^ 46) with 70368744177664. nia.
Qed.

Lemma shl_align_at_least (c k : Z) (n : positive) :
  0 <= k -> c * 2 ^ k <= Z.pos n ->
  let '(mz, ez) := shl_align n 0 (fexp prec emax (Z.pos (digits2_pos n) + 0)) in
  at_least c k (Z.pos mz) ez.
Proof.
  intros Hk H. unfold shl_align.
  destruct (fexp prec emax (Z.pos (digits2_pos n) + 0) - 0) as [|d|d] eqn:Ed.
  - left. unfold_format. pose proof (Zdigits2_pos (Z.pos n) eq_refl).
    change (Z.pos (digits2_pos n)) with (Zdigits2 (Z.pos n)) in Ed.
    split; [lia|]. rewrite Z.sub_0_r. exact H.
  - left. split; [lia|]. rewrite Z.sub_0_r. exact H.
  - left. rewrite iter_xO_pow2.
    assert (E : fexp prec emax (Z.pos (digits2_pos n) + 0) = Z.neg d) by lia.
    rewrite E. split; [lia|].
    replace (k - Z.neg d) with (k + Z.pos d) by lia.
    rewrite Z.pow_add_r by lia.
    assert (0 < 2 ^ Z.pos d) by (apply Z.pow_pos_nonneg; lia). nia.
Qed.

(** [rint] keeps a float at most -100000 at most -100000. *)
Lemma rint_below (y : float) :
  below_neg 3125 5 (Prim2SF y) -> below_neg 3125 5 (Prim2SF (Np.rint y)).
Proof.
  unfold Np.rint.
  destruct (Prim2SF y) as [s|s| |s m e] eqn:Ey; cbn [below_neg];
    try contradiction.
  - intros ->. rewrite Ey. reflexivity.
  - intros [-> H].
    destruct e as [|p|p]; try (rewrite Ey; split; [reflexivity|exact H]).
    assert (H2p : 0 < 2 ^ Z.pos p) by (apply Z.pow_pos_nonneg; lia).
    assert (Hn : 3125 * 2 ^ 5 <= round_half_even (Z.pos m) (2 ^ Z.pos p)).
    { etransitivity; [|apply round_half_even_ge].
      apply Z.div_le_lower_bound; [assumption|].
      destruct H as [[_ H]|[H _]]; [|lia].
      replace (5 - Z.neg p) with (5 + Z.pos p) in H by lia.
      rewrite Z.pow_add_r in H by lia. lia. }
    destruct (round_half_even (Z.pos m) (2 ^ Z.pos p)) as [|n|n];
      try (change (3125 * 2 ^ 5) with 100000 in Hn; lia).
    rewrite Prim2SF_SF2Prim by apply binary_round_valid.
    unfold binary_round.
    pose proof (shl_align_at_least 3125 5 n ltac:(lia) Hn) as Ha.
    pose proof (shl_align_canonical n 0) as Hc.
    destruct (shl_align n 0 _) as [mz ez].
    apply binary_round_aux_at_least; try lia; assumption.
Qed.

(** The quotient by 100 of a float at most -100000 is at most -1000. *)
Lemma div_100_below (r : float) :
  below_neg 3125 5 (Prim2SF r) -> below_neg 125 3 (Prim2SF (r / 100)).
Proof.
  rewrite div_spec, Prim2SF_100.
  destruct (Prim2SF r) as [s|s| |s m e]; cbn [below_neg]; try contradiction.
  - intros ->. reflexivity.
  - intros [-> H]. unfold SF64div. cbn [SFdiv xorb].
    destruct (SFdiv_core_spec (Z.pos m) e 7036874417766400 (-46) eq_refl eq_refl)
      as (l & -> & Hs).
    destruct (SFdiv_core_exponent (Z.pos m) e 7036874417766400 (-46)
                eq_refl eq_refl) as (Hq & He).
    cbv zeta in *.
    set (e' := Z.min (fexp prec emax (Zdigits2 (Z.pos m) + e
                                      - (Zdigits2 7036874417766400 + -46)))
                 (e - -46)) in *.
    assert (He' : e' <= e + 46) by (unfold e'; lia).
    clearbody e'.
    set (q := Z.pos m * 2 ^ (e - -46 - e') / 7036874417766400) in *.
    apply binary_round_aux_at_least; try lia.
    unfold at_least.
    destruct (Z.le_gt_cases e' 3) as [Hle|Hgt].
    + left. split; [assumption|]. unfold q.
      apply Z.div_le_lower_bound; [lia|].
      change 7036874417766400 with (100 * 2 ^ 46).
      replace (e - -46 - e') with (e + 46 - e') by lia.
      assert (H3 : 0 < 2 ^ (3 - e')) by (apply Z.pow_pos_nonneg; lia).
      assert (EX : 2 ^ (3 - e') * 2 ^ 46 = 2 ^ (49 - e')).
      { rewrite <- Z.pow_add_r by lia. f_equal. lia. }
      assert (HX : 0 < 2 ^ (49 - e')) by (apply Z.pow_pos_nonneg; lia).
      destruct H as [[Hle5 H]|[Hgt5 H]].
      * assert (E1 : 2 ^ (5 - e) * 2 ^ (e + 46 - e') = 4 * 2 ^ (49 - e')).
        { rewrite <- Z.pow_add_r by lia. change 4 with (2 ^ 2).
          rewrite <- Z.pow_add_r by lia. f_equal. lia. }
        assert (0 < 2 ^ (e + 46 - e')) by (apply Z.pow_pos_nonneg; lia).
        nia.
      * assert (E1 : 8 * 2 ^ (49 - e') <= 2 ^ (e + 46 - e')).
        { change 8 with (2 ^ 3). rewrite <- Z.pow_add_r by lia.
          apply Z.pow_le_mono_r; lia. }
        change (2 ^ 52) with 4503599627370496 in *. nia.
    + right. split; [assumption|].
      assert (Hd : 53 <= Zdigits2 q).
      { unfold_format. lia. }
      assert (0 < q).
      { destruct (Z.eq_dec q 0) as [E|E]; [|lia].
        rewrite E in Hd. change (Zdigits2 0) with 0 in Hd. lia. }
      pose proof (pow2_le_of_digits q ltac:(lia)) as Hlo.
      etransitivity; [|exact Hlo]. apply Z.pow_le_mono_r; lia.
Qed.

(** numpy's rounding to cents never moves a loss of 1000 or more above
    -1000. *)
Lemma np_round_le_neg1000 (x : float) :
  float_le_int x (-1000) = true -> float_le_int (Np.round x 2) (-1000) = true.
Proof.
  intros H. unfold Np.round. rewrite power_of_ten_2.
  pose proof (div_100_below _ (rint_below _ (mul_100_below _ (le_neg1000_below _ H))))
    as Hz.
  unfold float_le_int.
  apply (at_least_le_int 125 3 _ ltac:(lia) ltac:(lia)) in Hz. exact Hz.
Qed.

Lemma binary_round_finite (s : bool) (n : positive) :
  Zdigits2 (Z.pos n) <= prec ->
  match binary_round prec emax s n 0 with
  | S754_zero _ | S754_finite _ _ _ => True
  | _ => False
  end.
Proof.
  intros Hd. unfold binary_round, shl_align.
  pose proof (Zdigits2_pos (Z.pos n) eq_refl) as Hp.
  change (Z.pos (digits2_pos n)) with (Zdigits2 (Z.pos n)).
  rewrite Z.add_0_r, Z.sub_0_r.
  destruct (fexp prec emax (Zdigits2 (Z.pos n))) as [|j|j] eqn:Ef.
  - apply binary_round_aux_finite; unfold prec, emax in *; lia.
  - unfold_format; lia.
  - apply binary_round_aux_finite; [lia| |].
    + unfold_format; lia.
    + rewrite iter_xO_pow2, Zdigits2_mul_pow2 by lia.
      unfold_format; lia.
Qed.

(** [rint] of a finite float is finite. *)
Lemma rint_finite (y : float) : is_finite y = true -> is_finite (Np.rint y) = true.
Proof.
  intros Hy. pose proof Hy as Hy'. rewrite is_finite_prim2sf in Hy'.
  pose proof (Prim2SF_valid y) as Hv. unfold Np.rint.
  destruct (Prim2SF y) as [s|s| |s m e] eqn:Ey; try discriminate;
    [exact Hy|].
  destruct e as [|k|k]; try exact Hy.
  apply valid_digits in Hv. destruct Hv as (_ & _ & Hd & _).
  assert (H2k : 2 <= 2 ^ Z.pos k).
  { change 2 with (2 ^ 1) at 1. apply Z.pow_le_mono_r; lia. }
  assert (Hm : Z.pos m < 2 ^ 53).
  { pose proof (lt_pow2_digits (Z.pos m) ltac:(lia)) as Hlt.
    eapply Z.lt_le_trans; [exact Hlt|].
    apply Z.pow_le_mono_r; unfold prec in *; lia. }
  pose proof (round_half_even_le (Z.pos m) (2 ^ Z.pos k) (2 ^ 52) ltac:(lia)) as Hn.
  change (2 ^ 53) with (2 * 2 ^ 52) in Hm.
  assert (0 < 2 ^ 52) by reflexivity.
  specialize (Hn ltac:(nia)).
  destruct (round_half_even (Z.pos m) (2 ^ Z.pos k)) as [|n|n];
    try (destruct s; reflexivity).
  rewrite is_finite_prim2sf, Prim2SF_SF2Prim by apply binary_round_valid.
  pose proof (binary_round_finite s n) as Hf.
  assert (Hdn : Zdigits2 (Z.pos n) <= prec).
  { unfold prec. apply Zdigits2_le_of_lt_pow2; try lia;
      change (2 ^ 53) with (2 * 2 ^ 52); lia. }
  specialize (Hf Hdn).
  destruct (binary_round prec emax s n 0); try contradiction; reflexivity.
Qed.

(** numpy's rounding to cents is finite as soon as the product with 100
    is. *)
Lemma np_round_finite (x : float) :
  is_finite (x * 100) = true -> is_finite (Np.round x 2) = true.
Proof.
  intros H. unfold Np.round. rewrite power_of_ten_2.
  eapply div_large_finite; [reflexivity|vm_compute; discriminate|].
  apply rint_finite, H.
Qed.

(** [round(a, 2)] of a finite number, by the method of its type; a
    [numpy.float64] overflows when its product with 100 does. *)
Lemma num_round_finite (a : num) :
  is_finite a = true ->
  (kind_of a = NpFloat64 -> is_finite (a * 100) = true) ->
  is_finite (Num.round a 2) = true.
Proof.
  destruct a as [x [|]]; cbn [val kind_of Num.round]; intros Hx Hn.
  - apply round_cents_finite, Hx.
  - apply np_round_finite, Hn. reflexivity.
Qed.

Lemma num_round_le_neg1000 (a : num) :
  float_le_int a (-1000) = true -> float_le_int (Num.round a 2) (-1000) = true.
Proof.
  destruct a as [x [|]]; cbn [val kind_of Num.round].
  - apply round_cents_le_neg1000.
  - apply np_round_le_neg1000.
Qed.

(** Rounding keeps the sign, numpy's as well. *)
Lemma rint_not_positive (y : float) :
  not_positive (Prim2SF y) -> not_positive (Prim2SF (Np.rint y)).
Proof.
  unfold Np.rint.
  destruct (Prim2SF y) as [s|s| |s m e] eqn:Ey; try (rewrite Ey; trivial).
  cbn [not_positive]. intros ->.
  destruct e as [|k|k]; try (rewrite Ey; reflexivity).
  destruct (round_half_even (Z.pos m) (2 ^ Z.pos k)) as [|n|n];
    try (rewrite Prim2SF_SF2Prim by reflexivity; exact I).
  rewrite Prim2SF_SF2Prim by apply binary_round_valid.
  pose proof (binary_round_signed true n 0) as H.
  destruct (binary_round prec emax true n 0); try exact I; exact H.
Qed.

Lemma np_round_not_positive (x : float) :
  not_positive (Prim2SF x) -> not_positive (Prim2SF (Np.round x 2)).
Proof.
  intros H. unfold Np.round. rewrite power_of_ten_2.
  assert (Hy : not_positive (Prim2SF (Np.rint (x * 100)))).
  { apply rint_not_positive. rewrite mul_spec, Prim2SF_100.
    destruct (Prim2SF x) as [s|s| |s m e]; cbn [not_positive] in *;
      try exact I; subst; try reflexivity.
    unfold SF64mul. cbn [SFmul xorb].
    pose proof (binary_round_aux_signed true (Z.pos (m * 7036874417766400))
                  (e + -46) loc_Exact ltac:(lia)) as Hs.
    destruct (binary_round_aux _ _ _ _ _ _); try exact I; exact Hs. }
  rewrite div_spec, Prim2SF_100.
  destruct (Prim2SF (Np.rint (x * 100))) as [s|s| |s m e];
    cbn [not_positive] in *; try exact I; subst; try reflexivity.
  unfold SF64div. cbn [SFdiv xorb].
  destruct (SFdiv_core_spec (Z.pos m) e 7036874417766400 (-46) eq_refl eq_refl)
    as (l & -> & _).
  destruct (SFdiv_core_exponent (Z.pos m) e 7036874417766400 (-46) eq_refl eq_refl)
    as (Hq & _).
  cbv zeta in *.
  match goal with
  | |- not_positive (binary_round_aux _ _ _ ?q ?e ?l) =>
      pose proof (binary_round_aux_signed true q e l Hq) as Hs;
      destruct (binary_round_aux prec emax true q e l);
      try exact I; exact Hs
  end.
Qed.

Lemma num_round_not_positive (a : num) :
  not_positive (Prim2SF a) -> not_positive (Prim2SF (Num.round a 2)).
Proof.
  destruct a as [x [|]]; cbn [val kind_of Num.round].
  - apply round_not_positive.
  - apply np_round_not_positive.
Qed.

(** ** The risk gate *)

Lemma can_trade_unfold (rm : RiskManager.t) :
  can_trade rm =
    if float_le_int (Num.round (pnl (exchange rm)) 2) (-1000)
    then (false, "Daily Loss Limit Hit"%string)
    else if 5 <=? trades_today rm then (false, "Max Trades Reached"%string)
    else (true, "OK"%string).
Proof. reflexivity. Qed.

(** C2, as the code has it.  [can_trade] decides on the cumulative pnl as
    [get_stats] reports it, that is rounded to two decimals by the [round()]
    of its type, the built-in one or numpy's: it returns
    (false, "Daily Loss Limit Hit") when that value is at most -1000,
    whatever [trades_today] is, which is the case whenever the cumulative pnl
    itself is at most -1000; otherwise (false, "Max Trades Reached") when
    [trades_today] is at least 5, in particular at [trades_today = 5] with a
    pnl of 0; otherwise (true, "OK").  The verdict is an ordinary pair: the
    function is total and raises nothing. *)
Theorem can_trade_decision (rm : RiskManager.t) :
  can_trade rm =
    (if float_le_int (st_pnl (get_stats (exchange rm))) (-1000)
     then (false, "Daily Loss Limit Hit"%string)
     else if 5 <=? trades_today rm then (false, "Max Trades Reached"%string)
     else (true, "OK"%string))
  /\ st_pnl (get_stats (exchange rm)) = Num.round (pnl (exchange rm)) 2
  /\ (float_le_int (pnl (exchange rm)) (-1000) = true ->
      can_trade rm = (false, "Daily Loss Limit Hit"%string))
  /\ (forall k,
        can_trade {| exchange := {| balance := balance (exchange rm);
                                    pnl := mk_num 0 k;
                                    history := history (exchange rm) |};
                     trades_today := 5 |}
        = (false, "Max Trades Reached"%string)).
Proof.
  split; [reflexivity|]. split; [reflexivity|].
  split; [|intros [|]; reflexivity].
  intros H. rewrite can_trade_unfold, (num_round_le_neg1000 _ H). reflexivity.
Qed.

(** C2 fails as worded on the cumulative pnl the ledger holds: after the two
    losing trades of [two_losses] the pnl is -999.9960000000137, above -1000,
    and two trades were taken, yet [can_trade] answers "Daily Loss Limit Hit"
    where the claim predicts (true, "OK"). *)
Lemma can_trade_raw_pnl_counterexample :
  let rm := run two_losses RiskManager.init in
  float_le_int (pnl (exchange rm)) (-1000) = false
  /\ trades_today rm = 2
  /\ Claimed.can_trade rm = (true, "OK"%string)
  /\ can_trade rm = (false, "Daily Loss Limit Hit"%string).
Proof. vm_compute. repeat split; reflexivity. Qed.

(** C10.  The daily-loss branch of [can_trade] is taken exactly when the
    cumulative pnl rounded to two decimals is at most -1000: a raw pnl of
    -999.995, itself above -1000, halts trading, a raw pnl of -999.994 does
    not, be the pnl a built-in float or a [numpy.float64]. *)
Theorem can_trade_compares_rounded_pnl (rm : RiskManager.t) :
  (can_trade rm = (false, "Daily Loss Limit Hit"%string) <->
     float_le_int (Num.round (pnl (exchange rm)) 2) (-1000) = true)
  /\ float_le_int (-999.995) (-1000) = false
  /\ (forall k,
        can_trade (with_pnl (mk_num (-999.995) k) rm)
        = (false, "Daily Loss Limit Hit"%string))
  /\ (forall k,
        can_trade (with_pnl (mk_num (-999.994) k) rm)
        <> (false, "Daily Loss Limit Hit"%string)).
Proof.
  split; [split|split; [|split]].
  - rewrite can_trade_unfold.
    destruct (float_le_int _ _); [reflexivity|].
    destruct (5 <=? _); discriminate.
  - intros H. rewrite can_trade_unfold, H. reflexivity.
  - reflexivity.
  - intros [|]; rewrite can_trade_unfold; reflexivity.
  - intros k. rewrite can_trade_unfold.
    assert (E : float_le_int
                  (Num.round (pnl (exchange (with_pnl (mk_num (-999.994) k) rm))) 2)
                  (-1000) = false) by (destruct k; reflexivity).
    rewrite E. destruct (5 <=? _); discriminate.
Qed.

(** ** Reset *)

(** C7.  Whatever the account was, after [reset_account()] the balance is
    100000.0, the cumulative pnl is 0, the history is empty and
    [trades_today] is 0: the object is back in its initial state.  The call
    cannot raise, so a caller never sees the exchange reset and the counter
    not. *)
Theorem reset_account_postcondition (rm : RiskManager.t) :
  let rm' := reset_account rm in
  balance (exchange rm') = py 100000.0
  /\ pnl (exchange rm') = py 0
  /\ history (exchange rm') = []
  /\ trades_today rm' = 0
  /\ rm' = RiskManager.init
  /\ step ResetAccount rm = rm'
  /\ completes ResetAccount rm = true
  /\ Engine.reset_account rm = (RiskManager.init, Engine.RESET).
Proof. repeat split. Qed.

(** ** Position sizing *)

(** Under [max(1, .)], truncating towards zero and taking the floor agree. *)
Lemma max_int_of_float_floor (A : Type) (q : float) (k : Z -> A) :
  (n <- int_of_float q ;; Ok (k (Py.max 1 n)))
  = (n <- floor_of_float q ;; Ok (k (Z.max 1 n))).
Proof.
  unfold int_of_float, floor_of_float.
  destruct (Prim2SF q) as [s|s| |s m e]; cbn [Py.bind]; try reflexivity.
  rewrite py_max_eq. do 2 f_equal.
  destruct s; cbn [cond_Zopp].
  - destruct e as [|p|p]; cbn [trunc_mantissa].
    + rewrite Z.mul_opp_l. reflexivity.
    + rewrite Z.mul_opp_l. reflexivity.
    + assert (H : 0 < 2 ^ Z.pos p) by (apply Z.pow_pos_nonneg; lia).
      pose proof (Z.div_pos (Z.pos m) (2 ^ Z.pos p) ltac:(lia) H).
      assert (Z.neg m / 2 ^ Z.pos p < 0) by (apply Z.div_lt_upper_bound; lia).
      change (- Z.pos m) with (Z.neg m). lia.
  - destruct e; reflexivity.
Qed.

Lemma truediv_nonzero (x y : float) :
  PrimFloat.eqb y 0 = false -> truediv x y = Ok (x / y)%float.
Proof. unfold truediv. intros ->. reflexivity. Qed.

Lemma calculate_position_size_unfold (rm : RiskManager.t)
    (entry_price stop_price : float) (instrument : string) :
  calculate_position_size rm entry_price stop_price instrument =
    (n <- int_of_float (sizing_quotient rm entry_price stop_price instrument) ;;
     let mini :=
       PrimFloat.leb
         (point_diff_of entry_price stop_price * tick_val_mini instrument)
         (risk_amount_of rm) in
     Ok {| s_type := if mini then "MINI" else "MICRO";
           s_symbol := if mini then instrument else String.append "M" instrument;
           s_contracts := Py.max 1 n |}).
Proof.
  unfold calculate_position_size, sizing_quotient.
  pose proof (point_diff_nonzero entry_price stop_price) as Hp.
  destruct (PrimFloat.leb _ _).
  - rewrite truediv_nonzero by (apply tick_val_mini_nonzero, Hp). reflexivity.
  - rewrite truediv_nonzero by (apply tick_val_micro_nonzero, Hp). reflexivity.
Qed.

Lemma sizing_contracts_convert (rm : RiskManager.t)
    (entry_price stop_price : float) (instrument : string) (sz : sizing) :
  calculate_position_size rm entry_price stop_price instrument = Ok sz ->
  returns (float_of_int (s_contracts sz)) = true.
Proof.
  rewrite calculate_position_size_unfold.
  destruct (int_of_float _) as [n|e] eqn:E; cbn [Py.bind]; [|discriminate].
  intros H. injection H as <-. cbn [s_contracts].
  apply (float_of_int_truncated _ _ E).
Qed.

(** C4, as the code has it.  [calculate_position_size] applies the sizing
    rule to the balance rounded to two decimals, as [get_stats] reports it
    (by the [round()] of its type, the built-in one or numpy's):
    with risk_budget = round(balance, 2) x 0.005 and point_distance =
    |entry - stop|, or 10 when that is zero, the decision is the MINI
    (standard) tier with the unprefixed symbol and max(1, floor(risk_budget /
    (point_distance x standard value))) contracts when risk_budget is at
    least point_distance x standard value, and the MICRO tier with the
    symbol prefixed by "M" and max(1, floor(risk_budget / (point_distance x
    micro value))) contracts otherwise; it raises when that quotient is not
    finite.  With entry 20000, stop 19990 and balance 100000 the decision is
    the standard tier with 2 contracts; with balance 10000 it is the micro
    tier with 2 contracts. *)
Theorem position_size_rule (rm : RiskManager.t) (entry_price stop_price : float)
    (instrument : string) :
  calculate_position_size rm entry_price stop_price instrument
  = Claimed.position_size (Num.round (balance (exchange rm)) 2)
      entry_price stop_price instrument
  /\ (forall k,
        calculate_position_size (with_balance (mk_num 100000 k) rm)
          20000 19990 "NQ"
        = Ok {| s_type := "MINI"; s_symbol := "NQ"; s_contracts := 2 |})
  /\ (forall k,
        calculate_position_size (with_balance (mk_num 10000 k) rm)
          20000 19990 "NQ"
        = Ok {| s_type := "MICRO"; s_symbol := "MNQ"; s_contracts := 2 |}).
Proof.
  split; [|split; intros [|]; reflexivity].
  unfold calculate_position_size, Claimed.position_size.
  change (risk_amount_of rm)
    with (Num.round (balance (exchange rm)) 2 * 0.005)%float.
  pose proof (point_diff_nonzero entry_price stop_price) as Hp.
  change (if PrimFloat.eqb (abs (entry_price - stop_price)) 0 then 10%float
          else abs (entry_price - stop_price))
    with (point_diff_of entry_price stop_price).
  destruct (PrimFloat.leb _ _).
  - rewrite truediv_nonzero by (apply tick_val_mini_nonzero, Hp). cbn [Py.bind].
    apply (max_int_of_float_floor _ _
             (fun n => {| s_type := "MINI"; s_symbol := instrument;
                          s_contracts := n |})).
  - rewrite truediv_nonzero by (apply tick_val_micro_nonzero, Hp). cbn [Py.bind].
    apply (max_int_of_float_floor _ _
             (fun n => {| s_type := "MICRO";
                          s_symbol := String.append "M" instrument;
                          s_contracts := n |})).
Qed.

(** C4 fails as worded on the balance the ledger holds: after the two losing
    trades of [two_losses] the balance is 99000.00399999999, whose 0.5% is
    above 495.00001 (the standard risk of a 24.7500005 point distance) while
    0.5% of the rounded balance 99000.0 is below; the code sizes 9 micro
    contracts where the rule on the balance itself gives 1 standard
    contract. *)
Lemma position_size_raw_balance_counterexample :
  let rm := run two_losses RiskManager.init in
  balance (exchange rm) = py 99000.00399999999
  /\ Claimed.position_size (balance (exchange rm)) 20000 19975.2499995 "NQ"
     = Ok {| s_type := "MINI"; s_symbol := "NQ"; s_contracts := 1 |}
  /\ calculate_position_size rm 20000 19975.2499995 "NQ"
     = Ok {| s_type := "MICRO"; s_symbol := "MNQ"; s_contracts := 9 |}.
Proof. vm_compute. repeat split; reflexivity. Qed.

Lemma sizing_quotient_equal_prices (rm : RiskManager.t)
    (entry_price stop_price : float) (instrument : string) :
  PrimFloat.eqb entry_price stop_price = true ->
  is_finite entry_price = true ->
  is_finite (balance (exchange rm)) = true ->
  (kind_of (balance (exchange rm)) = NpFloat64 ->
   is_finite (balance (exchange rm) * 100) = true) ->
  is_finite (sizing_quotient rm entry_price stop_price instrument) = true.
Proof.
  intros Heq Hf Hb Hn. pose proof (num_round_finite _ Hb Hn) as Hr0.
  clear Hb Hn. rename Hr0 into Hb.
  unfold sizing_quotient, point_diff_of.
  rewrite (sub_self_zero _ _ Heq Hf).
  assert (Hr : is_finite (risk_amount_of rm) = true).
  { unfold risk_amount_of, risk_per_trade_pct.
    eapply mul_small_finite; [reflexivity|vm_compute; discriminate..|exact Hb]. }
  unfold tick_val_mini, tick_val_micro.
  destruct (String.eqb instrument "NQ"); destruct (PrimFloat.leb _ _);
    (eapply div_large_finite;
     [vm_compute; reflexivity|vm_compute; discriminate|exact Hr]).
Qed.

(** C5, as the code has it.  [calculate_position_size] never divides by
    zero: the distance it divides by is 10 when |entry - stop| is zero, as
    it is for two equal finite prices, and no product of a non-zero distance
    with a per-point value is zero.  It returns exactly when the quotient it
    hands to [int()] is finite, and raises [OverflowError] or [ValueError]
    otherwise; it does return for two equal finite prices and any finite
    balance (of a [numpy.float64] balance the product with 100, which its
    [round()] computes, has to be finite too); every contract count it
    returns is at least 1, however small the balance. *)
Theorem position_size_total_on_finite_quotient (rm : RiskManager.t)
    (entry_price stop_price : float) (instrument : string) :
  calculate_position_size rm entry_price stop_price instrument
    <> Raise ZeroDivisionError
  /\ (forall sz,
        calculate_position_size rm entry_price stop_price instrument = Ok sz ->
        1 <= s_contracts sz)
  /\ returns (calculate_position_size rm entry_price stop_price instrument)
     = is_finite (sizing_quotient rm entry_price stop_price instrument)
  /\ (PrimFloat.eqb entry_price stop_price = true ->
      is_finite entry_price = true ->
      point_diff_of entry_price stop_price = 10%float)
  /\ (PrimFloat.eqb entry_price stop_price = true ->
      is_finite entry_price = true ->
      is_finite (balance (exchange rm)) = true ->
      (kind_of (balance (exchange rm)) = NpFloat64 ->
       is_finite (balance (exchange rm) * 100) = true) ->
      returns (calculate_position_size rm entry_price stop_price instrument)
      = true)
  /\ PrimFloat.eqb (point_diff_of entry_price stop_price
                    * tick_val_mini instrument) 0 = false
  /\ PrimFloat.eqb (point_diff_of entry_price stop_price
                    * tick_val_micro instrument) 0 = false
  /\ (forall k,
        calculate_position_size (with_balance (mk_num 0.01 k) rm)
          20000 20000 "NQ"
        = Ok {| s_type := "MICRO"; s_symbol := "MNQ"; s_contracts := 1 |})
  /\ (forall k,
        calculate_position_size (with_balance (mk_num (-5000) k) rm)
          20000 20000 "NQ"
        = Ok {| s_type := "MICRO"; s_symbol := "MNQ"; s_contracts := 1 |}).
Proof.
  pose proof (point_diff_nonzero entry_price stop_price) as Hp.
  assert (Hret : returns (calculate_position_size rm entry_price stop_price
                            instrument)
                 = is_finite (sizing_quotient rm entry_price stop_price
                                instrument)).
  { rewrite calculate_position_size_unfold, <- int_of_float_returns.
    destruct (int_of_float _); reflexivity. }
  split.
  { intros H. rewrite calculate_position_size_unfold in H.
    destruct (int_of_float _) as [n|e] eqn:E; cbn [Py.bind] in H; [discriminate|].
    unfold int_of_float in E.
    destruct (Prim2SF _); try discriminate; injection E as <-; discriminate. }
  split.
  { intros sz. rewrite calculate_position_size_unfold.
    destruct (int_of_float _) as [n|e]; cbn [Py.bind]; [|discriminate].
    intros H. injection H as <-. cbn [s_contracts]. rewrite py_max_eq. lia. }
  split; [exact Hret|]. split.
  { intros Heq Hf. unfold point_diff_of.
    rewrite (sub_self_zero _ _ Heq Hf). reflexivity. }
  split.
  { intros Heq Hf Hb Hn. rewrite Hret.
    apply sizing_quotient_equal_prices; assumption. }
  split; [apply tick_val_mini_nonzero, Hp|].
  split; [apply tick_val_micro_nonzero, Hp|].
  split; intros [|]; reflexivity.
Qed.

(** C5 fails as worded for every input: for the two positive finite prices
    2^-1030 and 2^-1031 the quotient overflows to an infinity and [int()]
    raises [OverflowError]; for a NaN price it raises [ValueError]. *)
Lemma position_size_raises_counterexample :
  is_finite 0x1p-1030 = true /\ is_finite 0x1p-1031 = true
  /\ sizing_quotient RiskManager.init 0x1p-1030 0x1p-1031 "NQ" = infinity
  /\ calculate_position_size RiskManager.init 0x1p-1030 0x1p-1031 "NQ"
     = Raise OverflowError
  /\ calculate_position_size RiskManager.init nan nan "NQ" = Raise ValueError.
Proof. vm_compute. repeat split; reflexivity. Qed.

(** The [round()] of a [numpy.float64] balance multiplies it by 100 first:
    a finite balance above 1.8e306, which a built-in float rounds to itself,
    overflows there and the sizing raises. *)
Example position_size_numpy_balance_overflow :
  is_finite 1e307 = true
  /\ returns (calculate_position_size (with_balance (py 1e307) RiskManager.init)
                20000 20000 "NQ") = true
  /\ calculate_position_size (with_balance (np 1e307) RiskManager.init)
       20000 20000 "NQ"
     = Raise OverflowError.
Proof. vm_compute. repeat split; reflexivity. Qed.

(** ** The order simulator *)

(** The trade record [execute_order] builds for a net amount [net], whose
    type is that of the prices. *)
Lemma execute_order_unfold (d : draws) (ex : PaperExchange.t)
    (symbol action : string) (quantity : Z) (price stop : num)
    (reasoning : string) :
  execute_order d ex symbol action quantity price stop reasoning =
    (q <- float_of_int quantity ;;
     let fill_price := fill_price_of d action price in
     let net :=
       mk_num (Claimed.net_pnl (outcome_of d) fill_price stop q (rr_draw d))
         (Num.join (kind_of price) (kind_of stop)) in
     let trade :=
       {| t_time := now d; t_symbol := symbol; t_action := action;
          t_price := Num.round fill_price 2;
          t_pnl := Num.round net 2;
          t_result := Claimed.outcome_label (outcome_of d);
          t_reasoning := reasoning |} in
     Ok ({| balance := (balance ex + net)%num;
            pnl := (pnl ex + net)%num;
            history := history ex ++ [trade] |}, trade)).
Proof.
  unfold execute_order, profit_of, fill_price_of, outcome_of, Claimed.net_pnl,
    Claimed.profit, Claimed.commission.
  destruct (float_of_int quantity) as [q|e]; [|reflexivity].
  destruct price as [p [|]], stop as [s [|]];
    destruct (String.eqb action "BUY"); destruct (outcome_pick d); reflexivity.
Qed.

Lemma net_pnl_of_unfold (d : draws) (action : string) (quantity : Z)
    (price stop : num) :
  net_pnl_of d action quantity price stop =
    (q <- float_of_int quantity ;;
     Ok (mk_num (Claimed.net_pnl (outcome_of d) (fill_price_of d action price)
                   stop q (rr_draw d))
           (Num.join (kind_of price) (kind_of stop)))).
Proof.
  unfold net_pnl_of, profit_of, fill_price_of, outcome_of, Claimed.net_pnl,
    Claimed.profit, Claimed.commission.
  destruct (float_of_int quantity) as [q|e]; [|reflexivity].
  destruct price as [p [|]], stop as [s [|]];
    destruct (String.eqb action "BUY"); destruct (outcome_pick d); reflexivity.
Qed.

Lemma execute_order_returns (d : draws) (ex : PaperExchange.t)
    (symbol action : string) (quantity : Z) (price stop : num)
    (reasoning : string) :
  returns (execute_order d ex symbol action quantity price stop reasoning)
  = returns (float_of_int quantity).
Proof.
  rewrite execute_order_unfold. destruct (float_of_int quantity); reflexivity.
Qed.

Lemma execute_order_ledger (d : draws) (ex ex' : PaperExchange.t)
    (symbol action : string) (quantity : Z) (price stop : num)
    (reasoning : string) (trade : trade_record) :
  execute_order d ex symbol action quantity price stop reasoning = Ok (ex', trade) ->
  exists net,
    balance ex' = (balance ex + net)%num
    /\ pnl ex' = (pnl ex + net)%num
    /\ t_pnl trade = Num.round net 2
    /\ history ex' = history ex ++ [trade]
    /\ net_pnl_of d action quantity price stop = Ok net.
Proof.
  rewrite execute_order_unfold, net_pnl_of_unfold.
  destruct (float_of_int quantity) as [q|e]; cbn [Py.bind]; [|discriminate].
  intros H. injection H as <- <-. eexists. repeat split.
Qed.

Lemma execute_order_raises (d : draws) (ex : PaperExchange.t)
    (symbol action : string) (quantity : Z) (price stop : num)
    (reasoning : string) (e : exn) :
  execute_order d ex symbol action quantity price stop reasoning = Raise e ->
  net_pnl_of d action quantity price stop = Raise e.
Proof.
  rewrite execute_order_unfold, net_pnl_of_unfold.
  destruct (float_of_int quantity) as [q|e']; cbn [Py.bind]; [discriminate|].
  intros H. injection H as ->. reflexivity.
Qed.

Lemma execute_paper_trade_ok (d : draws) (rm rm' : RiskManager.t)
    (symbol action : string) (price stop : num) (reasoning : string)
    (trade : trade_record) (sz : sizing) :
  execute_paper_trade d rm symbol action price stop reasoning
    = Ok (rm', (trade, sz)) ->
  calculate_position_size rm price stop "NQ" = Ok sz
  /\ trades_today rm' = trades_today rm + 1
  /\ execute_order d (exchange rm) (s_symbol sz) action (s_contracts sz)
       price stop reasoning = Ok (exchange rm', trade).
Proof.
  unfold execute_paper_trade.
  destruct (calculate_position_size rm price stop "NQ") as [sz0|e];
    cbn [Py.bind]; [|discriminate].
  destruct (execute_order d (exchange rm) (s_symbol sz0) action (s_contracts sz0)
              price stop reasoning) as [[ex' t]|e] eqn:E; cbn [Py.bind];
    [|discriminate].
  intros H. injection H as <- <- <-. repeat split. exact E.
Qed.

(** ** One call at a time *)

Lemma step_counts_history (c : call) (rm : RiskManager.t) :
  risk_manager_call c = true -> counts_history rm -> counts_history (step c rm).
Proof.
  unfold counts_history.
  destruct c; cbn [risk_manager_call step]; try discriminate; intros _ Hinv;
    try assumption; try reflexivity.
  destruct (execute_paper_trade d rm symbol action price stop reasoning)
    as [[rm' [trade sz]]|e] eqn:E; [|assumption].
  apply execute_paper_trade_ok in E. destruct E as (_ & Ht & Ho).
  apply execute_order_ledger in Ho. destruct Ho as (net & _ & _ & _ & Hh & _).
  rewrite Ht, Hh, Hinv, length_app. cbn [List.length]. lia.
Qed.

Lemma step_paper_trade_adds_one (c : call) (rm : RiskManager.t) :
  is_execute_paper_trade c = true -> completes c rm = true ->
  trades_today (step c rm) = trades_today rm + 1
  /\ List.length (history (exchange (step c rm)))
     = S (List.length (history (exchange rm))).
Proof.
  destruct c; cbn [is_execute_paper_trade step completes]; try discriminate.
  intros _.
  destruct (execute_paper_trade d rm symbol action price stop reasoning)
    as [[rm' [trade sz]]|e] eqn:E; cbn [returns]; [intros _|discriminate].
  apply execute_paper_trade_ok in E. destruct E as (_ & Ht & Ho).
  apply execute_order_ledger in Ho. destruct Ho as (net & _ & _ & _ & Hh & _).
  rewrite Ht, Hh, length_app. cbn [List.length]. split; lia.
Qed.

Lemma step_never_decrements (c : call) (rm : RiskManager.t) :
  is_reset c = false ->
  trades_today rm <= trades_today (step c rm)
  /\ (List.length (history (exchange rm))
      <= List.length (history (exchange (step c rm))))%nat.
Proof.
  destruct c; cbn [is_reset step]; try discriminate; intros _; try (split; lia).
  - destruct (execute_paper_trade d rm symbol action price stop reasoning)
      as [[rm' [trade sz]]|e] eqn:E; [|split; lia].
    apply execute_paper_trade_ok in E. destruct E as (_ & Ht & Ho).
    apply execute_order_ledger in Ho. destruct Ho as (net & _ & _ & _ & Hh & _).
    rewrite Ht, Hh, length_app. cbn [List.length]. split; lia.
  - destruct (execute_order d (exchange rm) symbol action quantity price stop
                reasoning) as [[ex' trade]|e] eqn:E; [|split; lia].
    apply execute_order_ledger in E. destruct E as (net & _ & _ & _ & Hh & _).
    cbn [exchange trades_today]. rewrite Hh, length_app. cbn [List.length].
    split; lia.
Qed.

Lemma all_complete_cons (c : call) (cs : list call) (rm : RiskManager.t) :
  all_complete (c :: cs) rm = (completes c rm && all_complete cs (step c rm))%bool.
Proof.
  unfold all_complete. cbn [fold_left].
  destruct (completes c rm); cbn [andb]; [reflexivity|].
  generalize (step c rm). induction cs as [|c' cs IH]; intros s; [reflexivity|].
  cbn [fold_left]. cbn [andb]. apply IH.
Qed.


(** ** The ledger *)

Lemma ledger_sum_snoc (start x : num) (xs : list num) :
  ledger_sum start (xs ++ [x]) = (ledger_sum start xs + x)%num.
Proof. unfold ledger_sum. rewrite fold_left_app. reflexivity. Qed.

Lemma accumulates_init : accumulates PaperExchange.init [].
Proof. repeat split. Qed.

Lemma execute_paper_trade_raises (d : draws) (rm : RiskManager.t)
    (symbol action : string) (price stop : num) (reasoning : string) (e : exn) :
  execute_paper_trade d rm symbol action price stop reasoning = Raise e ->
  calculate_position_size rm price stop "NQ" = Raise e
  \/ exists sz,
       calculate_position_size rm price stop "NQ" = Ok sz
       /\ execute_order d (exchange rm) (s_symbol sz) action (s_contracts sz)
            price stop reasoning = Raise e.
Proof.
  unfold execute_paper_trade.
  destruct (calculate_position_size rm price stop "NQ") as [sz|e0];
    cbn [Py.bind]; [|intros H; injection H as ->; left; reflexivity].
  destruct (execute_order d (exchange rm) (s_symbol sz) action (s_contracts sz)
              price stop reasoning) as [[ex' t]|e0] eqn:E; cbn [Py.bind];
    [discriminate|].
  intros H. injection H as ->. right. exists sz. split; [reflexivity|exact E].
Qed.

(** What one call does to the ledger: a reset puts the exchange back in its
    initial state; a call that executes an order adds the amount it books,
    [profit - commission] of that order, to the balance and to the
    cumulative pnl and records it, rounded, on one more trade; every other
    call, a raising one included, leaves the exchange as it was. *)
Lemma step_booked (c : call) (rm : RiskManager.t) :
  match c with
  | ResetAccount | ExchangeReset => exchange (step c rm) = PaperExchange.init
  | _ =>
      match booked c rm with
      | Some net =>
          balance (exchange (step c rm)) = (balance (exchange rm) + net)%num
          /\ pnl (exchange (step c rm)) = (pnl (exchange rm) + net)%num
          /\ exists trade,
               history (exchange (step c rm)) = history (exchange rm) ++ [trade]
               /\ t_pnl trade = Num.round net 2
      | None => exchange (step c rm) = exchange rm
      end
  end.
Proof.
  destruct c; cbn [step booked]; try reflexivity.
  - destruct (execute_paper_trade d rm symbol action price stop reasoning)
      as [[rm' [trade sz]]|e] eqn:E.
    + apply execute_paper_trade_ok in E. destruct E as (Hs & _ & Ho).
      rewrite Hs.
      apply execute_order_ledger in Ho.
      destruct Ho as (net & Hb & Hp & Ht & Hh & ->).
      split; [exact Hb|]. split; [exact Hp|]. exists trade. split; assumption.
    + apply execute_paper_trade_raises in E.
      destruct E as [->|(sz & -> & E)]; [reflexivity|].
      apply execute_order_raises in E. rewrite E. reflexivity.
  - destruct (execute_order d (exchange rm) symbol action quantity price stop
                reasoning) as [[ex' trade]|e] eqn:E.
    + apply execute_order_ledger in E.
      destruct E as (net & Hb & Hp & Ht & Hh & ->). cbn [exchange].
      split; [exact Hb|]. split; [exact Hp|]. exists trade. split; assumption.
    + apply execute_order_raises in E. rewrite E. reflexivity.
Qed.

Lemma step_accumulates (c : call) (rm : RiskManager.t) (since : list num) :
  accumulates (exchange rm) since ->
  accumulates (exchange (step c rm))
    (match c with
     | ResetAccount | ExchangeReset => []
     | _ =>
         match booked c rm with
         | Some net => since ++ [net]
         | None => since
         end
     end).
Proof.
  intros (Hb & Hp & Hh). pose proof (step_booked c rm) as H.
  assert (Hadd : forall net,
             balance (exchange (step c rm)) = (balance (exchange rm) + net)%num
             /\ pnl (exchange (step c rm)) = (pnl (exchange rm) + net)%num
             /\ (exists trade,
                   history (exchange (step c rm))
                   = history (exchange rm) ++ [trade]
                   /\ t_pnl trade = Num.round net 2) ->
             accumulates (exchange (step c rm)) (since ++ [net])).
  { intros net (Hb' & Hp' & trade & Hh' & Ht). unfold accumulates.
    rewrite !ledger_sum_snoc, Hb', Hp', Hh', Hb, Hp, !map_app, Hh.
    cbn [map]. rewrite Ht. repeat split. }
  assert (Hsame : exchange (step c rm) = exchange rm ->
                  accumulates (exchange (step c rm)) since).
  { intros ->. repeat split; assumption. }
  destruct c; try (rewrite H; apply accumulates_init);
    destruct (booked _ rm) as [net|]; auto.
Qed.

Lemma run_accumulates (cs : list call) :
  forall rm since,
    accumulates (exchange rm) since ->
    accumulates (exchange (run cs rm)) (amounts cs rm since).
Proof.
  induction cs as [|c cs IH]; intros rm since H; [exact H|].
  change (run (c :: cs) rm) with (run cs (step c rm)). cbn [amounts].
  apply IH, step_accumulates, H.
Qed.

(** C1, as the code has it.  In every state reachable from the initial one
    by calls of the risk manager and of its exchange, the balance is 100000.0
    and the cumulative pnl is 0.0, each with the same net amounts added in
    order in float arithmetic: one amount per order executed since the last
    reset, the [profit - commission] of that order, which the history
    records rounded to two decimals by the [round()] of its type.  Every
    call resets the exchange, adds the amount it books to both fields, or
    leaves the exchange alone.  [balance == 100000.0 + pnl] holds as long as
    the history is empty. *)
Theorem ledger_accumulates_net_pnl (cs : list call) :
  let ex := exchange (run cs RiskManager.init) in
  let nets := amounts cs RiskManager.init [] in
  balance ex = ledger_sum (py 100000.0) nets
  /\ pnl ex = ledger_sum (py 0.0) nets
  /\ map t_pnl (history ex) = map (fun net => Num.round net 2) nets
  /\ (forall c rm,
        match c with
        | ResetAccount | ExchangeReset =>
            exchange (step c rm) = PaperExchange.init
        | _ =>
            match booked c rm with
            | Some net =>
                balance (exchange (step c rm)) = (balance (exchange rm) + net)%num
                /\ pnl (exchange (step c rm)) = (pnl (exchange rm) + net)%num
                /\ exists trade,
                     history (exchange (step c rm))
                     = history (exchange rm) ++ [trade]
                     /\ t_pnl trade = Num.round net 2
            | None => exchange (step c rm) = exchange rm
            end
        end)
  /\ (forall d action quantity price stop,
        net_pnl_of d action quantity price stop =
          (q <- float_of_int quantity ;;
           Ok (mk_num
                 (Claimed.profit (outcome_of d) (fill_price_of d action price)
                    stop q (rr_draw d)
                  - Claimed.commission q)
                 (Num.join (kind_of price) (kind_of stop)))))
  /\ (history ex = [] -> Claimed.ledger_consistent ex = true).
Proof.
  cbv zeta.
  pose proof (run_accumulates cs RiskManager.init [] accumulates_init)
    as (Hb & Hp & Hh).
  split; [exact Hb|]. split; [exact Hp|]. split; [symmetry; exact Hh|].
  split; [intros c rm; apply step_booked|].
  split; [intros; apply net_pnl_of_unfold|].
  intros Hnil. rewrite Hnil in Hh.
  destruct (amounts cs RiskManager.init []) as [|x xs]; [|discriminate].
  unfold Claimed.ledger_consistent. rewrite Hb, Hp. reflexivity.
Qed.

(** C1 fails as an exact equality: after the two winning trades of
    [two_wins] the balance is 101857.87000000001 while 100000.0 plus the
    cumulative pnl 1857.87 is 101857.87. *)
Lemma ledger_consistency_counterexample :
  let ex := exchange (run two_wins RiskManager.init) in
  balance ex = py 101857.87000000001
  /\ pnl ex = py 1857.87
  /\ (100000.0 + pnl ex = 101857.87)%float
  /\ Claimed.ledger_consistent ex = false.
Proof. vm_compute. repeat split; reflexivity. Qed.

(** The same two trades with the prices the engine passes, numpy.float64:
    the amounts are the same floats and the equality fails the same way. *)
Example ledger_consistency_numpy_prices :
  let ex := exchange
              (run [ ExecutePaperTrade (draw Second First 2.694) "NQ=F" "BUY"
                       (np 20000) (np 19980) "Manual";
                     ExecutePaperTrade (draw Third First 1.88) "NQ=F" "BUY"
                       (np 20000) (np 19980) "Manual" ]
                 RiskManager.init) in
  balance ex = np 101857.87000000001
  /\ pnl ex = np 1857.87
  /\ Claimed.ledger_consistent ex = false.
Proof. vm_compute. repeat split; reflexivity. Qed.

(** ** Simulated P&L *)

(** C6, as the code has it.  For every [execute_order] call whose quantity
    converts to a float, with the draws taken as given (the reward multiple
    within [1.5, 3.0]): the call returns; with commission = 2.0 x quantity,
    profit = |fill - stop| x quantity x 20 x reward multiple on a WIN and
    -(|fill - stop| x quantity x 20) on a LOSS, profit - commission is added
    to the balance and to the cumulative pnl, and the pnl recorded on the
    Trade is profit - commission rounded to two decimals: by the built-in
    [round()] when the price and the stop are built-in floats, by numpy's
    when one of them is a [numpy.float64], as the prices of the engine
    are. *)
Theorem execute_order_books_net_pnl (d : draws) (ex : PaperExchange.t)
    (symbol action : string) (quantity : Z) (price stop : num)
    (reasoning : string) (q : float) :
  rr_in_range d = true ->
  float_of_int quantity = Ok q ->
  let fill_price :=
    if String.eqb action "BUY" then (price + slippage_of d)%float
    else (price - slippage_of d)%float in
  let profit := Claimed.profit (outcome_of d) fill_price stop q (rr_draw d) in
  let commission := (2.0 * q)%float in
  let net :=
    mk_num (profit - commission) (Num.join (kind_of price) (kind_of stop)) in
  exists ex' trade,
    execute_order d ex symbol action quantity price stop reasoning
      = Ok (ex', trade)
    /\ balance ex' = (balance ex + net)%num
    /\ pnl ex' = (pnl ex + net)%num
    /\ t_pnl trade = Num.round net 2
    /\ (kind_of price = PyFloat -> kind_of stop = PyFloat ->
        t_pnl trade = py (Py.round (profit - commission) 2))
    /\ (kind_of price = NpFloat64 \/ kind_of stop = NpFloat64 ->
        t_pnl trade = np (Np.round (profit - commission) 2))
    /\ t_result trade = Claimed.outcome_label (outcome_of d)
    /\ history ex' = history ex ++ [trade].
Proof.
  intros _ Hq. cbv zeta. rewrite execute_order_unfold, Hq. cbn [Py.bind].
  assert (Hf : val (fill_price_of d action price)
               = if String.eqb action "BUY" then (price + slippage_of d)%float
                 else (price - slippage_of d)%float).
  { unfold fill_price_of, slippage_of. destruct (String.eqb action "BUY");
      reflexivity. }
  do 2 eexists. split; [reflexivity|]. cbn [balance pnl t_pnl t_result history].
  rewrite Hf. repeat split.
  - intros Hp Hs. rewrite Hp, Hs. reflexivity.
  - intros [Hp|Hs]; [rewrite Hp|rewrite Hs; destruct (kind_of price)];
      reflexivity.
Qed.

Lemma execute_order_books_net_pnl_witness :
  exists ex' trade,
    execute_order (draw Second First 1.5078125) PaperExchange.init
      "NQ" "BUY" 2 (py 20000) (py 19980) "Manual" = Ok (ex', trade)
    /\ balance ex' = py (100000.0 + 1217.328125)
    /\ pnl ex' = py (0 + 1217.328125)
    /\ t_pnl trade = py 1217.33
    /\ t_result trade = "WIN"%string
    /\ history ex' = [trade].
Proof.
  destruct (execute_order_books_net_pnl (draw Second First 1.5078125)
              PaperExchange.init "NQ" "BUY" 2 (py 20000) (py 19980) "Manual" 2
              eq_refl eq_refl) as (ex' & trade & H1 & H2 & H3 & H4 & _ & _ & H5 & H6).
  exists ex', trade. repeat split; assumption.
Defined.

(** C6 fails as worded for the Trade: on a WIN of 2 contracts bought at
    20000.25 with the stop at 19980 and a reward multiple of 1.5078125, profit
    minus commission is 1217.328125, which is what the balance and the
    cumulative pnl receive, but the Trade records 1217.33, with built-in
    floats as with [numpy.float64] prices. *)
Lemma recorded_pnl_counterexample :
  let recorded := fun price stop : num =>
    match execute_order (draw Second First 1.5078125) PaperExchange.init
            "NQ" "BUY" 2 price stop "Manual" with
    | Ok (ex', trade) =>
        Claimed.net_pnl Claimed.WIN 20000.25 19980 2 1.5078125 = 1217.328125%float
        /\ val (pnl ex') = 1217.328125%float
        /\ val (t_pnl trade) = 1217.33%float
        /\ PrimFloat.eqb (t_pnl trade)
             (Claimed.net_pnl Claimed.WIN 20000.25 19980 2 1.5078125) = false
    | Raise _ => False
    end in
  recorded (py 20000) (py 19980) /\ recorded (np 20000) (np 19980).
Proof. vm_compute. repeat split; reflexivity. Qed.

(** The two [round()] differ by a cent on the same amount: 622.915, the net
    amount of one contract bought at 20000.25 with the stop at 19980 and a
    reward multiple of 1.543, is recorded as 622.91 when the prices are
    built-in floats and as 622.92 when they are [numpy.float64]. *)
Example recorded_pnl_depends_on_type :
  Claimed.net_pnl Claimed.WIN 20000.25 19980 1 1.543 = 622.915%float
  /\ Num.round (py 622.915) 2 = py 622.91
  /\ Num.round (np 622.915) 2 = np 622.92
  /\ match execute_order (draw Second First 1.543) PaperExchange.init
            "NQ" "BUY" 1 (py 20000) (py 19980) "Manual" with
     | Ok (_, trade) => t_pnl trade = py 622.91
     | Raise _ => False
     end
  /\ match execute_order (draw Second First 1.543) PaperExchange.init
            "NQ" "BUY" 1 (np 20000) (np 19980) "Manual" with
     | Ok (_, trade) => t_pnl trade = np 622.92
     | Raise _ => False
     end.
Proof. vm_compute. repeat split; reflexivity. Qed.

(** ** The action argument *)

(** C9.  Every action other than exactly "BUY" is filled as a sell, at the
    reference price minus the slippage, and stored verbatim on the Trade;
    the action is never validated and the call never fails on its account:
    whatever the action, the call returns as soon as the quantity converts
    to a float, as every contract count computed by
    [calculate_position_size] does. *)
Theorem non_buy_action_fills_as_sell (d : draws) (ex : PaperExchange.t)
    (symbol action : string) (quantity : Z) (price stop : num)
    (reasoning : string) :
  action <> "BUY"%string ->
  returns (float_of_int quantity) = true ->
  fill_price_of d action price = (price - py (slippage_of d))%num
  /\ (exists ex' trade ex_sell trade_sell,
        execute_order d ex symbol action quantity price stop reasoning
          = Ok (ex', trade)
        /\ execute_order d ex symbol "SELL" quantity price stop reasoning
           = Ok (ex_sell, trade_sell)
        /\ t_action trade = action
        /\ t_price trade = Num.round (price - py (slippage_of d))%num 2
        /\ t_price trade = t_price trade_sell
        /\ t_pnl trade = t_pnl trade_sell
        /\ t_result trade = t_result trade_sell
        /\ balance ex' = balance ex_sell
        /\ pnl ex' = pnl ex_sell)
  /\ (forall any_action,
        returns (execute_order d ex symbol any_action quantity price stop
                   reasoning) = true)
  /\ (forall rm entry_price stop_price instrument sz any_action,
        calculate_position_size rm entry_price stop_price instrument = Ok sz ->
        returns (execute_order d ex symbol any_action (s_contracts sz) price
                   stop reasoning) = true).
Proof.
  intros Ha Hq.
  assert (Hf : forall a, a <> "BUY"%string ->
                 fill_price_of d a price = (price - py (slippage_of d))%num).
  { intros a Hne. unfold fill_price_of, slippage_of.
    destruct (String.eqb_spec a "BUY"); [contradiction|reflexivity]. }
  split; [apply Hf, Ha|]. split; [|split].
  - rewrite !execute_order_unfold.
    destruct (float_of_int quantity) as [q|e]; [|discriminate]. cbn [Py.bind].
    do 4 eexists. split; [reflexivity|]. split; [reflexivity|].
    cbn [t_action t_price t_pnl t_result balance pnl].
    rewrite (Hf action Ha), (Hf "SELL"%string) by discriminate.
    repeat split.
  - intros a. rewrite execute_order_returns. exact Hq.
  - intros rm e s i sz a Hsz. rewrite execute_order_returns.
    apply (sizing_contracts_convert _ _ _ _ _ Hsz).
Qed.

Lemma non_buy_action_fills_as_sell_witness :
  fill_price_of (draw Second First 2.0) "buy" (np 20000) = np 19999.75
  /\ returns (execute_order (draw Second First 2.0) PaperExchange.init
                "NQ" "hold" 1 (np 20000) (np 20020) "Manual") = true.
Proof.
  destruct (non_buy_action_fills_as_sell (draw Second First 2.0)
              PaperExchange.init "NQ" "buy" 1 (np 20000) (np 20020) "Manual")
    as (H1 & _ & H3 & _).
  - discriminate.
  - reflexivity.
  - split; [exact H1|apply H3].
Defined.

(** ** The symbol argument *)

Lemma calculate_position_size_symbol (rm : RiskManager.t)
    (entry_price stop_price : float) (instrument : string) (sz : sizing) :
  calculate_position_size rm entry_price stop_price instrument = Ok sz ->
  (s_type sz = "MINI"%string /\ s_symbol sz = instrument)
  \/ (s_type sz = "MICRO"%string /\ s_symbol sz = String.append "M" instrument).
Proof.
  unfold calculate_position_size.
  destruct (PrimFloat.leb _ _);
    (destruct (truediv _ _) as [q|e]; cbn [Py.bind]; [|discriminate]);
    (destruct (int_of_float q) as [n|e]; cbn [Py.bind]; [|discriminate]);
    intros H; injection H as <-; [left|right]; split; reflexivity.
Qed.

(** C8.  The symbol passed to [execute_paper_trade] plays no part: whatever
    it is, "NQ=F" as the engine passes or any other, the outcome of the call
    is the same; the position is the one [calculate_position_size] gives for
    the instrument "NQ", and the Trade carries "NQ" when the tier is MINI and
    "MNQ" when it is MICRO. *)
Theorem paper_trade_ignores_symbol (d : draws) (rm rm' : RiskManager.t)
    (symbol action : string) (price stop : num) (reasoning : string)
    (trade : trade_record) (sz : sizing) :
  execute_paper_trade d rm symbol action price stop reasoning
    = Ok (rm', (trade, sz)) ->
  calculate_position_size rm price stop "NQ" = Ok sz
  /\ ((s_type sz = "MINI"%string /\ t_symbol trade = "NQ"%string)
      \/ (s_type sz = "MICRO"%string /\ t_symbol trade = "MNQ"%string))
  /\ t_symbol trade = s_symbol sz
  /\ (forall other_symbol,
        execute_paper_trade d rm other_symbol action price stop reasoning
        = Ok (rm', (trade, sz))).
Proof.
  intros H.
  assert (Hany : forall s1 s2,
             execute_paper_trade d rm s1 action price stop reasoning
             = execute_paper_trade d rm s2 action price stop reasoning)
    by reflexivity.
  pose proof (execute_paper_trade_ok _ _ _ _ _ _ _ _ _ _ H) as (Hs & _ & Ho).
  rewrite execute_order_unfold in Ho.
  destruct (float_of_int (s_contracts sz)) as [q|e]; cbn [Py.bind] in Ho;
    [|discriminate].
  injection Ho as _ Ht.
  assert (Hsym : t_symbol trade = s_symbol sz) by (rewrite <- Ht; reflexivity).
  split; [exact Hs|]. split; [|split; [exact Hsym|]].
  - rewrite Hsym.
    destruct (calculate_position_size_symbol _ _ _ _ _ Hs) as [[H1 H2]|[H1 H2]];
      [left|right]; split; assumption.
  - intros other. rewrite (Hany other symbol). exact H.
Qed.

Lemma paper_trade_ignores_symbol_witness :
  exists rm' trade sz,
    execute_paper_trade (draw Second First 2.0) RiskManager.init
      Engine.SYMBOL "BUY" (np 20000) (np 19980) "Manual"
    = Ok (rm', (trade, sz))
    /\ calculate_position_size RiskManager.init 20000 19980 "NQ" = Ok sz
    /\ ((s_type sz = "MINI"%string /\ t_symbol trade = "NQ"%string)
        \/ (s_type sz = "MICRO"%string /\ t_symbol trade = "MNQ"%string))
    /\ t_symbol trade = s_symbol sz
    /\ (forall other_symbol,
          execute_paper_trade (draw Second First 2.0) RiskManager.init
            other_symbol "BUY" (np 20000) (np 19980) "Manual"
          = Ok (rm', (trade, sz))).
Proof.
  destruct (execute_paper_trade (draw Second First 2.0) RiskManager.init
              Engine.SYMBOL "BUY" (np 20000) (np 19980) "Manual")
    as [[rm' [trade sz]]|e] eqn:E; [|vm_compute in E; discriminate].
  exists rm', trade, sz. split; [reflexivity|].
  exact (paper_trade_ignores_symbol _ _ _ _ _ _ _ _ _ _ E).
Defined.

(** ** Counting trades *)

(** An execution goes through exactly when the position can be sized: the
    contract count always converts to a float. *)
Lemma execute_paper_trade_returns (d : draws) (rm : RiskManager.t)
    (symbol action : string) (price stop : num) (reasoning : string) :
  returns (execute_paper_trade d rm symbol action price stop reasoning)
  = is_finite (sizing_quotient rm price stop "NQ").
Proof.
  unfold execute_paper_trade.
  pose proof (sizing_contracts_convert rm price stop "NQ") as Hconv.
  rewrite <- int_of_float_returns.
  rewrite calculate_position_size_unfold in *.
  destruct (int_of_float (sizing_quotient rm price stop "NQ")) as [n|e];
    cbn [Py.bind returns] in *; [|reflexivity].
  specialize (Hconv _ eq_refl). rewrite execute_order_unfold.
  destruct (float_of_int _); [reflexivity|discriminate].
Qed.

Lemma run_counts_history (cs : list call) (rm : RiskManager.t) :
  forallb risk_manager_call cs = true ->
  counts_history rm ->
  counts_history (run cs rm)
  /\ (forallb is_execute_paper_trade cs = true -> all_complete cs rm = true ->
      trades_today (run cs rm) = trades_today rm + Z.of_nat (List.length cs)
      /\ List.length (history (exchange (run cs rm)))
         = (List.length (history (exchange rm)) + List.length cs)%nat)
  /\ (forallb (fun c => negb (is_reset c)) cs = true ->
      trades_today rm <= trades_today (run cs rm)
      /\ (List.length (history (exchange rm))
          <= List.length (history (exchange (run cs rm))))%nat).
Proof.
  revert rm. induction cs as [|c cs IH]; intros rm Hrm Hinv.
  - cbn. repeat split; try lia. assumption.
  - cbn [forallb] in Hrm. apply andb_true_iff in Hrm. destruct Hrm as [Hc Hcs].
    specialize (IH (step c rm) Hcs (step_counts_history c rm Hc Hinv)).
    destruct IH as (IH1 & IH2 & IH4).
    change (run (c :: cs) rm) with (run cs (step c rm)).
    split; [assumption|]. split.
    + cbn [forallb]. rewrite all_complete_cons, !andb_true_iff.
      intros [Hp Hps] [Hk Hks].
      destruct (IH2 Hps Hks) as [-> ->].
      destruct (step_paper_trade_adds_one c rm Hp Hk) as [-> ->].
      cbn [List.length]. split; lia.
    + cbn [forallb]. rewrite andb_true_iff, negb_true_iff. intros [Hn Hns].
      destruct (IH4 Hns) as [H1 H2].
      destruct (step_never_decrements c rm Hn) as [H3 H4].
      split; lia.
Qed.

(** C3.  Over the methods of the risk manager, [trades_today ==
    len(trade_history)] is preserved by every call, raising or not; every
    [execute_paper_trade] that returns appends exactly one trade and adds
    exactly one to [trades_today], so that N such calls from a fresh or reset
    account, where both are 0, leave N records and [trades_today = N]; and
    no call other than a reset lowers either.  An [execute_paper_trade]
    call returns exactly when the sizing quotient is finite. *)
Theorem trades_today_counts_history (cs : list call) (rm : RiskManager.t) :
  forallb risk_manager_call cs = true ->
  counts_history rm ->
  counts_history (run cs rm)
  /\ (forallb is_execute_paper_trade cs = true -> all_complete cs rm = true ->
      trades_today (run cs rm) = trades_today rm + Z.of_nat (List.length cs)
      /\ List.length (history (exchange (run cs rm)))
         = (List.length (history (exchange rm)) + List.length cs)%nat)
  /\ (forallb (fun c => negb (is_reset c)) cs = true ->
      trades_today rm <= trades_today (run cs rm)
      /\ (List.length (history (exchange rm))
          <= List.length (history (exchange (run cs rm))))%nat)
  /\ (forall d symbol action price stop reasoning s,
        completes (ExecutePaperTrade d symbol action price stop reasoning) s
        = is_finite (sizing_quotient s price stop "NQ")).
Proof.
  intros Hrm Hinv.
  destruct (run_counts_history cs rm Hrm Hinv) as (H1 & H2 & H3).
  repeat split; try assumption; try (apply H2; assumption);
    try (apply H3; assumption).
  intros. apply execute_paper_trade_returns.
Qed.

Lemma trades_today_counts_history_witness :
  counts_history (run two_wins RiskManager.init)
  /\ trades_today (run two_wins RiskManager.init) = 0 + 2
  /\ List.length (history (exchange (run two_wins RiskManager.init))) = (0 + 2)%nat.
Proof.
  pose proof (trades_today_counts_history two_wins RiskManager.init
                eq_refl eq_refl) as (H1 & H2 & _).
  split; [exact H1|]. apply H2; vm_compute; reflexivity.
Defined.


(** ** The [/execute] endpoint *)

(** A rejection by the risk gate is returned as a response and leaves the
    account untouched. *)
Lemma execute_trade_rejected (d : draws) (last_close : option float)
    (risk : RiskManager.t) (req : Engine.TradeReq) (reason : string) :
  can_trade risk = (false, reason) ->
  Engine.execute_trade d last_close risk req = Ok (risk, Engine.REJECTED reason).
Proof. unfold Engine.execute_trade. intros ->. reflexivity. Qed.

(** A filled request is a paper trade on the engine's symbol, with the stop
    20 points away from the last close on the side of the action. *)
Lemma execute_trade_filled (d : draws) (price : float) (risk risk' : RiskManager.t)
    (req : Engine.TradeReq) (det : Engine.details) (result : string) :
  Engine.execute_trade d (Some price) risk req = Ok (risk', Engine.FILLED det result) ->
  exists trade sz,
    execute_paper_trade d risk "NQ=F" (Engine.req_action req) (np price)
      (if String.eqb (Engine.req_action req) "BUY"
       then np (price - 20) else np (price + 20))
      (Engine.req_reasoning req) = Ok (risk', (trade, sz))
    /\ fst (can_trade risk) = true
    /\ Engine.d_contracts det = s_contracts sz
    /\ Engine.d_type det = s_type sz
    /\ result = t_result trade.
Proof.
  unfold Engine.execute_trade, Engine.SYMBOL.
  destruct (can_trade risk) as [[|] reason]; cbn [negb fst]; [|discriminate].
  destruct (execute_paper_trade _ _ _ _ _ _ _) as [[r [trade sz]]|e];
    cbn [Py.bind]; [|discriminate].
  intros H. injection H as <- <- <-. exists trade, sz. repeat split.
Qed.

(** Five eligible executions in a row, then the risk gate closes on the count. *)
Example five_executions_then_halt :
  let req := {| Engine.req_symbol := "NQ=F"; Engine.req_action := "BUY";
                Engine.req_user := "trader"; Engine.req_reasoning := "Manual" |} in
  let exec rm :=
    match Engine.execute_trade (draw Second First 2.0) (Some 20000%float) rm req with
    | Ok (rm', Engine.FILLED _ _) => rm'
    | _ => rm
    end in
  let rm5 := exec (exec (exec (exec (exec RiskManager.init)))) in
  trades_today rm5 = 5
  /\ List.length (history (exchange rm5)) = 5%nat
  /\ can_trade rm5 = (false, "Max Trades Reached"%string)
  /\ Engine.execute_trade (draw Second First 2.0) (Some 20000%float) rm5 req
     = Ok (rm5, Engine.REJECTED "Max Trades Reached").
Proof. vm_compute. repeat split; reflexivity. Qed.

(** * Further properties of the code *)

(** ** What [get_stats] shows of the history *)

Lemma last10_suffix (A : Type) (l : list A) :
  firstn (List.length l - 10) l ++ last10 l = l
  /\ List.length (last10 l) = Nat.min 10 (List.length l).
Proof.
  unfold last10. split; [apply firstn_skipn|].
  rewrite length_skipn. lia.
Qed.

Lemma skipn_S_tl (A : Type) (k : nat) :
  forall l : list A, skipn (S k) l = tl (skipn k l).
Proof.
  induction k as [|k IH]; intros [|a l]; try reflexivity.
  change (skipn (S (S k)) (a :: l)) with (skipn (S k) l).
  change (skipn (S k) (a :: l)) with (skipn k l). apply IH.
Qed.

Lemma last10_snoc (A : Type) (l : list A) (x : A) :
  last10 (l ++ [x])
  = (if (List.length l <? 10)%nat then last10 l else tl (last10 l)) ++ [x].
Proof.
  unfold last10. rewrite length_app. cbn [List.length].
  destruct (Nat.ltb_spec (List.length l) 10) as [Hlt|Hge].
  - replace (List.length l + 1 - 10)%nat with 0%nat by lia.
    replace (List.length l - 10)%nat with 0%nat by lia. reflexivity.
  - replace (List.length l + 1 - 10)%nat with (S (List.length l - 10)) by lia.
    rewrite skipn_app, skipn_S_tl.
    replace (S (List.length l - 10) - List.length l)%nat with 0%nat by lia.
    reflexivity.
Qed.

(** X1.  [get_stats] shows the most recent trades only: its history is the tail of
    the full history, in the same order, of length ten or of the whole
    history when that is shorter; [trades_count] still counts every trade. *)
Theorem get_stats_shows_last_ten (ex : PaperExchange.t) :
  let stats := get_stats ex in
  (exists older, history ex = older ++ st_history stats)
  /\ List.length (st_history stats) = Nat.min 10 (List.length (history ex))
  /\ st_trades_count stats = Z.of_nat (List.length (history ex))
  /\ ((List.length (history ex) <= 10)%nat -> st_history stats = history ex).
Proof.
  cbv zeta. cbn [get_stats st_history st_trades_count].
  destruct (last10_suffix _ (history ex)) as [Hs Hl].
  split; [eexists; symmetry; exact Hs|]. split; [exact Hl|].
  split; [reflexivity|].
  intros Hle. unfold last10.
  replace (List.length (history ex) - 10)%nat with 0%nat by lia. reflexivity.
Qed.

(** X2.  An executed order shows up at once: the trade [execute_order] returns is
    the last one [get_stats] lists, the older ones keep their order, the
    oldest of ten leaves the list, and [trades_count] grows by one. *)
Theorem executed_trade_is_listed_last (d : draws) (ex ex' : PaperExchange.t)
    (symbol action : string) (quantity : Z) (price stop : num)
    (reasoning : string) (trade : trade_record) :
  execute_order d ex symbol action quantity price stop reasoning = Ok (ex', trade) ->
  st_history (get_stats ex')
  = (if (List.length (history ex) <? 10)%nat then st_history (get_stats ex)
     else tl (st_history (get_stats ex))) ++ [trade]
  /\ st_trades_count (get_stats ex') = st_trades_count (get_stats ex) + 1.
Proof.
  intros H. apply execute_order_ledger in H.
  destruct H as (net & _ & _ & _ & Hh & _).
  cbn [get_stats st_history st_trades_count]. rewrite Hh.
  split; [apply last10_snoc|].
  rewrite length_app. cbn [List.length]. lia.
Qed.

Lemma executed_trade_is_listed_last_witness :
  exists ex' trade,
    execute_order (draw Second First 2.0) PaperExchange.init
      "NQ" "BUY" 1 (np 20000) (np 19980) "Manual" = Ok (ex', trade)
    /\ st_history (get_stats ex') = [trade]
    /\ st_trades_count (get_stats ex') = 1.
Proof.
  destruct (execute_order (draw Second First 2.0) PaperExchange.init
              "NQ" "BUY" 1 (np 20000) (np 19980) "Manual") as [[ex' trade]|e] eqn:E;
    [|vm_compute in E; discriminate].
  exists ex', trade. split; [reflexivity|].
  exact (executed_trade_is_listed_last _ _ _ _ _ _ _ _ _ _ E).
Defined.

Lemma get_stats_shows_last_ten_witness :
  st_history (get_stats (exchange (run two_wins RiskManager.init)))
  = history (exchange (run two_wins RiskManager.init)).
Proof.
  refine (proj2 (proj2 (proj2
            (get_stats_shows_last_ten (exchange (run two_wins RiskManager.init)))))
            _).
  vm_compute. lia.
Defined.

(** ** The status view *)

(** X3.  What [get_status] displays is consistent: the label is "TRADING HALTED"
    exactly when the displayed daily P&L is at or below minus the displayed
    limit or the displayed trade count of the day has reached the displayed
    maximum, and "TRADING ACTIVE" otherwise; and in every state reached
    through the risk manager from the initial one, [trades_today] equals
    [trades_count]. *)
Theorem get_status_is_consistent (cs : list call) :
  forallb risk_manager_call cs = true ->
  let view := get_status (run cs RiskManager.init) in
  g_trades_today view = g_trades_count view
  /\ (g_status view = "TRADING HALTED"%string <->
        float_le_int (g_daily_pl view) (- g_daily_limit view) = true
        \/ g_max_trades view <= g_trades_today view)
  /\ (g_status view = "TRADING ACTIVE"%string <->
        float_le_int (g_daily_pl view) (- g_daily_limit view) = false
        /\ g_trades_today view < g_max_trades view)
  /\ List.length (g_history view)
     = Nat.min 10 (Z.to_nat (g_trades_today view)).
Proof.
  intros Hcs. cbv zeta.
  destruct (run_counts_history cs RiskManager.init Hcs eq_refl) as (Hinv & _).
  unfold counts_history in Hinv.
  set (rm := run cs RiskManager.init) in *.
  cbn [get_status g_trades_today g_trades_count g_status g_daily_pl
       g_daily_limit g_max_trades g_history get_stats st_trades_count
       st_pnl st_history].
  split; [exact Hinv|].
  rewrite can_trade_unfold.
  change (- max_daily_loss) with (-1000). change max_trades_daily with 5.
  destruct (float_le_int (Num.round (pnl (exchange rm)) 2) (-1000)) eqn:Ep;
    cbn [fst].
  - split; [split; [auto|reflexivity]|].
    split; [split; [discriminate|intros [? _]; discriminate]|].
    rewrite (proj2 (last10_suffix _ _)), Hinv, Nat2Z.id. reflexivity.
  - destruct (Z.leb_spec 5 (trades_today rm)) as [Hle|Hlt]; cbn [fst].
    + split; [split; [auto|reflexivity]|].
      split; [split; [discriminate|intros [_ ?]; lia]|].
      rewrite (proj2 (last10_suffix _ _)), Hinv, Nat2Z.id. reflexivity.
    + split; [split; [discriminate|intros [?|?]; [discriminate|lia]]|].
      split; [split; [auto|reflexivity]|].
      rewrite (proj2 (last10_suffix _ _)), Hinv, Nat2Z.id. reflexivity.
Qed.

Lemma get_status_is_consistent_witness :
  let view := get_status (run two_losses RiskManager.init) in
  g_trades_today view = g_trades_count view
  /\ g_status view = "TRADING HALTED"%string.
Proof.
  destruct (get_status_is_consistent two_losses eq_refl) as (H1 & H2 & _).
  cbv zeta. split; [exact H1|]. apply H2. left. vm_compute. reflexivity.
Defined.

(** ** The [/execute] endpoint and the risk gate *)

Lemma execute_trade_effect (d : draws) (last_close : option float)
    (risk risk' : RiskManager.t) (req : Engine.TradeReq)
    (answer : Engine.response) :
  Engine.execute_trade d last_close risk req = Ok (risk', answer) ->
  risk' = risk
  \/ (can_trade risk = (true, "OK"%string)
      /\ trades_today risk < 5
      /\ trades_today risk' = trades_today risk + 1
      /\ exists trade, history (exchange risk') = history (exchange risk) ++ [trade]).
Proof.
  unfold Engine.execute_trade. rewrite can_trade_unfold.
  destruct (float_le_int _ _); cbn [negb].
  { intros H. injection H as <- <-. left. reflexivity. }
  destruct (Z.leb_spec 5 (trades_today risk)) as [Hle|Hlt]; cbn [negb].
  { intros H. injection H as <- <-. left. reflexivity. }
  destruct last_close as [price|].
  2: { intros H. injection H as <- <-. left. reflexivity. }
  destruct (execute_paper_trade _ _ _ _ _ _ _) as [[r [trade sz]]|e] eqn:E;
    cbn [Py.bind]; [|discriminate].
  intros H. injection H as <- <-. right.
  apply execute_paper_trade_ok in E. destruct E as (_ & Ht & Ho).
  rewrite execute_order_unfold in Ho.
  destruct (float_of_int (s_contracts sz)); cbn [Py.bind] in Ho; [|discriminate].
  injection Ho as Hex Htr.
  split; [reflexivity|]. split; [assumption|]. split; [assumption|].
  exists trade. rewrite <- Hex, <- Htr. reflexivity.
Qed.

Lemma fill_price_of_numpy (d : draws) (action : string) (price : float) :
  kind_of (fill_price_of d action (np price)) = NpFloat64.
Proof.
  unfold fill_price_of. destruct (String.eqb action "BUY"); reflexivity.
Qed.

(** X4.  What an answer of [/execute] says about the account: a rejection or a
    data error leaves it untouched, and a fill is one paper trade on an
    account the risk gate had cleared, counted once; the fill reports the
    requested action, the last close rounded to cents (the trade records the
    fill price, slippage included) and the size of that trade, at least one
    contract, "MINI" on "NQ" or "MICRO" on "MNQ".  The last close is a
    numpy.float64, so both roundings are numpy's: the close times 100, to the
    nearest integer, over 100. *)
Theorem execute_trade_answer (d : draws) (last_close : option float)
    (risk risk' : RiskManager.t) (req : Engine.TradeReq)
    (answer : Engine.response) :
  Engine.execute_trade d last_close risk req = Ok (risk', answer) ->
  match answer with
  | Engine.REJECTED reason => risk' = risk /\ can_trade risk = (false, reason)
  | Engine.ERROR reason =>
      risk' = risk /\ last_close = None /\ fst (can_trade risk) = true
      /\ reason = "Data Offline"%string
  | Engine.FILLED det result =>
      can_trade risk = (true, "OK"%string)
      /\ trades_today risk < 5
      /\ trades_today risk' = trades_today risk + 1
      /\ exists trade price,
           history (exchange risk') = history (exchange risk) ++ [trade]
           /\ result = t_result trade
           /\ t_action trade = Engine.req_action req
           /\ t_reasoning trade = Engine.req_reasoning req
           /\ last_close = Some price
           /\ Engine.d_action det = Engine.req_action req
           /\ Engine.d_price det = Num.round (np price) 2
           /\ Engine.d_price det = np (Np.rint (price * 100) / 100)
           /\ t_price trade
              = Num.round (fill_price_of d (Engine.req_action req) (np price)) 2
           /\ t_price trade
              = np (Np.round (fill_price_of d (Engine.req_action req) (np price)) 2)
           /\ 1 <= Engine.d_contracts det
           /\ ((Engine.d_type det = "MINI"%string /\ t_symbol trade = "NQ"%string)
               \/ (Engine.d_type det = "MICRO"%string
                   /\ t_symbol trade = "MNQ"%string))
  | Engine.RESET => False
  end.
Proof.
  unfold Engine.execute_trade. rewrite can_trade_unfold.
  destruct (float_le_int _ _); cbn [negb].
  { intros H. injection H as <- <-. split; reflexivity. }
  destruct (Z.leb_spec 5 (trades_today risk)) as [Hle|Hlt]; cbn [negb].
  { intros H. injection H as <- <-. split; reflexivity. }
  destruct last_close as [price|].
  2: { intros H. injection H as <- <-. repeat split. }
  destruct (execute_paper_trade _ _ _ _ _ _ _) as [[r [trade sz]]|e] eqn:E;
    cbn [Py.bind]; [|discriminate].
  intros H. injection H as <- <-.
  apply execute_paper_trade_ok in E. destruct E as (Hs & Ht & Ho).
  assert (Hc : 1 <= s_contracts sz).
  { rewrite calculate_position_size_unfold in Hs.
    destruct (int_of_float _) as [n|e]; cbn [Py.bind] in Hs; [|discriminate].
    injection Hs as <-. cbn [s_contracts]. rewrite py_max_eq. lia. }
  apply calculate_position_size_symbol in Hs.
  rewrite execute_order_unfold in Ho.
  destruct (float_of_int (s_contracts sz)); cbn [Py.bind] in Ho; [|discriminate].
  injection Ho as Hex Htr.
  split; [reflexivity|]. split; [assumption|]. split; [assumption|].
  exists trade, price. rewrite <- Hex, <- Htr.
  cbn [history t_result t_action t_reasoning t_symbol t_price
       Engine.d_action Engine.d_price Engine.d_contracts Engine.d_type].
  repeat (split; [reflexivity|]).
  split; [unfold Num.round; rewrite fill_price_of_numpy; reflexivity|].
  split; [exact Hc|].
  destruct Hs as [[-> ->]|[-> ->]]; [left|right]; split; reflexivity.
Qed.

Lemma execute_trade_answer_witness :
  exists risk' det result,
    Engine.execute_trade (draw Second First 2.0) (Some 20000.005%float)
      RiskManager.init
      {| Engine.req_symbol := "NQ=F"; Engine.req_action := "BUY";
         Engine.req_user := "trader"; Engine.req_reasoning := "Manual" |}
    = Ok (risk', Engine.FILLED det result)
    /\ trades_today risk' = 0 + 1
    /\ Engine.d_price det = np 20000.0.
Proof.
  destruct (Engine.execute_trade (draw Second First 2.0) (Some 20000.005%float)
              RiskManager.init
              {| Engine.req_symbol := "NQ=F"; Engine.req_action := "BUY";
                 Engine.req_user := "trader"; Engine.req_reasoning := "Manual" |})
    as [[risk' [reason|reason|det result|]]|e] eqn:E;
    try (vm_compute in E; discriminate).
  exists risk', det, result. split; [reflexivity|].
  pose proof (execute_trade_answer _ _ _ _ _ _ E) as H.
  destruct H as (_ & _ & Ht & trade & price & _ & _ & _ & _ & Hp & _ & _ & Hd & _).
  split; [exact Ht|]. injection Hp as <-. rewrite Hd. vm_compute. reflexivity.
Defined.

Lemma serve_cases (r : request) (risk : RiskManager.t) :
  serve r risk = risk
  \/ serve r risk = RiskManager.init
  \/ (fst (can_trade risk) = true
      /\ trades_today risk < 5
      /\ trades_today (serve r risk) = trades_today risk + 1
      /\ exists trade,
           history (exchange (serve r risk)) = history (exchange risk) ++ [trade]).
Proof.
  destruct r as [d last_close req| |]; cbn [serve]; [|left; reflexivity|right; left; reflexivity].
  destruct (Engine.execute_trade d last_close risk req)
    as [[risk' answer]|e] eqn:E; [|left; reflexivity].
  destruct (execute_trade_effect d last_close risk risk' req answer E)
    as [H|(Hc & Hlt & Ht & trade & Hh)].
  - left. exact H.
  - right; right. rewrite Hc. repeat split; try assumption. exists trade. exact Hh.
Qed.

Lemma serve_all_cons (r : request) (rs : list request) (risk : RiskManager.t) :
  serve_all (r :: rs) risk = serve_all rs (serve r risk).
Proof. reflexivity. Qed.

Lemma serve_all_bounded (rs : list request) :
  forall risk,
    counts_history risk -> 0 <= trades_today risk <= 5 ->
    counts_history (serve_all rs risk) /\ 0 <= trades_today (serve_all rs risk) <= 5.
Proof.
  induction rs as [|r rs IH]; intros risk Hc Hb; [split; assumption|].
  rewrite serve_all_cons. unfold counts_history in *.
  destruct (serve_cases r risk) as [E|[E|(_ & Hlt & Ht & trade & Hh)]].
  - rewrite E. apply IH; assumption.
  - rewrite E. apply IH; [reflexivity|cbn; lia].
  - apply IH.
    + unfold counts_history. rewrite Ht, Hh, length_app, Hc. cbn [List.length]. lia.
    + lia.
Qed.

(** X5.  Whatever requests the engine serves, and in whatever order, at most five
    trades are on the account at any time: after any sequence of [/execute],
    [/account-status] and [/reset] requests [trades_today] is between 0 and 5
    and the history holds exactly [trades_today] trades. *)
Theorem engine_never_exceeds_max_trades (rs : list request) :
  let risk := serve_all rs RiskManager.init in
  0 <= trades_today risk <= max_trades_daily
  /\ trades_today risk = Z.of_nat (List.length (history (exchange risk)))
  /\ (List.length (history (exchange risk)) <= 5)%nat.
Proof.
  cbv zeta.
  destruct (serve_all_bounded rs RiskManager.init eq_refl) as [Hc Hb];
    [cbn; lia|].
  unfold counts_history in Hc. unfold max_trades_daily.
  split; [exact Hb|]. split; [exact Hc|]. lia.
Qed.

Lemma serve_halted (r : request) (risk : RiskManager.t) (reason : string) :
  can_trade risk = (false, reason) -> is_post_reset r = false ->
  serve r risk = risk.
Proof.
  intros Hc Hr. destruct r as [d last_close req| |]; try discriminate;
    [|reflexivity].
  cbn [serve]. unfold Engine.execute_trade. rewrite Hc. reflexivity.
Qed.

(** X6.  A halt lasts until a reset: once [can_trade] refuses, every later
    [/execute] is answered REJECTED with the same reason and no sequence of
    [/execute] and [/account-status] requests changes the account; a
    [/reset] puts the account back to its initial state, where trading is
    allowed. *)
Theorem halt_lasts_until_reset (rs : list request) (risk : RiskManager.t)
    (reason : string) :
  can_trade risk = (false, reason) ->
  forallb (fun r => negb (is_post_reset r)) rs = true ->
  serve_all rs risk = risk
  /\ (forall d last_close req,
        Engine.execute_trade d last_close (serve_all rs risk) req
        = Ok (risk, Engine.REJECTED reason))
  /\ can_trade (serve PostReset (serve_all rs risk)) = (true, "OK"%string).
Proof.
  intros Hc Hrs.
  assert (E : serve_all rs risk = risk).
  { induction rs as [|r rs IH]; [reflexivity|].
    cbn [forallb] in Hrs. apply andb_true_iff in Hrs. destruct Hrs as [Hr Hrs].
    rewrite serve_all_cons, (serve_halted r risk reason Hc)
      by (apply negb_true_iff; exact Hr).
    apply IH, Hrs. }
  rewrite E. split; [reflexivity|]. split; [|reflexivity].
  intros d last_close req. unfold Engine.execute_trade. rewrite Hc. reflexivity.
Qed.

Lemma halt_lasts_until_reset_witness :
  let halted := run two_losses RiskManager.init in
  let req := {| Engine.req_symbol := "NQ=F"; Engine.req_action := "BUY";
                Engine.req_user := "trader"; Engine.req_reasoning := "Manual" |} in
  serve_all [PostExecute (draw First First 2.0) (Some 20000%float) req;
             GetAccountStatus;
             PostExecute (draw First First 3.0) (Some 20010%float) req] halted
  = halted.
Proof.
  cbv zeta.
  refine (proj1 (halt_lasts_until_reset _ (run two_losses RiskManager.init)
                   "Daily Loss Limit Hit" _ _)).
  - vm_compute. reflexivity.
  - reflexivity.
Defined.

(** ** What the risk manager does not do *)

(** X7.  [execute_paper_trade] does not consult the risk gate: on an account that
    [can_trade] refuses, it still executes and counts a trade whenever the
    position can be sized.  Gating is left to the caller. *)
Theorem execute_paper_trade_ignores_gate (d : draws) (rm : RiskManager.t)
    (symbol action : string) (price stop : num) (reasoning reason : string) :
  can_trade rm = (false, reason) ->
  is_finite (sizing_quotient rm price stop "NQ") = true ->
  exists rm' trade sz,
    execute_paper_trade d rm symbol action price stop reasoning
      = Ok (rm', (trade, sz))
    /\ trades_today rm' = trades_today rm + 1
    /\ history (exchange rm') = history (exchange rm) ++ [trade].
Proof.
  intros _ Hfin.
  pose proof (execute_paper_trade_returns d rm symbol action price stop reasoning)
    as Hret.
  rewrite Hfin in Hret.
  destruct (execute_paper_trade d rm symbol action price stop reasoning)
    as [[rm' [trade sz]]|e] eqn:E; [|discriminate].
  exists rm', trade, sz. split; [reflexivity|].
  apply execute_paper_trade_ok in E. destruct E as (_ & Ht & Ho).
  apply execute_order_ledger in Ho. destruct Ho as (net & _ & _ & _ & Hh & _).
  split; assumption.
Qed.

Lemma execute_paper_trade_ignores_gate_witness :
  exists rm' trade sz,
    execute_paper_trade (draw First First 2.0) (run two_losses RiskManager.init)
      "NQ=F" "BUY" (np 20000) (np 19980) "Manual" = Ok (rm', (trade, sz))
    /\ trades_today rm' = trades_today (run two_losses RiskManager.init) + 1
    /\ history (exchange rm')
       = history (exchange (run two_losses RiskManager.init)) ++ [trade].
Proof.
  refine (execute_paper_trade_ignores_gate _ _ _ _ _ _ _ "Daily Loss Limit Hit" _ _).
  - vm_compute. reflexivity.
  - vm_compute. reflexivity.
Defined.

(** ** What the history holds *)

Lemma step_history_labels (c : call) (rm : RiskManager.t) :
  risk_manager_call c = true ->
  Forall well_labelled (history (exchange rm)) ->
  Forall well_labelled (history (exchange (step c rm))).
Proof.
  destruct c; cbn [risk_manager_call step]; try discriminate; intros _ H;
    try assumption; [|constructor].
  destruct (execute_paper_trade d rm symbol action price stop reasoning)
    as [[rm' [trade sz]]|e] eqn:E; [|assumption].
  apply execute_paper_trade_ok in E. destruct E as (Hs & _ & Ho).
  apply calculate_position_size_symbol in Hs.
  rewrite execute_order_unfold in Ho.
  destruct (float_of_int (s_contracts sz)); cbn [Py.bind] in Ho; [|discriminate].
  injection Ho as Hex Htr. rewrite <- Hex. cbn [history].
  apply Forall_app. split; [assumption|]. constructor; [|constructor].
  split; cbn [t_symbol t_result].
  - destruct Hs as [[_ ->]|[_ ->]]; [left|right]; reflexivity.
  - unfold outcome_of. destruct (outcome_pick d); cbn; auto.
Qed.

Lemma run_history_labels (cs : list call) :
  forall rm,
    forallb risk_manager_call cs = true ->
    Forall well_labelled (history (exchange rm)) ->
    Forall well_labelled (history (exchange (run cs rm))).
Proof.
  induction cs as [|c cs IH]; intros rm Hcs Hrm; [exact Hrm|].
  cbn [forallb] in Hcs. apply andb_true_iff in Hcs. destruct Hcs as [Hc Hcs].
  change (run (c :: cs) rm) with (run cs (step c rm)).
  apply IH; [exact Hcs|]. apply step_history_labels; assumption.
Qed.

(** X8.  Every trade the risk manager records is on "NQ" or "MNQ" and is a "WIN"
    or a "LOSS", so that the wins [get_stats] counts and the losses add up
    to the number of trades. *)
Theorem recorded_trades_are_labelled (cs : list call) :
  forallb risk_manager_call cs = true ->
  let hist := history (exchange (run cs RiskManager.init)) in
  Forall well_labelled hist
  /\ (List.length (filter (fun t => String.eqb (t_result t) "WIN") hist)
      + List.length (filter (fun t => String.eqb (t_result t) "LOSS") hist)
      = List.length hist)%nat.
Proof.
  intros Hcs. cbv zeta.
  pose proof (run_history_labels cs RiskManager.init Hcs (Forall_nil _)) as H.
  split; [exact H|].
  induction H as [|t l [_ [Hr|Hr]] _ IH]; [reflexivity| |];
    cbn [filter]; rewrite Hr; cbn; lia.
Qed.

Lemma recorded_trades_are_labelled_witness :
  Forall well_labelled (history (exchange (run two_wins RiskManager.init))).
Proof. exact (proj1 (recorded_trades_are_labelled two_wins eq_refl)). Defined.

(** ** The session cookie of the gateway *)

Lemma prefix_append (p s : string) :
  String.prefix p s = true -> exists rest, s = String.append p rest.
Proof.
  revert s. induction p as [|c p IH]; intros s H.
  - exists s. reflexivity.
  - destruct s as [|c' s]; [discriminate|]. cbn [String.prefix] in H.
    destruct (Ascii.ascii_dec c c') as [<-|]; [|discriminate].
    destruct (IH s H) as [rest ->]. exists rest. reflexivity.
Qed.

Lemma prefix_of_append (p rest : string) :
  String.prefix p (String.append p rest) = true.
Proof.
  induction p as [|c p IH]; cbn [String.append String.prefix].
  - destruct rest; reflexivity.
  - destruct (Ascii.ascii_dec c c) as [_|Hne]; [exact IH|contradiction].
Qed.

Lemma split_space_cons (s : string) :
  exists piece pieces, Gateway.split_space s = piece :: pieces.
Proof.
  induction s as [|c s (piece & pieces & IH)]; cbn [Gateway.split_space].
  - eauto.
  - destruct (Ascii.eqb c Ascii.Space); [eauto|]. rewrite IH. eauto.
Qed.

Lemma split_space_bearer (rest : string) :
  Gateway.split_space (String.append "Bearer " rest)
  = "Bearer"%string :: Gateway.split_space rest.
Proof.
  destruct (split_space_cons rest) as (piece & pieces & E).
  cbn. rewrite E. reflexivity.
Qed.

Lemma has_space_cons (c : Ascii.ascii) (s : string) :
  Gateway.has_space (String c s)
  = (Ascii.eqb c Ascii.Space || Gateway.has_space s)%bool.
Proof.
  unfold Gateway.has_space. cbn [Analysis.contains String.prefix].
  destruct (Ascii.ascii_dec _ c) as [<-|Hne].
  - destruct s; reflexivity.
  - destruct (Ascii.eqb_spec c Ascii.Space) as [->|_];
      [exfalso; apply Hne; reflexivity|reflexivity].
Qed.

Lemma split_space_first (s : string) :
  Gateway.has_space s = false -> Gateway.split_space s = [s].
Proof.
  induction s as [|c s IH]; [reflexivity|].
  rewrite has_space_cons. intros H. apply orb_false_iff in H.
  destruct H as [Hc Hs]. cbn [Gateway.split_space]. rewrite Hc, (IH Hs).
  reflexivity.
Qed.

Lemma split_space_at_space (token tail : string) :
  Gateway.has_space token = false ->
  Gateway.split_space (String.append token (String Ascii.Space tail))
  = token :: Gateway.split_space tail.
Proof.
  induction token as [|c token IH]; intros H; [reflexivity|].
  rewrite has_space_cons in H. apply orb_false_iff in H.
  destruct H as [Hc Hs].
  cbn [String.append Gateway.split_space]. rewrite Hc, (IH Hs). reflexivity.
Qed.

Section CurrentUser.

Variable payload : Type.
Variable jwt_decode : string -> option payload.

(** X9.  The cookie set at login reads back: for a token without a space, as
    every JWT is, [get_current_user_data] on the cookie value
    [f"Bearer {token}"] decodes exactly that token. *)
Theorem bearer_cookie_round_trip (token : string) :
  Gateway.has_space token = false ->
  Gateway.get_current_user_data payload jwt_decode
    (Some (Gateway.bearer_cookie token))
  = Gateway.Returns (jwt_decode token).
Proof.
  intros H. unfold Gateway.get_current_user_data, Gateway.bearer_cookie.
  rewrite prefix_of_append, split_space_bearer, (split_space_first _ H).
  reflexivity.
Qed.

(** X10.  [token.split(" ")[1]] is always in range: the index is taken only behind
    the test for the prefix "Bearer ", so [get_current_user_data] never
    raises an [IndexError]; without a cookie, or with an empty one, it
    answers [None] without decoding anything, and what follows a second
    space in the cookie is ignored. *)
Theorem get_current_user_data_never_raises (cookie : option string) :
  Gateway.get_current_user_data payload jwt_decode cookie
    <> Gateway.RaisesIndexError
  /\ Gateway.get_current_user_data payload jwt_decode None = Gateway.Returns None
  /\ Gateway.get_current_user_data payload jwt_decode (Some ""%string)
     = Gateway.Returns None
  /\ (forall token rest,
        Gateway.has_space token = false ->
        Gateway.get_current_user_data payload jwt_decode
          (Some (String.append (Gateway.bearer_cookie token)
                   (String.append " " rest)))
        = Gateway.Returns (jwt_decode token)).
Proof.
  split; [|split; [reflexivity|split; [reflexivity|]]].
  - unfold Gateway.get_current_user_data.
    destruct cookie as [token|]; [|discriminate].
    destruct (String.eqb token ""); [discriminate|].
    destruct (String.prefix "Bearer " token) eqn:E; [|discriminate].
    apply prefix_append in E. destruct E as [rest ->].
    rewrite split_space_bearer.
    destruct (split_space_cons rest) as (piece & pieces & ->). discriminate.
  - intros token rest H.
    unfold Gateway.get_current_user_data, Gateway.bearer_cookie.
    change (String.append (String.append "Bearer " token) (String.append " " rest))
      with (String.append "Bearer " (String.append token (String.append " " rest))).
    rewrite prefix_of_append, split_space_bearer.
    change (String.append " " rest) with (String Ascii.Space rest).
    rewrite (split_space_at_space _ _ H). reflexivity.
Qed.

End CurrentUser.

Lemma bearer_cookie_round_trip_witness :
  Gateway.get_current_user_data string (fun t => Some t)
    (Some "Bearer eyJhbGciOi.eyJzdWIiOi.c2lnbmF0dXJl"%string)
  = Gateway.Returns (Some "eyJhbGciOi.eyJzdWIiOi.c2lnbmF0dXJl"%string).
Proof.
  exact (bearer_cookie_round_trip string (fun t => Some t)
           "eyJhbGciOi.eyJzdWIiOi.c2lnbmF0dXJl" eq_refl).
Defined.

Lemma get_current_user_data_never_raises_witness :
  Gateway.get_current_user_data string (fun t => Some t)
    (Some "Bearer abc.def.ghi trailing"%string)
  = Gateway.Returns (Some "abc.def.ghi"%string).
Proof.
  refine (proj2 (proj2 (proj2
            (get_current_user_data_never_raises string (fun t => Some t) None)))
            "abc.def.ghi"%string "trailing"%string _).
  reflexivity.
Defined.

(** ** The session windows of [/analysis] *)

Lemma time_le_microseconds (a b : Analysis.time) :
  Analysis.valid_time a -> Analysis.valid_time b ->
  Analysis.time_le a b
  = (Analysis.microsecond_of_day a <=? Analysis.microsecond_of_day b).
Proof.
  unfold Analysis.valid_time, Analysis.time_le, Analysis.time_compare,
    Analysis.microsecond_of_day.
  intros Ha Hb.
  destruct (Z.compare_spec (Analysis.hour a) (Analysis.hour b));
    [destruct (Z.compare_spec (Analysis.minute a) (Analysis.minute b));
     [destruct (Z.compare_spec (Analysis.second a) (Analysis.second b));
      [destruct (Z.compare_spec (Analysis.microsecond a) (Analysis.microsecond b))
      | |]
     | |]
    | |];
    symmetry; (apply Z.leb_le || apply Z.leb_gt); nia.
Qed.

(** X11.  The window test on the fields of the clock is the test on the time
    elapsed since midnight, bounds included: "AM SILVER BULLET" from 10:00 to
    11:00 sharp, "PM SILVER BULLET" from 14:00 to 15:00 sharp, "OFF HOURS"
    at every other time; the label holds "BULLET" exactly inside a
    window. *)
Theorem silver_bullet_windows (now : Analysis.time) :
  Analysis.valid_time now ->
  let us := Analysis.microsecond_of_day now in
  (Analysis.check_silver_bullet now = "AM SILVER BULLET"%string <->
     36000000000 <= us <= 39600000000)
  /\ (Analysis.check_silver_bullet now = "PM SILVER BULLET"%string <->
        50400000000 <= us <= 54000000000)
  /\ (Analysis.check_silver_bullet now = "OFF HOURS"%string <->
        us < 36000000000 \/ 39600000000 < us < 50400000000 \/ 54000000000 < us)
  /\ (Analysis.contains "BULLET" (Analysis.check_silver_bullet now) = true <->
        36000000000 <= us <= 39600000000 \/ 50400000000 <= us <= 54000000000).
Proof.
  intros Hv. cbv zeta. unfold Analysis.check_silver_bullet.
  assert (V : forall h, 0 <= h < 24 -> Analysis.valid_time (Analysis.time_of h 0)).
  { intros h Hh. unfold Analysis.valid_time. cbn. lia. }
  rewrite !time_le_microseconds by (assumption || (apply V; lia)).
  change (Analysis.microsecond_of_day (Analysis.time_of 10 0)) with 36000000000.
  change (Analysis.microsecond_of_day (Analysis.time_of 11 0)) with 39600000000.
  change (Analysis.microsecond_of_day (Analysis.time_of 14 0)) with 50400000000.
  change (Analysis.microsecond_of_day (Analysis.time_of 15 0)) with 54000000000.
  set (us := Analysis.microsecond_of_day now). clearbody us.
  destruct (Z.leb_spec 36000000000 us), (Z.leb_spec us 39600000000),
    (Z.leb_spec 50400000000 us), (Z.leb_spec us 54000000000);
    cbn [andb]; repeat split; intros; try discriminate; try reflexivity; try lia.
Qed.

Lemma silver_bullet_windows_witness :
  Analysis.check_silver_bullet
    {| Analysis.hour := 11; Analysis.minute := 0; Analysis.second := 0;
       Analysis.microsecond := 0 |} = "AM SILVER BULLET"%string.
Proof.
  refine (proj2 (proj1 (silver_bullet_windows
                          {| Analysis.hour := 11; Analysis.minute := 0;
                             Analysis.second := 0; Analysis.microsecond := 0 |}
                          _)) _).
  - unfold Analysis.valid_time. cbn. lia.
  - cbn. lia.
Defined.

(** ** The reasoning line of [/analysis] *)

Lemma ltb_nan_l (x y : float) : is_nan x = true -> PrimFloat.ltb x y = false.
Proof.
  unfold is_nan. rewrite ltb_spec, FloatAxioms.eqb_spec, negb_true_iff.
  destruct (Prim2SF x) as [s|s| |s m e]; try reflexivity.
  - discriminate.
  - destruct s; discriminate.
  - unfold SFeqb, SFcompare. rewrite Z.compare_refl, Pos.compare_cont_refl.
    destruct s; discriminate.
Qed.

Lemma ltb_nan_r (x y : float) : is_nan y = true -> PrimFloat.ltb x y = false.
Proof.
  unfold is_nan. rewrite ltb_spec, FloatAxioms.eqb_spec, negb_true_iff.
  destruct (Prim2SF y) as [s|s| |s m e].
  - discriminate.
  - destruct s; discriminate.
  - intros _. destruct (Prim2SF x); reflexivity.
  - unfold SFeqb at 1, SFcompare at 1.
    rewrite Z.compare_refl, Pos.compare_cont_refl. destruct s; discriminate.
Qed.

Lemma is_nan_Prim2SF (x : float) : is_nan x = true -> Prim2SF x = S754_nan.
Proof.
  unfold is_nan. rewrite FloatAxioms.eqb_spec, negb_true_iff.
  destruct (Prim2SF x) as [s|s| |s m e]; try reflexivity.
  - discriminate.
  - destruct s; discriminate.
  - unfold SFeqb, SFcompare. rewrite Z.compare_refl, Pos.compare_cont_refl.
    destruct s; discriminate.
Qed.

Lemma Prim2SF_is_nan (x : float) : Prim2SF x = S754_nan -> is_nan x = true.
Proof.
  unfold is_nan. rewrite FloatAxioms.eqb_spec, negb_true_iff.
  intros ->. reflexivity.
Qed.

(** numpy's rounding of a NaN is a NaN. *)
Lemma np_round_nan (x : float) :
  is_nan x = true -> is_nan (Np.round x 2) = true.
Proof.
  intros Hn. apply is_nan_Prim2SF in Hn. apply Prim2SF_is_nan.
  unfold Np.round. rewrite power_of_ten_2.
  assert (Hm : Prim2SF (x * 100) = S754_nan).
  { rewrite mul_spec, Hn. reflexivity. }
  assert (Hr : Np.rint (x * 100) = (x * 100)%float).
  { unfold Np.rint. rewrite Hm. reflexivity. }
  rewrite Hr, div_spec, Hm. reflexivity.
Qed.

(** X12.  Without a feed the answer of [/analysis] is the offline one: price
    0, bias "DATA_OFFLINE", reasoning "Market Data Unavailable", no range and
    session "N/A".  With a feed the price is the last close rounded to cents
    by numpy, and the reasons match the bias and the session: the reasoning
    line names "Price > RDR High" exactly when the price is above the range,
    "Price < RDR Low" exactly when it is not above but below it, then the
    session when a window is active, joined by " + "; it is empty exactly
    when the bias is "NEUTRAL" outside the windows.  A missing range or a NaN
    close gives a "NEUTRAL" bias. *)
Theorem reasoning_matches_bias
    (feed : option (float * option Analysis.dr_range)) (now : Analysis.time) :
  let answer := Analysis.perform_analysis feed now in
  match feed with
  | None =>
      Analysis.a_price answer = Analysis.IntPrice 0
      /\ Analysis.a_bias answer = "DATA_OFFLINE"%string
      /\ Analysis.a_reasoning answer = "Market Data Unavailable"%string
      /\ Analysis.a_RDR answer = None
      /\ Analysis.a_silver_bullet answer = "N/A"%string
  | Some (close, RDR) =>
      let price := (Np.rint (close * 100) / 100)%float in
      let above := match RDR with
                   | Some r => PrimFloat.ltb (Analysis.h r) price
                   | None => false
                   end in
      let below := match RDR with
                   | Some r => (negb (PrimFloat.ltb (Analysis.h r) price)
                                && PrimFloat.ltb price (Analysis.l r))%bool
                   | None => false
                   end in
      let session := Analysis.check_silver_bullet now in
      Analysis.a_price answer = Analysis.FloatPrice (np price)
      /\ Analysis.a_RDR answer = RDR
      /\ Analysis.a_silver_bullet answer = session
      /\ Analysis.a_reasoning answer
         = String.concat " + "
             ((if above then ["Price > RDR High"%string] else [])
              ++ (if below then ["Price < RDR Low"%string] else [])
              ++ (if String.eqb session "OFF HOURS" then []
                  else [String.append session " Active"]))
      /\ (Analysis.a_reasoning answer = ""%string <->
            Analysis.a_bias answer = "NEUTRAL"%string
            /\ session = "OFF HOURS"%string)
      /\ (Analysis.a_bias answer = "BULLISH (KM7)"%string <-> above = true)
      /\ (Analysis.a_bias answer = "BEARISH (KM7)"%string <-> below = true)
      /\ (Analysis.a_bias answer = "NEUTRAL"%string <->
            above = false /\ below = false)
      /\ (is_nan close = true -> Analysis.a_bias answer = "NEUTRAL"%string)
      /\ (RDR = None -> Analysis.a_bias answer = "NEUTRAL"%string)
  end.
Proof.
  cbv zeta. destruct feed as [[close RDR]|].
  2: { cbn. repeat split. }
  unfold Analysis.perform_analysis.
  cbn [Analysis.a_price Analysis.a_bias Analysis.a_reasoning Analysis.a_RDR
       Analysis.a_silver_bullet].
  assert (Hp : Num.round (np close) 2 = np (Np.rint (close * 100) / 100)).
  { unfold Num.round, Np.round. cbn [kind_of val np].
    rewrite power_of_ten_2. reflexivity. }
  assert (Hnan : is_nan close = true ->
                 is_nan (Np.rint (close * 100) / 100) = true).
  { intros Hn. apply np_round_nan in Hn. unfold Np.round in Hn.
    rewrite power_of_ten_2 in Hn. exact Hn. }
  rewrite Hp. cbn [val np].
  set (price := (Np.rint (close * 100) / 100)%float) in *. clearbody price.
  unfold Analysis.reasons_of, Analysis.m7_bias_of, Analysis.check_silver_bullet.
  split; [reflexivity|]. split; [reflexivity|]. split; [reflexivity|].
  split; [|split; [|split; [|split; [|split; [|split]]]]].
  - destruct RDR as [r|];
      [destruct (PrimFloat.ltb (Analysis.h r) price);
       destruct (PrimFloat.ltb price (Analysis.l r))|];
      cbn [negb andb];
      destruct (Analysis.time_le (Analysis.time_of 10 0) now
                && Analysis.time_le now (Analysis.time_of 11 0))%bool;
      try destruct (Analysis.time_le (Analysis.time_of 14 0) now
                    && Analysis.time_le now (Analysis.time_of 15 0))%bool;
      reflexivity.
  - destruct RDR as [r|];
      [destruct (PrimFloat.ltb (Analysis.h r) price);
       destruct (PrimFloat.ltb price (Analysis.l r))|];
      cbn [negb andb];
      destruct (Analysis.time_le (Analysis.time_of 10 0) now
                && Analysis.time_le now (Analysis.time_of 11 0))%bool;
      try destruct (Analysis.time_le (Analysis.time_of 14 0) now
                    && Analysis.time_le now (Analysis.time_of 15 0))%bool;
      split; try (intros [? ?]); try intros ?; try discriminate;
      try split; reflexivity.
  - destruct RDR as [r|];
      [destruct (PrimFloat.ltb (Analysis.h r) price);
       destruct (PrimFloat.ltb price (Analysis.l r))|];
      cbn [negb andb]; split; intros ?; try discriminate; reflexivity.
  - destruct RDR as [r|];
      [destruct (PrimFloat.ltb (Analysis.h r) price);
       destruct (PrimFloat.ltb price (Analysis.l r))|];
      cbn [negb andb]; split; intros ?; try discriminate; reflexivity.
  - destruct RDR as [r|];
      [destruct (PrimFloat.ltb (Analysis.h r) price);
       destruct (PrimFloat.ltb price (Analysis.l r))|];
      cbn [negb andb];
      split; try (intros [? ?]); try intros ?; try discriminate;
      try split; reflexivity.
  - intros Hn. apply Hnan in Hn. destruct RDR as [r|]; [|reflexivity].
    rewrite (ltb_nan_r _ _ Hn), (ltb_nan_l _ _ Hn). reflexivity.
  - intros ->. reflexivity.
Qed.

Lemma reasoning_matches_bias_witness :
  Analysis.a_reasoning (Analysis.perform_analysis None (Analysis.time_of 10 30))
  = "Market Data Unavailable"%string
  /\ Analysis.a_bias
       (Analysis.perform_analysis
          (Some (nan, Some {| Analysis.h := 20010; Analysis.l := 19990;
                              Analysis.mid := 20000 |}))
          (Analysis.time_of 9 30))
     = "NEUTRAL"%string
  /\ Analysis.a_reasoning
       (Analysis.perform_analysis
          (Some (20010.006%float,
                 Some {| Analysis.h := 20010; Analysis.l := 19990;
                         Analysis.mid := 20000 |}))
          (Analysis.time_of 10 30))
     = "Price > RDR High + AM SILVER BULLET Active"%string.
Proof.
  split; [|split].
  - pose proof (reasoning_matches_bias None (Analysis.time_of 10 30)) as H.
    cbv zeta in H. destruct H as (_ & _ & H & _). exact H.
  - pose proof (reasoning_matches_bias
                  (Some (nan, Some {| Analysis.h := 20010; Analysis.l := 19990;
                                      Analysis.mid := 20000 |}))
                  (Analysis.time_of 9 30)) as H.
    cbv zeta in H. destruct H as (_ & _ & _ & _ & _ & _ & _ & _ & H & _).
    apply H. reflexivity.
  - reflexivity.
Defined.

(** ** The win rate *)

(** X13.  The win rate [get_stats] shows is a percentage: the integer 0 while the
    history is empty, and otherwise a float [x] with [0 <= x <= 100], which
    is exactly 100.0 when every trade is a win and 0.0 when none is; the
    division [wins / total] never raises, and [get_status] passes the same
    value on. *)
Theorem win_rate_is_a_percentage (rm : RiskManager.t) :
  let hist := history (exchange rm) in
  let win_rate := st_win_rate (get_stats (exchange rm)) in
  match win_rate with
  | Int n => n = 0 /\ hist = []
  | Float x =>
      hist <> [] /\ PrimFloat.leb 0 x = true /\ float_le_int x 100 = true
  end
  /\ (hist <> [] -> forallb is_win hist = true -> win_rate = Float 100)
  /\ (hist <> [] -> existsb is_win hist = false -> win_rate = Float 0)
  /\ g_win_rate (get_status rm) = win_rate.
Proof.
  cbv zeta. unfold get_stats. cbn [st_win_rate].
  fold is_win.
  change (fun t : trade_record => (t_result t =? "WIN")%string) with is_win.
  set (hist := history (exchange rm)).
  split; [|split; [|split; [|reflexivity]]].
  - destruct hist as [|t0 hist'] eqn:Eh.
    + cbn. split; reflexivity.
    + rewrite <- Eh.
      assert (Hlen : 0 < Z.of_nat (List.length hist)) by (rewrite Eh; cbn; lia).
      pose proof (filter_length_le _ is_win hist) as Hle.
      destruct (win_rate_of_percentage
                  (Z.of_nat (List.length (filter is_win hist)))
                  (Z.of_nat (List.length hist)) ltac:(lia) Hlen) as (x & -> & Hx).
      split; [rewrite Eh; discriminate|].
      apply and_comm. apply at_most_le_int; [exact Hx|lia].
  - intros Hne Hall. rewrite (filter_all _ _ _ Hall).
    destruct hist as [|t0 hist']; [contradiction|].
    unfold win_rate_of. cbn [List.length].
    rewrite Nat2Z.inj_succ. unfold Z.succ.
    destruct (Z.of_nat (List.length hist') + 1) as [|p|p] eqn:E; try lia.
    rewrite int_truediv_self. reflexivity.
  - intros Hne Hnone. rewrite (filter_none _ _ _ Hnone).
    destruct hist as [|t0 hist']; [contradiction|].
    unfold win_rate_of. cbn [List.length].
    rewrite Nat2Z.inj_succ. unfold Z.succ.
    destruct (Z.of_nat (List.length hist') + 1) as [|p|p] eqn:E; try lia.
    reflexivity.
Qed.

Lemma win_rate_is_a_percentage_witness :
  st_win_rate (get_stats (exchange (run two_wins RiskManager.init))) = Float 100.
Proof.
  pose proof (win_rate_is_a_percentage (run two_wins RiskManager.init)) as H.
  cbv zeta in H.
  destruct H as (_ & H & _).
  apply H.
  - vm_compute. discriminate.
  - vm_compute. reflexivity.
Defined.

(** ** The history between two resets *)

Lemma serve_appends (r : request) (risk : RiskManager.t) :
  is_post_reset r = false ->
  serve r risk = risk
  \/ (trades_today (serve r risk) = trades_today risk + 1
      /\ exists trade,
           history (exchange (serve r risk)) = history (exchange risk) ++ [trade]).
Proof.
  intros Hr. destruct r as [d last_close req| |]; try discriminate;
    cbn [serve]; [|left; reflexivity].
  destruct (Engine.execute_trade d last_close risk req)
    as [[risk' answer]|e] eqn:E; [|left; reflexivity].
  destruct (execute_trade_effect d last_close risk risk' req answer E)
    as [H|(_ & _ & Ht & trade & Hh)].
  - left. exact H.
  - right. split; [assumption|]. exists trade. exact Hh.
Qed.

(** X14.  Nothing but a reset removes or changes a recorded trade or lowers the
    count of the day: over any sequence of [/execute] and [/account-status]
    requests the history only grows at its end, [trades_today] grows by the
    number of trades added (no change of date resets it), and when no trade
    was added the account is unchanged. *)
Theorem history_is_append_only (rs : list request) (risk : RiskManager.t) :
  forallb (fun r => negb (is_post_reset r)) rs = true ->
  exists new,
    history (exchange (serve_all rs risk)) = history (exchange risk) ++ new
    /\ trades_today (serve_all rs risk)
       = trades_today risk + Z.of_nat (List.length new)
    /\ (new = [] -> serve_all rs risk = risk).
Proof.
  revert risk. induction rs as [|r rs IH]; intros risk Hrs.
  - exists []. rewrite app_nil_r. cbn. split; [reflexivity|split; [lia|reflexivity]].
  - cbn [forallb] in Hrs. apply andb_true_iff in Hrs. destruct Hrs as [Hr Hrs].
    apply negb_true_iff in Hr. rewrite serve_all_cons.
    destruct (IH (serve r risk) Hrs) as (new & Hh & Ht & Hsame).
    destruct (serve_appends r risk Hr) as [E|(Ht1 & trade & Hh1)].
    + rewrite E in *. exists new. repeat split; assumption.
    + exists (trade :: new). rewrite Hh, Hh1, <- app_assoc, Ht, Ht1.
      cbn [List.length app]. split; [reflexivity|split; [lia|discriminate]].
Qed.

Lemma history_is_append_only_witness :
  let req := {| Engine.req_symbol := "NQ=F"; Engine.req_action := "BUY";
                Engine.req_user := "trader"; Engine.req_reasoning := "Manual" |} in
  let rs := [PostExecute (draw First First 2.0) (Some 20000%float) req;
             GetAccountStatus] in
  exists new,
    history (exchange (serve_all rs (run two_wins RiskManager.init)))
    = history (exchange (run two_wins RiskManager.init)) ++ new
    /\ trades_today (serve_all rs (run two_wins RiskManager.init))
       = trades_today (run two_wins RiskManager.init) + Z.of_nat (List.length new)
    /\ (new = [] ->
        serve_all rs (run two_wins RiskManager.init) = run two_wins RiskManager.init).
Proof.
  cbv zeta. refine (history_is_append_only _ _ _). reflexivity.
Defined.

(** ** Losses and their sign *)

Lemma execute_order_loss_is_no_gain (d : draws) (ex ex' : PaperExchange.t)
    (symbol action : string) (quantity : Z) (price stop : num)
    (reasoning : string) (trade : trade_record) :
  0 <= quantity ->
  execute_order d ex symbol action quantity price stop reasoning = Ok (ex', trade) ->
  loss_is_no_gain trade.
Proof.
  intros Hq. rewrite execute_order_unfold.
  destruct (float_of_int quantity) as [q|e] eqn:Eq; cbn [Py.bind]; [|discriminate].
  intros H. injection H as _ <-. unfold loss_is_no_gain. cbn [t_result t_pnl].
  destruct (outcome_of d); cbn [Claimed.outcome_label]; [discriminate|].
  intros _. apply not_positive_ltb, num_round_not_positive. cbn [val].
  apply net_pnl_loss_not_positive.
  exact (float_of_int_nonneg quantity q Hq Eq).
Qed.

Lemma step_loss_is_no_gain (c : call) (rm : RiskManager.t) :
  risk_manager_call c = true ->
  Forall loss_is_no_gain (history (exchange rm)) ->
  Forall loss_is_no_gain (history (exchange (step c rm))).
Proof.
  destruct c; cbn [risk_manager_call step]; try discriminate; intros _ H;
    try assumption; [|constructor].
  destruct (execute_paper_trade d rm symbol action price stop reasoning)
    as [[rm' [trade sz]]|e] eqn:E; [|assumption].
  apply execute_paper_trade_ok in E. destruct E as (Hs & _ & Ho).
  assert (Hc : 0 <= s_contracts sz).
  { rewrite calculate_position_size_unfold in Hs.
    destruct (int_of_float _) as [n|e]; cbn [Py.bind] in Hs; [|discriminate].
    injection Hs as <-. cbn [s_contracts]. rewrite py_max_eq. lia. }
  pose proof (execute_order_loss_is_no_gain _ _ _ _ _ _ _ _ _ _ Hc Ho) as Ht.
  apply execute_order_ledger in Ho. destruct Ho as (net & _ & _ & _ & -> & _).
  apply Forall_app. split; [assumption|]. constructor; [exact Ht|constructor].
Qed.

(** X15.  The label of a trade never hides a gain: in every state reached
    through the risk manager, a trade recorded as a "LOSS" has a P&L that is
    not above zero ([pnl > 0] is false, whatever the prices, infinite or NaN
    included), and every trade with a P&L above zero is a "WIN". *)
Theorem a_loss_is_never_a_gain (cs : list call) :
  forallb risk_manager_call cs = true ->
  let hist := history (exchange (run cs RiskManager.init)) in
  Forall loss_is_no_gain hist
  /\ Forall (fun t => PrimFloat.ltb 0 (t_pnl t) = true ->
                      t_result t = "WIN"%string) hist.
Proof.
  intros Hcs. cbv zeta.
  assert (H : forall rm,
             Forall loss_is_no_gain (history (exchange rm)) ->
             Forall loss_is_no_gain (history (exchange (run cs rm)))).
  { induction cs as [|c cs IH]; intros rm Hrm; [exact Hrm|].
    cbn [forallb] in Hcs. apply andb_true_iff in Hcs. destruct Hcs as [Hc Hcs].
    change (run (c :: cs) rm) with (run cs (step c rm)).
    apply IH; [exact Hcs|]. apply step_loss_is_no_gain; assumption. }
  specialize (H RiskManager.init (Forall_nil _)).
  split; [exact H|].
  pose proof (run_history_labels cs RiskManager.init Hcs (Forall_nil _)) as L.
  rewrite Forall_forall in *. intros t Ht Hpos.
  destruct (L t Ht) as [_ [Hw|Hl]]; [exact Hw|].
  rewrite (H t Ht Hl) in Hpos. discriminate.
Qed.

Lemma a_loss_is_never_a_gain_witness :
  Forall loss_is_no_gain (history (exchange (run two_losses RiskManager.init))).
Proof. exact (proj1 (a_loss_is_never_a_gain two_losses eq_refl)). Defined.

(** The converse does not hold: filled at its stop, a "WIN" earns nothing and
    pays the commission. *)
Example win_below_zero :
  exists rm' trade sz,
    execute_paper_trade (draw First First 2.0) RiskManager.init
      "NQ=F" "BUY" (np 20000) (np 20000) "Manual" = Ok (rm', (trade, sz))
    /\ t_result trade = "WIN"%string
    /\ PrimFloat.ltb (t_pnl trade) 0 = true.
Proof.
  eexists _, _, _. split; [vm_compute; reflexivity|]. split; reflexivity.
Qed.
